(** * IA_KICK: highlight scoring, selection and continuous learning

    A shallow embedding of the scoring pipeline of the Kick clip generator
    (kick_clip_generator.py, model_trainer.py, clip_manager.py).

    Numbers.  Python floats that carry times and scores are read as exact
    rationals ([Q]); NaN, infinities and rounding are outside that reading.
    Where a statement is about an exact binary64 result, the same source
    expression is evaluated on primitive binary64 floats as well.
    Python ints are [Z].

    Library code.  [sorted] is a stable sort, embedded as a stable insertion
    sort.  scikit-learn's scaler and regressor are external: their fit,
    transform and predict are the fields of a class, and their result is
    an [option], [None] standing for a raised exception. *)

From Stdlib Require Import String.
From Stdlib Require Import QArith Qabs Qminmax Qround Lqa ZArith List Bool Lia.
From Stdlib Require Import Sorted Permutation.
From Stdlib Require Import Floats.
Import ListNotations.

Set Warnings "-inexact-float".

(** ** Comparisons on rationals, as booleans *)

Definition Qltb (x y : Q) : bool := negb (Qle_bool y x).

Lemma Qltb_lt (x y : Q) : Qltb x y = true <-> (x < y)%Q.
Proof.
  unfold Qltb. rewrite negb_true_iff. split; intro H.
  - apply Qnot_le_lt. intro L. apply Qle_bool_iff in L. congruence.
  - destruct (Qle_bool y x) eqn:E; [|reflexivity].
    apply Qle_bool_iff in E. exfalso. apply (Qlt_not_le _ _ H E).
Qed.

Lemma Qltb_ge (x y : Q) : Qltb x y = false <-> (y <= x)%Q.
Proof.
  unfold Qltb. rewrite negb_false_iff. apply Qle_bool_iff.
Qed.

Lemma Qle_bool_total (x y : Q) : Qle_bool x y = false -> Qle_bool y x = true.
Proof.
  intro H. apply Qle_bool_iff. apply Qlt_le_weak. apply Qnot_le_lt.
  intro L. apply Qle_bool_iff in L. congruence.
Qed.

Lemma Qle_bool_trans (x y z : Q) :
  Qle_bool x y = true -> Qle_bool y z = true -> Qle_bool x z = true.
Proof.
  rewrite !Qle_bool_iff. apply Qle_trans.
Qed.

(** ** Stable sorting

    [sorted_by le l] is Python's [sorted(l, key=...)] for the comparison
    [le] induced by the key: elements whose keys compare equal keep the
    order they have in [l]. *)

Section StableSort.
Context {A : Type}.

Fixpoint insert_by (le : A -> A -> bool) (x : A) (l : list A) : list A :=
  match l with
  | [] => [x]
  | y :: l' => if le x y then x :: y :: l' else y :: insert_by le x l'
  end.

Fixpoint sorted_by (le : A -> A -> bool) (l : list A) : list A :=
  match l with
  | [] => []
  | x :: l' => insert_by le x (sorted_by le l')
  end.

Definition holds (le : A -> A -> bool) : A -> A -> Prop :=
  fun a b => le a b = true.

Definition total (le : A -> A -> bool) : Prop :=
  forall a b, le a b = false -> le b a = true.

Definition transitive (le : A -> A -> bool) : Prop :=
  forall a b c, le a b = true -> le b c = true -> le a c = true.

(** The order "first by [le2], ties broken by [le1]". *)
Definition lex (le2 le1 : A -> A -> bool) : A -> A -> bool :=
  fun x y => negb (le2 y x) || (le2 x y && le1 x y).

Lemma insert_by_perm le x l : Permutation (x :: l) (insert_by le x l).
Proof.
  induction l as [|y l IH]; simpl; [reflexivity|].
  destruct (le x y); [reflexivity|].
  rewrite perm_swap. now apply perm_skip.
Qed.

Lemma sorted_by_perm le l : Permutation l (sorted_by le l).
Proof.
  induction l as [|x l IH]; simpl; [constructor|].
  rewrite <- insert_by_perm. now apply perm_skip.
Qed.

Lemma sorted_by_length le l : length (sorted_by le l) = length l.
Proof. symmetry. apply Permutation_length, sorted_by_perm. Qed.

Lemma sorted_by_In le l x : In x (sorted_by le l) <-> In x l.
Proof.
  split; intro H.
  - eapply Permutation_in; [symmetry; apply sorted_by_perm | exact H].
  - eapply Permutation_in; [apply sorted_by_perm | exact H].
Qed.

Lemma insert_by_sorted le x l :
  total le -> transitive le ->
  StronglySorted (holds le) l -> StronglySorted (holds le) (insert_by le x l).
Proof.
  intros Htot Htr. induction l as [|y l IH]; simpl; intro S.
  - repeat constructor.
  - inversion S as [|? ? S' F]; subst.
    destruct (le x y) eqn:E.
    + constructor; [exact S|]. constructor; [exact E|].
      eapply Forall_impl; [|exact F]. intros z Hz. exact (Htr _ _ _ E Hz).
    + constructor; [now apply IH|].
      eapply Permutation_Forall; [apply insert_by_perm|].
      constructor; [now apply Htot | exact F].
Qed.

Lemma sorted_by_sorted le l :
  total le -> transitive le -> StronglySorted (holds le) (sorted_by le l).
Proof.
  intros Htot Htr. induction l as [|x l IH]; simpl.
  - constructor.
  - now apply insert_by_sorted.
Qed.

(** Sorting a list that is already in order leaves it as it is. *)
Lemma sorted_by_id le l : StronglySorted (holds le) l -> sorted_by le l = l.
Proof.
  induction 1 as [|x l S IH F]; simpl; [reflexivity|].
  rewrite IH. destruct l as [|y l]; [reflexivity|].
  simpl. inversion F as [|? ? E _]; subst. unfold holds in E. now rewrite E.
Qed.

Lemma insert_by_ext le le' x l :
  (forall y, In y l -> le x y = le' x y) ->
  insert_by le x l = insert_by le' x l.
Proof.
  induction l as [|y l IH]; simpl; intro H; [reflexivity|].
  rewrite <- (H y) by now left.
  destruct (le x y); [reflexivity|].
  f_equal. apply IH. intros z Hz. apply H. now right.
Qed.

(** Two insertions of elements that are strictly ordered commute. *)
Lemma insert_by_comm le a b l :
  total le -> transitive le ->
  le a b = true -> le b a = false ->
  insert_by le a (insert_by le b l) = insert_by le b (insert_by le a l).
Proof.
  intros Htot Htr Hab Hba. induction l as [|z l IH]; simpl.
  - now rewrite Hab, Hba.
  - destruct (le b z) eqn:Ebz.
    + assert (Eaz : le a z = true) by exact (Htr _ _ _ Hab Ebz).
      rewrite Eaz. simpl. now rewrite Hab, Hba, Ebz.
    + simpl. destruct (le a z) eqn:Eaz; simpl.
      * now rewrite Hba, Ebz.
      * rewrite Ebz. f_equal. exact IH.
Qed.

Section Radix.
Variables le1 le2 : A -> A -> bool.
Hypothesis tot1 : total le1.
Hypothesis tr1 : transitive le1.
Hypothesis tot2 : total le2.
Hypothesis tr2 : transitive le2.

Lemma lex_total : total (lex le2 le1).
Proof.
  intros a b H. unfold lex in *.
  apply orb_false_iff in H as [H1 H2]. apply negb_false_iff in H1.
  rewrite H1. destruct (le2 a b) eqn:Eab; simpl; [|reflexivity].
  simpl in H2. now apply tot1.
Qed.

Lemma lex_transitive : transitive (lex le2 le1).
Proof.
  intros a b c. unfold lex. intros Hab Hbc.
  apply orb_true_iff in Hab. apply orb_true_iff in Hbc.
  apply orb_true_iff.
  destruct (le2 c a) eqn:Eca; [right | now left].
  assert (Eab : le2 a b = true).
  { destruct Hab as [H|H].
    - apply negb_true_iff in H. now apply tot2.
    - now apply andb_true_iff in H. }
  assert (Ebc : le2 b c = true).
  { destruct Hbc as [H|H].
    - apply negb_true_iff in H. now apply tot2.
    - now apply andb_true_iff in H. }
  assert (Eba : le2 b a = true) by exact (tr2 _ _ _ Ebc Eca).
  assert (Ecb : le2 c b = true) by exact (tr2 _ _ _ Eca Eab).
  rewrite Eba in Hab. rewrite Ecb in Hbc. simpl in Hab, Hbc.
  destruct Hab as [H|Hab]; [discriminate|].
  destruct Hbc as [H|Hbc]; [discriminate|].
  apply andb_true_iff in Hab. apply andb_true_iff in Hbc.
  apply andb_true_iff. split.
  - exact (tr2 _ _ _ Eab Ebc).
  - exact (tr1 _ _ _ (proj2 Hab) (proj2 Hbc)).
Qed.

Lemma lex_le1_below x l :
  (forall y, In y l -> le1 x y = true) ->
  forall y, In y l -> le2 x y = lex le2 le1 x y.
Proof.
  intros H y Hy. unfold lex. rewrite (H y Hy), andb_true_r.
  destruct (le2 x y) eqn:E; simpl.
  - now rewrite orb_true_r.
  - now rewrite (tot2 _ _ E).
Qed.

Lemma sorted_by_insert_radix x m :
  StronglySorted (holds le1) m ->
  sorted_by le2 (insert_by le1 x m)
  = insert_by (lex le2 le1) x (sorted_by le2 m).
Proof.
  induction 1 as [|y m S IH F]; simpl; [reflexivity|].
  rewrite Forall_forall in F.
  destruct (le1 x y) eqn:E; simpl.
  - apply insert_by_ext. apply lex_le1_below.
    intros z Hz.
    assert (Hz' : In z (y :: m)).
    { apply (sorted_by_In le2 (y :: m)). exact Hz. }
    destruct Hz' as [<-|Hz']; [exact E|].
    exact (tr1 _ _ _ E (F _ Hz')).
  - rewrite IH.
    assert (Eyx : le1 y x = true) by now apply tot1.
    set (T := sorted_by le2 m).
    assert (HT : forall z, In z T -> le1 y z = true).
    { intros z Hz. apply F. now apply sorted_by_In in Hz. }
    rewrite (insert_by_ext le2 (lex le2 le1) y (insert_by (lex le2 le1) x T)).
    2:{ apply lex_le1_below. intros z Hz.
        assert (Hz' : In z (x :: T)).
        { eapply Permutation_in; [symmetry; apply insert_by_perm | exact Hz]. }
        destruct Hz' as [<-|Hz']; [exact Eyx | now apply HT]. }
    rewrite (insert_by_ext le2 (lex le2 le1) y T)
      by (apply lex_le1_below; exact HT).
    destruct (lex le2 le1 y x) eqn:Lyx.
    + apply insert_by_comm;
        [exact lex_total | exact lex_transitive | exact Lyx |].
      unfold lex in *. rewrite E, andb_false_r, orb_false_r.
      rewrite Eyx, andb_true_r in Lyx.
      apply negb_false_iff.
      destruct (le2 y x) eqn:E2; [reflexivity|].
      rewrite orb_false_r in Lyx. apply negb_true_iff in Lyx.
      now rewrite (tot2 _ _ Lyx) in E2.
    + symmetry. apply insert_by_comm;
        [exact lex_total | exact lex_transitive | | exact Lyx].
      now apply lex_total.
Qed.

(** Sorting by a secondary key and then, stably, by a primary key is
    sorting by the pair. *)
Lemma sorted_by_radix l :
  sorted_by le2 (sorted_by le1 l) = sorted_by (lex le2 le1) l.
Proof.
  induction l as [|x l IH]; simpl; [reflexivity|].
  rewrite sorted_by_insert_radix by now apply sorted_by_sorted.
  now rewrite IH.
Qed.
End Radix.
End StableSort.

(** ** Facts on lists used by the selector *)

Section ListFacts.
Context {A : Type}.

Lemma StronglySorted_impl (R S : A -> A -> Prop) l :
  (forall a b, R a b -> S a b) -> StronglySorted R l -> StronglySorted S l.
Proof.
  intros H. induction 1 as [|x l _ IH F]; constructor; [exact IH|].
  eapply Forall_impl; [|exact F]. intros b. apply H.
Qed.

Lemma StronglySorted_app_l (R : A -> A -> Prop) l1 l2 :
  StronglySorted R (l1 ++ l2) -> StronglySorted R l1.
Proof.
  induction l1 as [|x l1 IH]; simpl; intro S; [constructor|].
  inversion S as [|? ? S' F]; subst. constructor; [now apply IH|].
  apply Forall_app in F. tauto.
Qed.

Lemma StronglySorted_drop_mid (R : A -> A -> Prop) l1 x l2 :
  StronglySorted R (l1 ++ x :: l2) -> StronglySorted R (l1 ++ l2).
Proof.
  induction l1 as [|y l1 IH]; simpl; intro S;
    inversion S as [|? ? S' F]; subst; [exact S'|].
  constructor; [now apply IH|].
  apply Forall_app in F as [F1 F2]. inversion F2; subst.
  apply Forall_app. tauto.
Qed.

Lemma ForallOrdPairs_snoc (R : A -> A -> Prop) l x :
  ForallOrdPairs R l -> Forall (fun s => R s x) l ->
  ForallOrdPairs R (l ++ [x]).
Proof.
  induction 1 as [|a l Fa _ IH]; simpl; intro F.
  - repeat constructor.
  - inversion F; subst. constructor; [|now apply IH].
    apply Forall_app. split; [exact Fa | now constructor].
Qed.

Lemma ForallOrdPairs_app_l (R : A -> A -> Prop) l1 l2 :
  ForallOrdPairs R (l1 ++ l2) -> ForallOrdPairs R l1.
Proof.
  induction l1 as [|x l1 IH]; simpl; intro H; [constructor|].
  inversion H as [|? ? F H']; subst. constructor; [|now apply IH].
  apply Forall_app in F. tauto.
Qed.

Lemma ForallOrdPairs_app_cross (R : A -> A -> Prop) l1 x l2 :
  ForallOrdPairs R (l1 ++ x :: l2) -> Forall (fun s => R s x) l1.
Proof.
  induction l1 as [|y l1 IH]; simpl; intro H; [constructor|].
  inversion H as [|? ? F H']; subst. constructor; [|now apply IH].
  apply Forall_app in F as [_ F]. now inversion F.
Qed.

Lemma ForallOrdPairs_perm (R : A -> A -> Prop) l l' :
  (forall a b, R a b -> R b a) ->
  Permutation l l' -> ForallOrdPairs R l -> ForallOrdPairs R l'.
Proof.
  intros Hsym. induction 1 as [|x l l' P IH|x y l|l l' l'' _ IH1 _ IH2];
    intro H.
  - constructor.
  - inversion H as [|? ? F H']; subst. constructor; [|now apply IH].
    eapply Permutation_Forall; [exact P | exact F].
  - inversion H as [|? ? Fy H']; subst.
    inversion H' as [|? ? Fx H'']; subst.
    inversion Fy as [|? ? Ryx Fy']; subst.
    constructor; [|now constructor].
    constructor; [now apply Hsym | exact Fx].
  - auto.
Qed.
End ListFacts.

(** ** Configuration (config.py) *)

Module config.
Definition MAX_STREAM_DURATION : Q := 36000.
Definition TOP_N_HIGHLIGHTS : Z := 10.
Definition MAX_CLIPS_PER_TYPE : Z := 25.
Definition MAX_TOTAL_CLIPS : Z := 50.
Definition MIN_TRAINING_SAMPLES : nat := 10.
End config.

(** ** Data model (kick_clip_generator.py, [Highlight]) *)

Inductive Modality : Type := audio | video.

(** A feature dictionary, in insertion order; keys are unique. *)
Definition Features : Type := list (string * Q).

Record Highlight : Type := mkHighlight {
  start_time : Q;
  end_time : Q;
  score : Q;
  type : Modality;
  features : Features;
  timestamp : string
}.

(** ** Score combination (process_stream, lines 822 and 841)

    [(score * 0.6 + ml_score * 0.4) if ml_score > 0 else score] *)

Definition combined_score (h m : Q) : Q :=
  if Qltb 0 m then h * 0.6 + m * 0.4 else h.

(** The same expression on binary64 numbers. *)
Definition combined_score_b64 (h m : float) : float :=
  if (0 <? m)%float then (h * 0.6 + m * 0.4)%float else h.

Lemma SF64mul_comm (x y : spec_float) : SF64mul x y = SF64mul y x.
Proof.
  unfold SF64mul. destruct x as [sx|sx| |sx mx ex], y as [sy|sy| |sy my ey];
    simpl; try reflexivity; try (now rewrite xorb_comm).
  now rewrite xorb_comm, Pos.mul_comm, Z.add_comm.
Qed.

Lemma b64_mul_comm (x y : float) : (x * y = y * x)%float.
Proof.
  apply Prim2SF_inj. rewrite !FloatAxioms.mul_spec. apply SF64mul_comm.
Qed.

(** ** Highlight selection ([KickClipGenerator._filter_highlights]) *)

Definition by_score_desc (x y : Highlight) : bool :=
  Qle_bool (score y) (score x).

Definition by_start_time (x y : Highlight) : bool :=
  Qle_bool (start_time x) (start_time y).

(** The inner loop over [filtered]: does [h] start within [min_gap] of a
    highlight selected so far? *)
Definition overlaps (min_gap : Q) (h : Highlight) (filtered : list Highlight)
  : bool :=
  existsb (fun selected =>
             Qltb (Qabs (start_time h - start_time selected)) min_gap)
          filtered.

(** The outer loop over [sorted_highlights], with its [break]. *)
Fixpoint select_loop (min_gap : Q) (top_n : Z)
         (filtered rest : list Highlight) : list Highlight :=
  match rest with
  | [] => filtered
  | h :: rest' =>
      let filtered' :=
        if overlaps min_gap h filtered then filtered else filtered ++ [h] in
      if (top_n <=? Z.of_nat (length filtered'))%Z then filtered'
      else select_loop min_gap top_n filtered' rest'
  end.

(** [min(top_n, max_clips)] when [max_clips] is given. *)
Definition effective_top_n (top_n : Z) (max_clips : option Z) : Z :=
  match max_clips with
  | Some c => Z.min top_n c
  | None => top_n
  end.

Definition _filter_highlights (min_gap : Q) (highlights : list Highlight)
           (top_n : Z) (max_clips : option Z) : list Highlight :=
  match highlights with
  | [] => []
  | _ :: _ =>
      let top_n := effective_top_n top_n max_clips in
      let sorted_highlights := sorted_by by_score_desc highlights in
      let filtered := select_loop min_gap top_n [] sorted_highlights in
      sorted_by by_start_time filtered
  end.

(** process_stream clamps the caller's limit before it selects (line 797). *)
Definition clamp_max_clips (max_clips : Z) : Z :=
  Z.min max_clips config.MAX_CLIPS_PER_TYPE.

Definition gap_ok (min_gap : Q) (a b : Highlight) : Prop :=
  (min_gap <= Qabs (start_time a - start_time b))%Q.

Definition starts_before (a b : Highlight) : Prop :=
  (start_time a <= start_time b)%Q.

(** *** The selector's loop invariants *)

Lemma by_score_desc_total : total by_score_desc.
Proof. intros a b. apply Qle_bool_total. Qed.

Lemma by_score_desc_transitive : transitive by_score_desc.
Proof. intros a b c H1 H2. exact (Qle_bool_trans _ _ _ H2 H1). Qed.

Lemma by_start_time_total : total by_start_time.
Proof. intros a b. apply Qle_bool_total. Qed.

Lemma by_start_time_transitive : transitive by_start_time.
Proof. intros a b c. apply Qle_bool_trans. Qed.

Lemma gap_ok_sym min_gap a b : gap_ok min_gap a b -> gap_ok min_gap b a.
Proof. unfold gap_ok. now rewrite Qabs_Qminus. Qed.

Lemma overlaps_false min_gap h filtered :
  overlaps min_gap h filtered = false <->
  Forall (fun s => gap_ok min_gap s h) filtered.
Proof.
  unfold overlaps. induction filtered as [|s l IH]; simpl.
  - split; [constructor | reflexivity].
  - rewrite orb_false_iff, IH, Qltb_ge. split.
    + intros [H F]. constructor; [|exact F]. now apply gap_ok_sym.
    + intro F. inversion F as [|? ? H F']; subst. split; [|exact F'].
      now apply gap_ok_sym in H.
Qed.

Lemma select_loop_gap min_gap top_n rest : forall filtered,
  ForallOrdPairs (gap_ok min_gap) filtered ->
  ForallOrdPairs (gap_ok min_gap) (select_loop min_gap top_n filtered rest).
Proof.
  induction rest as [|h rest IH]; simpl; intros filtered H; [exact H|].
  assert (H' : ForallOrdPairs (gap_ok min_gap)
                 (if overlaps min_gap h filtered then filtered
                  else filtered ++ [h])).
  { destruct (overlaps min_gap h filtered) eqn:E; [exact H|].
    apply ForallOrdPairs_snoc; [exact H | now apply overlaps_false]. }
  destruct (_ <=? _)%Z; [exact H' | now apply IH].
Qed.

Lemma select_loop_length min_gap top_n rest : forall filtered,
  (Z.of_nat (length filtered) < top_n)%Z \/ filtered = [] ->
  (Z.of_nat (length (select_loop min_gap top_n filtered rest))
   <= Z.max top_n 1)%Z.
Proof.
  induction rest as [|h rest IH]; simpl; intros filtered H.
  - destruct H as [H| ->]; simpl; lia.
  - set (f' := if overlaps min_gap h filtered then filtered
               else filtered ++ [h]).
    assert (L : (length f' <= length filtered + 1)%nat).
    { unfold f'. destruct (overlaps _ _ _); [lia|].
      rewrite length_app. simpl. lia. }
    destruct (top_n <=? Z.of_nat (length f'))%Z eqn:E.
    + destruct H as [H| ->]; simpl in *; lia.
    + apply IH. left. apply Z.leb_gt in E. exact E.
Qed.

Lemma select_loop_sorted (R : Highlight -> Highlight -> Prop)
      min_gap top_n rest : forall filtered,
  StronglySorted R (filtered ++ rest) ->
  StronglySorted R (select_loop min_gap top_n filtered rest).
Proof.
  induction rest as [|h rest IH]; simpl; intros filtered H.
  - now rewrite app_nil_r in H.
  - assert (H' : StronglySorted R
                   ((if overlaps min_gap h filtered then filtered
                     else filtered ++ [h]) ++ rest)).
    { destruct (overlaps _ _ _).
      - eapply StronglySorted_drop_mid. exact H.
      - now rewrite <- app_assoc. }
    destruct (_ <=? _)%Z; [|now apply IH].
    eapply StronglySorted_app_l. exact H'.
Qed.

(** When no two of the candidates are closer than [min_gap] and the limit
    is not reached before the last one, the loop accepts them all. *)
Lemma select_loop_all min_gap top_n rest : forall filtered,
  ForallOrdPairs (gap_ok min_gap) (filtered ++ rest) ->
  (Z.of_nat (length (filtered ++ rest)) <= top_n)%Z
  \/ (length (filtered ++ rest) <= 1)%nat ->
  select_loop min_gap top_n filtered rest = filtered ++ rest.
Proof.
  induction rest as [|h rest IH]; simpl; intros filtered H L.
  - now rewrite app_nil_r.
  - assert (E : overlaps min_gap h filtered = false).
    { apply overlaps_false. eapply ForallOrdPairs_app_cross. exact H. }
    rewrite E.
    replace (filtered ++ h :: rest) with ((filtered ++ [h]) ++ rest) in *
      by now rewrite <- app_assoc.
    destruct (top_n <=? Z.of_nat (length (filtered ++ [h])))%Z eqn:B.
    + apply Z.leb_le in B. rewrite !length_app in *. simpl in *.
      destruct rest as [|r rest]; [now rewrite app_nil_r|].
      simpl in L. lia.
    + now apply IH.
Qed.

Lemma _filter_highlights_eq min_gap highlights top_n max_clips :
  _filter_highlights min_gap highlights top_n max_clips
  = sorted_by by_start_time
      (select_loop min_gap (effective_top_n top_n max_clips) []
         (sorted_by by_score_desc highlights)).
Proof. destruct highlights; reflexivity. Qed.

Lemma _filter_highlights_gap min_gap highlights top_n max_clips :
  ForallOrdPairs (gap_ok min_gap)
    (_filter_highlights min_gap highlights top_n max_clips).
Proof.
  rewrite _filter_highlights_eq.
  eapply ForallOrdPairs_perm;
    [apply gap_ok_sym | apply sorted_by_perm |].
  apply select_loop_gap. constructor.
Qed.

Lemma _filter_highlights_sorted min_gap highlights top_n max_clips :
  StronglySorted starts_before
    (_filter_highlights min_gap highlights top_n max_clips).
Proof.
  rewrite _filter_highlights_eq.
  eapply StronglySorted_impl;
    [|apply sorted_by_sorted;
      [exact by_start_time_total | exact by_start_time_transitive]].
  intros a b H. now apply Qle_bool_iff in H.
Qed.

Lemma _filter_highlights_length min_gap highlights top_n max_clips :
  (Z.of_nat (length (_filter_highlights min_gap highlights top_n max_clips))
   <= Z.max (effective_top_n top_n max_clips) 1)%Z.
Proof.
  rewrite _filter_highlights_eq, sorted_by_length.
  apply select_loop_length. now right.
Qed.

Lemma _filter_highlights_lex_sorted min_gap highlights top_n max_clips :
  StronglySorted (holds (lex by_start_time by_score_desc))
    (_filter_highlights min_gap highlights top_n max_clips).
Proof.
  rewrite _filter_highlights_eq.
  set (G := select_loop _ _ _ _).
  assert (S : StronglySorted (holds by_score_desc) G).
  { apply select_loop_sorted. simpl.
    apply sorted_by_sorted;
      [exact by_score_desc_total | exact by_score_desc_transitive]. }
  rewrite <- (sorted_by_id by_score_desc G S).
  rewrite sorted_by_radix by
      first [exact by_score_desc_total | exact by_score_desc_transitive
            | exact by_start_time_total | exact by_start_time_transitive].
  apply sorted_by_sorted.
  - exact (lex_total _ _ by_score_desc_total).
  - exact (lex_transitive _ _ by_score_desc_transitive by_start_time_total
             by_start_time_transitive).
Qed.

(** *** Selection: worked inputs *)

Definition candidate (t s : Q) : Highlight :=
  mkHighlight t (t + 45) s audio [] "".

(** Three candidates at 0 s, 3 s and 20 s with scores 9, 7 and 5: the one
    at 3 s is within ten seconds of a better one and is dropped. *)
Example filter_highlights_three :
  _filter_highlights 10 [candidate 3 7; candidate 20 5; candidate 0 9]
                     10 (Some 25%Z)
  = [candidate 0 9; candidate 20 5].
Proof. vm_compute. reflexivity. Qed.

(** C2 (as stated, refuted): with a limit of zero clips the loop still
    accepts the best candidate before it tests the limit, so one highlight
    is returned where the bound [min(topN, ceiling)] is zero. *)
Lemma filter_highlights_zero_limit :
  let out := _filter_highlights 10 [candidate 0 9] config.TOP_N_HIGHLIGHTS
               (Some (clamp_max_clips 0)) in
  out = [candidate 0 9] /\
  ~ (Z.of_nat (length out)
     <= Z.min (effective_top_n config.TOP_N_HIGHLIGHTS
                 (Some (clamp_max_clips 0)))
              config.MAX_TOTAL_CLIPS)%Z.
Proof.
  split; [vm_compute; reflexivity|]. vm_compute. intro H. now apply H.
Qed.

(** C2 (amended): for every candidate list, every minimum gap and every
    limit that is at least one after clamping by the per-modality ceiling,
    the selector's output is sorted by start time ascending, has at most
    [min(topN, global ceiling)] elements, and any two of its elements at
    different positions start at least [min_gap] apart. *)
Theorem filter_highlights_selects
        (min_gap : Q) (highlights : list Highlight) (top_n max_clips : Z) :
  (1 <= effective_top_n top_n (Some (clamp_max_clips max_clips)))%Z ->
  let out := _filter_highlights min_gap highlights top_n
               (Some (clamp_max_clips max_clips)) in
  StronglySorted starts_before out /\
  (Z.of_nat (length out)
   <= Z.min (effective_top_n top_n (Some (clamp_max_clips max_clips)))
            config.MAX_TOTAL_CLIPS)%Z /\
  ForallOrdPairs (gap_ok min_gap) out.
Proof.
  intros Hn out. split; [apply _filter_highlights_sorted|].
  split; [|apply _filter_highlights_gap].
  pose proof (_filter_highlights_length min_gap highlights top_n
                (Some (clamp_max_clips max_clips))) as L.
  fold out in L. revert Hn L.
  unfold effective_top_n, clamp_max_clips, config.MAX_CLIPS_PER_TYPE,
    config.MAX_TOTAL_CLIPS. lia.
Qed.

Lemma filter_highlights_selects_witness :
  let hs := [candidate 3 7; candidate 20 5; candidate 0 9] in
  let out := _filter_highlights 10 hs 10 (Some (clamp_max_clips 25)) in
  (1 <= effective_top_n 10 (Some (clamp_max_clips 25)))%Z /\
  (StronglySorted starts_before out /\
   (Z.of_nat (length out)
    <= Z.min (effective_top_n 10 (Some (clamp_max_clips 25)))
             config.MAX_TOTAL_CLIPS)%Z /\
   ForallOrdPairs (gap_ok 10) out).
Proof.
  assert (H : (1 <= effective_top_n 10 (Some (clamp_max_clips 25)))%Z)
    by (vm_compute; discriminate).
  split; [exact H|].
  exact (filter_highlights_selects
           10 [candidate 3 7; candidate 20 5; candidate 0 9] 10 25 H).
Defined.

(** C8: selecting from the selector's own output, with the same minimum
    gap and limits, returns that output unchanged: the same highlights in
    the same order. *)
Theorem filter_highlights_idempotent
        (min_gap : Q) (highlights : list Highlight) (top_n : Z)
        (max_clips : option Z) :
  _filter_highlights min_gap
    (_filter_highlights min_gap highlights top_n max_clips) top_n max_clips
  = _filter_highlights min_gap highlights top_n max_clips.
Proof.
  set (out := _filter_highlights min_gap highlights top_n max_clips).
  rewrite (_filter_highlights_eq min_gap out).
  assert (P : Permutation out (sorted_by by_score_desc out))
    by apply sorted_by_perm.
  rewrite select_loop_all; simpl.
  - rewrite sorted_by_radix by
        first [exact by_score_desc_total | exact by_score_desc_transitive
              | exact by_start_time_total | exact by_start_time_transitive].
    apply sorted_by_id. apply _filter_highlights_lex_sorted.
  - eapply ForallOrdPairs_perm; [apply gap_ok_sym | exact P |].
    apply _filter_highlights_gap.
  - rewrite sorted_by_length.
    pose proof (_filter_highlights_length min_gap highlights top_n max_clips)
      as L. fold out in L. lia.
Qed.

(** C3: the combined score is [0.6*h + 0.4*m] when the model's prediction
    [m] is positive and the heuristic score [h] itself otherwise, on exact
    numbers and on binary64 numbers alike; on binary64, [h = 2.0] with
    [m = 0.0] gives exactly [2.0] and [h = 2.0] with [m = 1.0] gives
    exactly [1.6]. *)
Theorem combined_score_blend :
  (forall h m : Q,
      ((0 < m)%Q -> (combined_score h m == 0.6 * h + 0.4 * m)%Q) /\
      (~ (0 < m)%Q -> combined_score h m = h)) /\
  (forall h m : float,
      ((0 <? m)%float = true ->
       combined_score_b64 h m = (0.6 * h + 0.4 * m)%float) /\
      ((0 <? m)%float = false -> combined_score_b64 h m = h)) /\
  combined_score_b64 2 0 = 2%float /\
  combined_score_b64 2 1 = 1.6%float /\
  combined_score 2 0 = 2%Q /\
  (combined_score 2 1 == 1.6)%Q.
Proof.
  repeat split.
  - intro H. unfold combined_score.
    apply Qltb_lt in H. rewrite H. ring.
  - intro H. unfold combined_score.
    destruct (Qltb 0 m) eqn:E; [|reflexivity].
    apply Qltb_lt in E. contradiction.
  - intro H. unfold combined_score_b64. rewrite H.
    now rewrite (b64_mul_comm h), (b64_mul_comm m).
  - intro H. unfold combined_score_b64. now rewrite H.
Qed.

(** ** Chunk scheduling ([StreamProcessor.process_stream_chunks])

    A chunk is the dictionary the generator yields; its path is
    [chunk_<index>.mp4] and is left out.  Downloading is external:
    [download_ok k] tells whether the [k]-th download succeeded and left
    its file.  The [while] loop is run with fuel; [None] is "out of fuel". *)

Record ChunkInfo : Type := mkChunk {
  chunk_start_time : Q;
  chunk_end_time : Q;
  chunk_index : nat
}.

(** How a run of the generator ends: it has yielded its chunks, or the
    estimate in the log line before the loop has raised. *)
Inductive Generated : Type :=
| Chunks (chunks : list ChunkInfo)
| ZeroDivisionError.

Definition Qnat (k : nat) : Q := inject_Z (Z.of_nat k).

Lemma Qnat_S (k : nat) : (Qnat (S k) == Qnat k + 1)%Q.
Proof.
  unfold Qnat. rewrite Nat2Z.inj_succ. unfold Z.succ.
  now rewrite inject_Z_plus.
Qed.

Section Scheduler.
Variable chunk_duration : Q.
Variable overlap : Q.
Variable download_ok : nat -> bool.

Fixpoint chunks_loop (fuel : nat) (end_time_sec current_time : Q)
         (chunk_index : nat) : option (list ChunkInfo) :=
  match fuel with
  | O => None
  | S fuel' =>
      if Qltb current_time end_time_sec then
        let chunk_dur := Qmin chunk_duration (end_time_sec - current_time) in
        match chunks_loop fuel' end_time_sec
                (current_time + (chunk_duration - overlap)) (S chunk_index)
        with
        | None => None
        | Some later =>
            Some (if download_ok chunk_index
                  then mkChunk current_time
                         (Qmin (current_time + chunk_dur) end_time_sec)
                         chunk_index :: later
                  else later)
        end
      else Some []
  end.

(** The part before the loop: minutes to seconds and clamping, ... *)
Definition clamped_start (start_minute : option Q) : Q :=
  let start_time_sec :=
    match start_minute with Some m => m * 60 | None => 0 end in
  if Qltb start_time_sec 0 then 0 else start_time_sec.

Definition clamped_end (duration : Q) (end_minute : option Q) : Q :=
  let end_time_sec :=
    match end_minute with Some m => m * 60 | None => duration end in
  if Qltb duration end_time_sec then duration else end_time_sec.

(** ... then the validity test and the cap on the processed duration.
    [None] is the early [return] on an invalid range. *)
Definition time_range (duration : Q) (start_minute end_minute : option Q)
  : option (Q * Q) :=
  let start_time_sec := clamped_start start_minute in
  let end_time_sec := clamped_end duration end_minute in
  if Qle_bool end_time_sec start_time_sec then None
  else
    let effective_duration := end_time_sec - start_time_sec in
    let end_time_sec :=
      if Qltb config.MAX_STREAM_DURATION effective_duration
      then start_time_sec + config.MAX_STREAM_DURATION
      else end_time_sec in
    Some (start_time_sec, end_time_sec).

(** [info] is the duration that [get_stream_info] found, if any.  The log
    line before the loop computes
    [int(effective_duration/self.chunk_duration)], which raises when the
    chunk duration is zero. *)
Definition process_stream_chunks (fuel : nat) (info : option Q)
           (start_minute end_minute : option Q) : option Generated :=
  match info with
  | None => Some (Chunks [])
  | Some duration =>
      match time_range duration start_minute end_minute with
      | None => Some (Chunks [])
      | Some (start_time_sec, end_time_sec) =>
          if Qeq_bool chunk_duration 0 then Some ZeroDivisionError
          else option_map Chunks
                          (chunks_loop fuel end_time_sec start_time_sec 0)
      end
  end.


(** *** What the loop yields *)

Definition step : Q := chunk_duration - overlap.

(** The chunks yielded from [current_time] on: each one was downloaded,
    starts a whole number of steps after [current_time] and before the end
    bound, and lasts [chunk_duration] unless that overruns the end bound,
    where it stops; every downloaded window before the end bound is among
    them; and they come in order. *)
Definition yields (end_time_sec current_time : Q) (first : nat)
           (ws : list ChunkInfo) : Prop :=
  Forall (fun c =>
            (first <= chunk_index c)%nat /\
            download_ok (chunk_index c) = true /\
            (chunk_start_time c
             == current_time + Qnat (chunk_index c - first) * step)%Q /\
            (chunk_start_time c < end_time_sec)%Q /\
            (chunk_end_time c - chunk_start_time c
             == Qmin chunk_duration (end_time_sec - chunk_start_time c))%Q)
         ws /\
  (forall j, (current_time + Qnat j * step < end_time_sec)%Q ->
             download_ok (first + j) = true ->
             exists c, In c ws /\ chunk_index c = (first + j)%nat) /\
  StronglySorted (fun a b => (chunk_index a < chunk_index b)%nat) ws.

Lemma chunks_loop_fuel (fuel : nat) : forall fuel' e cur idx ws,
  chunks_loop fuel e cur idx = Some ws -> (fuel <= fuel')%nat ->
  chunks_loop fuel' e cur idx = Some ws.
Proof.
  induction fuel as [|fuel IH]; intros fuel' e cur idx ws H L;
    [discriminate|].
  destruct fuel' as [|fuel']; [lia|]. simpl in *.
  destruct (Qltb cur e); [|exact H].
  destruct (chunks_loop fuel e _ _) as [later|] eqn:E; [|discriminate].
  rewrite (IH fuel' _ _ _ later E) by lia. exact H.
Qed.

Lemma chunks_loop_yields (Hstep : (0 < step)%Q) (m : nat) :
  forall e cur idx,
    (e - cur <= Qnat m * step)%Q ->
    exists ws, chunks_loop (S m) e cur idx = Some ws /\ yields e cur idx ws.
Proof.
  induction m as [|m IH]; intros e cur idx Hm.
  - exists []. change (Qnat 0) with 0%Q in Hm.
    assert (G : Qltb cur e = false) by (apply Qltb_ge; lra).
    simpl.
    rewrite G. split; [reflexivity|]. repeat split; try constructor.
    intros j Hj _. exfalso.
    assert (0 <= Qnat j * step)%Q.
    { apply Qmult_le_0_compat; [|lra]. unfold Qnat.
      change 0%Q with (inject_Z 0). rewrite <- Zle_Qle. lia. }
    lra.
  - rewrite Qnat_S in Hm.
    destruct (IH e (cur + step)%Q (S idx)) as (later & El & Fl & Cl & Sl);
      [lra|].
    change (chunks_loop (S (S m)) e cur idx) with
      (if Qltb cur e then
         match chunks_loop (S m) e (cur + step) (S idx) with
         | None => None
         | Some later =>
             Some (if download_ok idx
                   then mkChunk cur
                          (Qmin (cur + Qmin chunk_duration (e - cur)) e) idx
                        :: later
                   else later)
         end
       else Some []).
    destruct (Qltb cur e) eqn:G.
    + apply Qltb_lt in G. rewrite El. eexists. split; [reflexivity|].
      assert (Fl' : Forall (fun c =>
                (idx <= chunk_index c)%nat /\
                download_ok (chunk_index c) = true /\
                (chunk_start_time c
                 == cur + Qnat (chunk_index c - idx) * step)%Q /\
                (chunk_start_time c < e)%Q /\
                (chunk_end_time c - chunk_start_time c
                 == Qmin chunk_duration (e - chunk_start_time c))%Q) later).
      { eapply Forall_impl; [|exact Fl].
        intros c (H1 & H2 & H3 & H4 & H5).
        repeat split; [lia | exact H2 | | exact H4 | exact H5].
        replace (chunk_index c - idx)%nat
          with (S (chunk_index c - S idx)) by lia.
        rewrite Qnat_S. lra. }
      assert (Cl' : forall j, (cur + Qnat j * step < e)%Q ->
                  download_ok (idx + j) = true -> (0 < j)%nat ->
                  exists c, In c later /\ chunk_index c = (idx + j)%nat).
      { intros j Hj Dj Pj. destruct j as [|j]; [lia|].
        rewrite Qnat_S in Hj.
        destruct (Cl j) as (c & Ic & Ec).
        - lra.
        - now replace (S idx + j)%nat with (idx + S j)%nat by lia.
        - exists c. split; [exact Ic | lia]. }
      destruct (download_ok idx) eqn:D.
      * repeat split.
        -- constructor; [|exact Fl']. simpl.
           repeat split; [lia | exact D | | exact G |].
           ++ rewrite Nat.sub_diag. change (Qnat 0) with 0%Q. lra.
           ++ destruct (Q.min_spec chunk_duration (e - cur)) as [[? ?]|[? ?]];
                destruct (Q.min_spec
                            (cur + Qmin chunk_duration (e - cur)) e)
                as [[? ?]|[? ?]]; lra.
        -- intros j Hj Dj. destruct j as [|j].
           ++ eexists. split; [now left|]. simpl. lia.
           ++ destruct (Cl' (S j) Hj Dj) as (c & Ic & Ec); [lia|].
              exists c. split; [now right | exact Ec].
        -- constructor; [exact Sl|].
           eapply Forall_impl; [|exact Fl]. simpl. intros c Hc. lia.
      * repeat split; [exact Fl' | | exact Sl].
        intros j Hj Dj. destruct j as [|j].
        -- rewrite Nat.add_0_r in Dj. congruence.
        -- apply (Cl' (S j) Hj Dj). lia.
    + apply Qltb_ge in G. exists []. split; [reflexivity|].
      repeat split; try constructor.
      intros j Hj _. exfalso.
      assert (0 <= Qnat j * step)%Q.
      { apply Qmult_le_0_compat; [|lra]. unfold Qnat.
        change 0%Q with (inject_Z 0). rewrite <- Zle_Qle. lia. }
      lra.
Qed.

(** Enough fuel for the range from [s] to [e]. *)
Definition steps_bound (s e : Q) : nat := Z.to_nat (Qceiling ((e - s) / step)).

Lemma steps_bound_enough (Hstep : (0 < step)%Q) (s e : Q) :
  (e - s <= Qnat (steps_bound s e) * step)%Q.
Proof.
  unfold steps_bound, Qnat.
  set (x := ((e - s) / step)%Q).
  assert (Hx : (x <= inject_Z (Z.of_nat (Z.to_nat (Qceiling x))))%Q).
  { eapply Qle_trans; [apply Qle_ceiling|]. rewrite <- Zle_Qle. lia. }
  assert (E : (e - s == x * step)%Q).
  { unfold x. field. lra. }
  rewrite E. apply Qmult_le_compat_r; [exact Hx | lra].
Qed.

End Scheduler.

(** With the defaults (45 s chunks, 3 s overlap) an 86 s stream gives three
    windows. *)
Example chunks_of_86_seconds :
  process_stream_chunks 45 3 (fun _ => true) 10 (Some 86) None None
  = Some (Chunks [mkChunk 0 45 0; mkChunk 42 86 1; mkChunk 84 86 2]).
Proof. vm_compute. reflexivity. Qed.

(** With a chunk duration of zero the estimate in the log line raises
    before the first window, whatever the fuel. *)
Example chunks_of_zero_duration (fuel : nat) :
  process_stream_chunks 0 (-1) (fun _ => true) fuel (Some 3) None None
  = Some ZeroDivisionError.
Proof. reflexivity. Qed.


Lemma clamped_start_nonneg (start_minute : option Q) :
  (0 <= clamped_start start_minute)%Q.
Proof.
  unfold clamped_start.
  destruct (Qltb _ 0) eqn:E; [apply Qle_refl | now apply Qltb_ge in E].
Qed.

Lemma clamped_end_le (duration : Q) (end_minute : option Q) :
  (clamped_end duration end_minute <= duration)%Q.
Proof.
  unfold clamped_end.
  destruct (Qltb duration _) eqn:E; [apply Qle_refl | now apply Qltb_ge in E].
Qed.

(** With an overlap shorter than the chunk the loop ends: past some
    amount of fuel the generator has yielded all its chunks. *)
Lemma process_stream_chunks_terminates
      (L O : Q) (download_ok : nat -> bool)
      (info : option Q) (start_minute end_minute : option Q) :
  (O < L)%Q ->
  exists n ws,
    forall fuel, (n < fuel)%nat ->
      process_stream_chunks L O download_ok fuel info start_minute end_minute
      = Some ws.
Proof.
  intro HO. unfold process_stream_chunks.
  destruct info as [duration|]; [|now exists 0%nat, (Chunks [])].
  destruct (time_range duration start_minute end_minute) as [[s e]|];
    [|now exists 0%nat, (Chunks [])].
  destruct (Qeq_bool L 0); [now exists 0%nat, ZeroDivisionError|].
  assert (Hstep : (0 < step L O)%Q) by (unfold step; lra).
  destruct (chunks_loop_yields L O download_ok Hstep (steps_bound L O s e)
              e s 0%nat (steps_bound_enough L O Hstep s e))
    as (ws & Hws & _).
  exists (steps_bound L O s e), (Chunks ws). intros fuel Hf.
  rewrite (chunks_loop_fuel L O download_ok _ fuel _ _ _ _ Hws) by lia.
  reflexivity.
Qed.



(** ** Exceptions and in-place mutation

    A method that mutates [self] and may raise is a function from the
    state to an outcome and the state it leaves behind: [None] is a raised
    exception, and the mutations done before the raise stay done. *)

Section Run.
Context {S : Type}.

Definition Run (A : Type) : Type := S -> option A * S.

Definition ret {A} (a : A) : Run A := fun s => (Some a, s).

Definition bind {A B} (c : Run A) (k : A -> Run B) : Run B :=
  fun s => match c s with
           | (Some a, s') => k a s'
           | (None, s') => (None, s')
           end.

Definition get : Run S := fun s => (Some s, s).

Definition modify (f : S -> S) : Run unit := fun s => (Some tt, f s).

(** The result of a library call that raises when it is [None]. *)
Definition lift {A} (o : option A) : Run A := fun s => (o, s).

(** [try: c except Exception: handler] *)
Definition try_except {A} (c : Run A) (handler : A) : S -> A * S :=
  fun s => match c s with
           | (Some a, s') => (a, s')
           | (None, s') => (handler, s')
           end.
End Run.

Notation "x <- c ;; k" := (bind c (fun x => k))
  (at level 61, c at next level, right associativity).
Notation "c ;;; k" := (bind c (fun _ => k))
  (at level 61, right associativity).

(** ** The learned model ([MLHighlightModel]) *)

(** [np.array(rows).shape[1]]: the common length of the rows; it raises on
    an empty or ragged list. *)
Definition np_shape1 (rows : list (list Q)) : option nat :=
  match rows with
  | [] => None
  | r :: rest =>
      if forallb (fun r' => Nat.eqb (length r') (length r)) rest
      then Some (length r) else None
  end.

(** [_dict_to_vector]: the values, in the dictionary's order. *)
Definition _dict_to_vector (features : Features) : list Q :=
  map snd features.

(** [sorted(features.items())]: the items ordered by key.  The cache is
    keyed by the hash of this list's text; the key is taken to be the list
    itself, so two keys are equal when they hold the same items. *)
Definition CacheKey : Type := list (string * Q).

Definition cache_key (features : Features) : CacheKey :=
  sorted_by (fun a b => String.leb (fst a) (fst b)) features.

Fixpoint key_eqb (k1 k2 : CacheKey) : bool :=
  match k1, k2 with
  | [], [] => true
  | (n1, v1) :: k1', (n2, v2) :: k2' =>
      String.eqb n1 n2 && Qeq_bool v1 v2 && key_eqb k1' k2'
  | _, _ => false
  end.

Definition Cache : Type := list (CacheKey * Q).

Fixpoint cache_lookup (k : CacheKey) (c : Cache) : option Q :=
  match c with
  | [] => None
  | (k', v) :: c' => if key_eqb k k' then Some v else cache_lookup k c'
  end.

Record TrainingData : Type := mkTraining {
  td_features : list (list Q);
  td_scores : list Q
}.

Definition no_samples : TrainingData := mkTraining [] [].

(** scikit-learn's objects and calls, as far as the model uses them. A
    result of [None] is a raised exception. *)
Class Sklearn : Type := {
  Scaler : Type;
  Regressor : Type;
  StandardScaler : Scaler;
  GradientBoostingRegressor : Regressor;
  (** The regressor of model_trainer.py: [max_depth=5, random_state=42]. *)
  GradientBoostingRegressor_d5 : Regressor;
  scaler_fit : Scaler -> list (list Q) -> option Scaler;
  scaler_transform : Scaler -> list (list Q) -> option (list (list Q));
  regressor_fit : Regressor -> list (list Q) -> list Q -> option Regressor;
  regressor_predict : Regressor -> list (list Q) -> option (list Q)
}.

Section Learning.
Context {sk : Sklearn}.

(** The attributes of one modality: [audio_model], [audio_scaler],
    [audio_scaler_fitted], [training_data['audio']] and
    [expected_audio_features], and the same for video. *)
Record ModalityModel : Type := mkModality {
  model : Regressor;
  scaler : Scaler;
  scaler_fitted : bool;
  training_data : TrainingData;
  expected_features : option nat
}.

Record MLHighlightModel : Type := mkML {
  audio_slot : ModalityModel;
  video_slot : ModalityModel;
  cache : Cache
}.

(** What the model file holds for one modality. *)
Record SavedModality : Type := mkSaved {
  saved_model : Regressor;
  saved_scaler : Scaler;
  saved_training : TrainingData;
  saved_feature_count : option nat
}.

Record ModelData : Type := mkModelData {
  saved_audio : SavedModality;
  saved_video : SavedModality
}.

(** The model file: [None] when it does not exist. *)
Definition ModelFile : Type := option ModelData.

Definition fresh_modality : ModalityModel :=
  mkModality GradientBoostingRegressor StandardScaler false no_samples None.

Definition loaded_modality (d : SavedModality) : ModalityModel :=
  mkModality (saved_model d) (saved_scaler d)
             (10 <=? length (td_features (saved_training d)))%nat
             (saved_training d) (saved_feature_count d).

(** [__init__] with [load_model]. *)
Definition load_model (file : ModelFile) : MLHighlightModel :=
  match file with
  | Some data =>
      mkML (loaded_modality (saved_audio data))
           (loaded_modality (saved_video data)) []
  | None => mkML fresh_modality fresh_modality []
  end.

Definition saved_of (s : ModalityModel) : SavedModality :=
  mkSaved (model s) (scaler s) (training_data s) (expected_features s).

Definition save_model (m : MLHighlightModel) : ModelFile :=
  Some (mkModelData (saved_of (audio_slot m)) (saved_of (video_slot m))).

Definition slot (ty : Modality) (m : MLHighlightModel) : ModalityModel :=
  match ty with audio => audio_slot m | video => video_slot m end.

Definition set_slot (ty : Modality) (s : ModalityModel)
           (m : MLHighlightModel) : MLHighlightModel :=
  match ty with
  | audio => mkML s (video_slot m) (cache m)
  | video => mkML (audio_slot m) s (cache m)
  end.

Definition set_cache (c : Cache) (m : MLHighlightModel) : MLHighlightModel :=
  mkML (audio_slot m) (video_slot m) c.

(** [_reset_audio_model] and [_reset_video_model]. *)
Definition _reset_model (ty : Modality) (m : MLHighlightModel)
  : MLHighlightModel :=
  set_slot ty fresh_modality m.

Definition sample_starved (s : ModalityModel) : bool :=
  negb (scaler_fitted s) || (length (td_features (training_data s)) <? 10)%nat.

Definition mismatch (s : ModalityModel) (feature_vector : list Q) : bool :=
  match expected_features s with
  | Some n => negb (Nat.eqb (length feature_vector) n)
  | None => false
  end.

(** [scaler.transform([feature_vector])] then [model.predict(scaled)[0]]. *)
Definition ensemble_score (s : ModalityModel) (feature_vector : list Q)
  : option Q :=
  match scaler_transform (scaler s) [feature_vector] with
  | Some scaled =>
      match regressor_predict (model s) scaled with
      | Some (y :: _) => Some y
      | _ => None
      end
  | None => None
  end.

(** [predict_audio_score]; the statements after the first [return] of the
    [try] block are never reached. *)
Definition predict_audio_score_body (features : Features)
  : Run (S := MLHighlightModel) Q :=
  m <- get ;;
  let key := cache_key features in
  match cache_lookup key (cache m) with
  | Some cached => ret cached
  | None =>
      let feature_vector := _dict_to_vector features in
      score <-
        (if sample_starved (audio_slot m) then ret 0%Q
         else if mismatch (audio_slot m) feature_vector then
                modify (_reset_model audio) ;;; ret 0%Q
              else lift (ensemble_score (audio_slot m) feature_vector)) ;;
      let value := Qmax 0 score in
      m' <- get ;;
      modify (set_cache ((key, value) :: cache m')) ;;;
      ret value
  end.

Definition predict_audio_score (features : Features)
  : MLHighlightModel -> Q * MLHighlightModel :=
  try_except (predict_audio_score_body features) 0%Q.

(** [predict_video_score] reads the cache and never writes it. *)
Definition predict_video_score_body (features : Features)
  : Run (S := MLHighlightModel) Q :=
  m <- get ;;
  let key := cache_key features in
  match cache_lookup key (cache m) with
  | Some cached => ret cached
  | None =>
      let feature_vector := _dict_to_vector features in
      if sample_starved (video_slot m) then ret 0%Q
      else if mismatch (video_slot m) feature_vector then
             modify (_reset_model video) ;;; ret 0%Q
           else
             score <- lift (ensemble_score (video_slot m) feature_vector) ;;
             ret (Qmax 0 score)
  end.

Definition predict_video_score (features : Features)
  : MLHighlightModel -> Q * MLHighlightModel :=
  try_except (predict_video_score_body features) 0%Q.

Definition predict_score (ty : Modality) :=
  match ty with
  | audio => predict_audio_score
  | video => predict_video_score
  end.

(** [add_training_sample] *)
Definition add_training_sample (features : Features) (score : Q)
           (feature_type : Modality) (m : MLHighlightModel)
  : MLHighlightModel :=
  let s := slot feature_type m in
  let td := training_data s in
  set_slot feature_type
    (mkModality (model s) (scaler s) (scaler_fitted s)
       (mkTraining (td_features td ++ [_dict_to_vector features])
                   (td_scores td ++ [score]))
       (expected_features s))
    m.

(** One modality's part of [retrain]; each step mutates the slot before
    the next one may raise.  A fit that raises is taken to leave its
    object as it was. *)
Definition retrain_modality (ty : Modality)
  : Run (S := MLHighlightModel) unit :=
  m <- get ;;
  let s := slot ty m in
  if (10 <=? length (td_features (training_data s)))%nat then
    let X := td_features (training_data s) in
    let y := td_scores (training_data s) in
    n <- lift (np_shape1 X) ;;
    modify (set_slot ty (mkModality (model s) (scaler s) (scaler_fitted s)
                           (training_data s) (Some n))) ;;;
    sc <- lift (scaler_fit (scaler s) X) ;;
    modify (set_slot ty (mkModality (model s) sc (scaler_fitted s)
                           (training_data s) (Some n))) ;;;
    X_scaled <- lift (scaler_transform sc X) ;;
    r <- lift (regressor_fit (model s) X_scaled y) ;;
    modify (set_slot ty (mkModality r sc true (training_data s) (Some n)))
  else ret tt.

(** [retrain]: the state is the model and the model file. *)
Definition on_model {A} (c : Run (S := MLHighlightModel) A)
  : Run (S := MLHighlightModel * ModelFile) A :=
  fun st => let '(r, m') := c (fst st) in (r, (m', snd st)).

Definition retrain_body : Run (S := MLHighlightModel * ModelFile) unit :=
  on_model (retrain_modality audio) ;;;
  on_model (retrain_modality video) ;;;
  modify (fun st => (fst st, save_model (fst st))).

Definition retrain (m : MLHighlightModel) (file : ModelFile)
  : MLHighlightModel * ModelFile :=
  snd (try_except retrain_body tt (m, file)).

(** *** States of a modality *)

Definition Trained (s : ModalityModel) (n : nat) : Prop :=
  scaler_fitted s = true /\
  (10 <= length (td_features (training_data s)))%nat /\
  expected_features s = Some n.

Definition Untrained (s : ModalityModel) : Prop :=
  scaler_fitted s = false.

End Learning.

(** *** Prediction: what each path returns *)

Section Prediction.
Context {sk : Sklearn}.

Lemma predict_audio_cached features m cached :
  cache_lookup (cache_key features) (cache m) = Some cached ->
  predict_audio_score features m = (cached, m).
Proof.
  intro H. unfold predict_audio_score, try_except, predict_audio_score_body,
             bind, get. now rewrite H.
Qed.

Lemma predict_video_cached features m cached :
  cache_lookup (cache_key features) (cache m) = Some cached ->
  predict_video_score features m = (cached, m).
Proof.
  intro H. unfold predict_video_score, try_except, predict_video_score_body,
             bind, get. now rewrite H.
Qed.

(** On a cache miss a sample-starved model answers [0.0] and is left as
    it was, but for the new cache entry of the audio path. *)
Lemma predict_audio_starved features m :
  cache_lookup (cache_key features) (cache m) = None ->
  sample_starved (audio_slot m) = true ->
  predict_audio_score features m
  = (0%Q, set_cache ((cache_key features, 0%Q) :: cache m) m).
Proof.
  intros H1 H2. unfold predict_audio_score, try_except,
                  predict_audio_score_body, bind, get.
  now rewrite H1, H2.
Qed.

Lemma predict_video_starved features m :
  cache_lookup (cache_key features) (cache m) = None ->
  sample_starved (video_slot m) = true ->
  predict_video_score features m = (0%Q, m).
Proof.
  intros H1 H2. unfold predict_video_score, try_except,
                  predict_video_score_body, bind, get.
  now rewrite H1, H2.
Qed.

(** On a cache miss a trained model resets on a vector of the wrong
    length and answers [0.0]. *)
Lemma predict_audio_mismatch features m :
  cache_lookup (cache_key features) (cache m) = None ->
  sample_starved (audio_slot m) = false ->
  mismatch (audio_slot m) (_dict_to_vector features) = true ->
  predict_audio_score features m
  = (0%Q, set_cache ((cache_key features, 0%Q) :: cache m)
            (_reset_model audio m)).
Proof.
  intros H1 H2 H3. unfold predict_audio_score, try_except,
                     predict_audio_score_body, bind, get.
  now rewrite H1, H2, H3.
Qed.

Lemma predict_video_mismatch features m :
  cache_lookup (cache_key features) (cache m) = None ->
  sample_starved (video_slot m) = false ->
  mismatch (video_slot m) (_dict_to_vector features) = true ->
  predict_video_score features m = (0%Q, _reset_model video m).
Proof.
  intros H1 H2 H3. unfold predict_video_score, try_except,
                     predict_video_score_body, bind, get.
  now rewrite H1, H2, H3.
Qed.

(** Every cached value is a clamped score. *)
Definition cache_nonneg (c : Cache) : Prop :=
  Forall (fun entry => (0 <= snd entry)%Q) c.

Lemma cache_lookup_nonneg k c v :
  cache_nonneg c -> cache_lookup k c = Some v -> (0 <= v)%Q.
Proof.
  induction 1 as [|[k' v'] c H _ IH]; simpl; [discriminate|].
  destruct (key_eqb k k'); [|exact IH].
  intro E. injection E as <-. exact H.
Qed.

Lemma predict_audio_nonneg features m :
  cache_nonneg (cache m) ->
  (0 <= fst (predict_audio_score features m))%Q /\
  cache_nonneg (cache (snd (predict_audio_score features m))).
Proof.
  intro C. unfold predict_audio_score, try_except, predict_audio_score_body,
             bind, get, modify, ret, lift.
  destruct (cache_lookup _ _) as [v|] eqn:L; simpl.
  - split; [eapply cache_lookup_nonneg; eassumption | exact C].
  - destruct (sample_starved _); simpl.
    + split; [apply Q.le_max_l|]. constructor; [apply Q.le_max_l | exact C].
    + destruct (mismatch _ _); simpl.
      * split; [apply Q.le_max_l|].
        constructor; [apply Q.le_max_l | exact C].
      * destruct (ensemble_score _ _); simpl.
        -- split; [apply Q.le_max_l|].
           constructor; [apply Q.le_max_l | exact C].
        -- split; [apply Qle_refl | exact C].
Qed.

Lemma predict_video_nonneg features m :
  cache_nonneg (cache m) ->
  (0 <= fst (predict_video_score features m))%Q /\
  cache (snd (predict_video_score features m)) = cache m.
Proof.
  intro C. unfold predict_video_score, try_except, predict_video_score_body,
             bind, get, modify, ret, lift.
  destruct (cache_lookup _ _) as [v|] eqn:L; simpl.
  - split; [eapply cache_lookup_nonneg; eassumption | reflexivity].
  - destruct (sample_starved _); simpl.
    + split; [apply Qle_refl | reflexivity].
    + destruct (mismatch _ _); simpl.
      * split; [apply Qle_refl | reflexivity].
      * destruct (ensemble_score _ _); simpl.
        -- split; [apply Q.le_max_l | reflexivity].
        -- split; [apply Qle_refl | reflexivity].
Qed.

End Prediction.

(** *** A small scikit-learn to run the model on

    The scaler remembers the number of features and refuses a matrix with
    none, or of another width, as scikit-learn does; the regressor
    predicts the first target it was fitted on. *)

#[export] Instance toy_sklearn : Sklearn := {|
  Scaler := nat;
  Regressor := option Q;
  StandardScaler := 0%nat;
  GradientBoostingRegressor := None;
  GradientBoostingRegressor_d5 := None;
  scaler_fit := fun _ X =>
    match np_shape1 X with
    | Some (S n) => Some (S n)
    | _ => None
    end;
  scaler_transform := fun n X =>
    if forallb (fun r => Nat.eqb (length r) n) X then Some X else None;
  regressor_fit := fun _ _ y =>
    match y with
    | s :: _ => Some (Some s)
    | [] => None
    end;
  regressor_predict := fun r X =>
    match r with
    | Some s => Some (map (fun _ => s) X)
    | None => None
    end
|}.

Definition two_features : Features :=
  [("rms_mean", 0.5); ("tempo", 120)]%string%Q.

Definition three_features : Features :=
  [("rms_mean", 0.5); ("tempo", 120); ("zcr_mean", 0.3)]%string%Q.

(** Ten audio samples of two features each, then [retrain]. *)
Definition trained_on_two (m : MLHighlightModel) : MLHighlightModel :=
  fst (retrain (Nat.iter 10 (add_training_sample two_features 0.7 audio) m)
               None).

(** C1 (the code departs from the claim): a vector of three features is
    scored while the audio model is untrained, which caches [0.0] for it;
    the model is then trained on vectors of two features.  Scoring the
    three-feature vector again finds the cache entry before the length
    test is reached: [0.0] is returned and the model is not reset. It is
    still trained, with all its samples. *)
Theorem predict_mismatch_cached_keeps_model :
  let m0 := snd (predict_audio_score three_features (load_model None)) in
  let m1 := trained_on_two m0 in
  Trained (audio_slot m1) 2 /\
  length (_dict_to_vector three_features) = 3%nat /\
  predict_audio_score three_features m1 = (0%Q, m1).
Proof. vm_compute. repeat split. apply Nat.le_refl. Qed.

(** C4 (the code departs from the claim): a trained audio model scores a
    vector [0.7], which is cached; a vector of another length then resets
    the model.  Scoring the first vector again returns the cached [0.7],
    although the model is now untrained and holds no sample. *)
Theorem predict_stale_after_reset :
  let m1 := trained_on_two (load_model None) in
  let m2 := snd (predict_audio_score two_features m1) in
  let m3 := snd (predict_audio_score three_features m2) in
  Untrained (audio_slot m3) /\
  length (td_features (training_data (audio_slot m3))) = 0%nat /\
  fst (predict_audio_score two_features m3) = 0.7%Q /\
  ~ (0.7 == 0)%Q.
Proof. vm_compute. repeat split. discriminate. Qed.

(** *** Retraining: what a raised exception leaves behind *)

Section Retraining.
Context {sk : Sklearn}.

(** Retraining one modality touches neither the other one nor the cache. *)
Lemma retrain_modality_frame ty m :
  let m' := snd (retrain_modality ty m) in
  cache m' = cache m /\
  match ty with
  | audio => video_slot m' = video_slot m
  | video => audio_slot m' = audio_slot m
  end.
Proof.
  unfold retrain_modality, bind, get, modify, lift, ret.
  destruct (Nat.leb 10 _); simpl; [|now destruct ty].
  destruct (np_shape1 _); simpl; [|now destruct ty].
  destruct (scaler_fit _ _); simpl; [|now destruct ty].
  destruct (scaler_transform _ _); simpl; [|now destruct ty].
  destruct (regressor_fit _ _ _); simpl; now destruct ty.
Qed.

(** A retrain that raises does not mark the scaler as fitted. *)
Lemma retrain_modality_raises ty m m' :
  retrain_modality ty m = (None, m') ->
  scaler_fitted (slot ty m') = scaler_fitted (slot ty m) /\
  model (slot ty m') = model (slot ty m) /\
  training_data (slot ty m') = training_data (slot ty m).
Proof.
  unfold retrain_modality, bind, get, modify, lift, ret.
  destruct (Nat.leb 10 _); simpl; [|discriminate].
  destruct (np_shape1 _); simpl;
    [|intro H; injection H as <-; now destruct ty].
  destruct (scaler_fit _ _); simpl;
    [|intro H; injection H as <-; now destruct ty].
  destruct (scaler_transform _ _); simpl;
    [|intro H; injection H as <-; now destruct ty].
  destruct (regressor_fit _ _ _); simpl; [discriminate|].
  intro H; injection H as <-; now destruct ty.
Qed.

(** A retrain that raises had at least ten samples to fit. *)
Lemma retrain_modality_raises_samples ty m m' :
  retrain_modality ty m = (None, m') ->
  (10 <= length (td_features (training_data (slot ty m))))%nat.
Proof.
  unfold retrain_modality, bind, get, ret.
  destruct (Nat.leb 10 _) eqn:E; [|discriminate].
  intros _. now apply Nat.leb_le.
Qed.

Lemma retrain_audio_raises m file m1 :
  retrain_modality audio m = (None, m1) ->
  retrain m file = (m1, file).
Proof.
  intro H. unfold retrain, try_except, retrain_body, bind, on_model. simpl.
  now rewrite H.
Qed.

Lemma retrain_video_raises m file m1 m2 :
  retrain_modality audio m = (Some tt, m1) ->
  retrain_modality video m1 = (None, m2) ->
  retrain m file = (m2, file).
Proof.
  intros H1 H2. unfold retrain, try_except, retrain_body, bind, on_model.
  simpl. rewrite H1. simpl. now rewrite H2.
Qed.

Lemma retrain_succeeds m file m1 m2 :
  retrain_modality audio m = (Some tt, m1) ->
  retrain_modality video m1 = (Some tt, m2) ->
  retrain m file = (m2, save_model m2).
Proof.
  intros H1 H2. unfold retrain, try_except, retrain_body, bind, on_model.
  simpl. rewrite H1. simpl. now rewrite H2.
Qed.

End Retraining.

(** ** The clip store (clip_manager.py)

    The [clips] table is a list of rows; [id] is its primary key.  The
    [features] column holds a text: [register_clip] writes the JSON text
    of a feature dictionary, which [json.loads] reads back as that
    dictionary, and on a text that is not JSON [json.loads] raises
    [JSONDecodeError].  (The JSON text of a value that is not a
    dictionary is left out: nothing in the repository writes one.) *)

Module clip_manager.

Inductive FeaturesText : Type :=
| json_dumps (features : Features)
| not_json (text : string).

Definition json_loads (text : FeaturesText) : option Features :=
  match text with
  | json_dumps features => Some features
  | not_json _ => None
  end.

Record ClipRecord : Type := mkClip {
  id : Z;
  filename : string;
  filepath : string;
  start_time : Q;
  end_time : Q;
  duration : Q;
  score : Q;
  clip_type : Modality;
  features : FeaturesText;
  rating : option Z;
  created_at : string;
  rated_at : option string;
  source_url : option string
}.

Definition ClipDatabase : Type := list ClipRecord.

(** [SET rating = ?, rated_at = ?] on one row. *)
Definition set_rating (r : ClipRecord) (stars : Z) (now : string)
  : ClipRecord :=
  mkClip (id r) (filename r) (filepath r) (start_time r) (end_time r)
         (duration r) (score r) (clip_type r) (features r)
         (Some stars) (created_at r) (Some now) (source_url r).

(** [ClipDatabase.update_rating]; [now] is [datetime.now().isoformat()],
    and the row count is that of the [UPDATE ... WHERE id = ?]. *)
Definition update_rating (now : string) (clip_id stars : Z)
           (db : ClipDatabase) : bool * ClipDatabase :=
  if negb ((1 <=? stars)%Z && (stars <=? 5)%Z) then (false, db)
  else
    let db' :=
      map (fun r => if (id r =? clip_id)%Z then set_rating r stars now else r)
          db in
    let rowcount := length (filter (fun r => (id r =? clip_id)%Z) db) in
    ((0 <? rowcount)%nat, db').

Definition is_rated (r : ClipRecord) : bool :=
  match rating r with Some _ => true | None => false end.

(** [get_rated_clips]: the rated rows, newest first. *)
Definition get_rated_clips (db : ClipDatabase) : list ClipRecord :=
  sorted_by (fun a b => String.leb (created_at b) (created_at a))
            (filter is_rated db).

(** [get_training_data]: a rated clip whose features text does not load
    is skipped ([except json.JSONDecodeError: continue]). *)
Definition get_training_data (db : ClipDatabase) : list (Features * Z) :=
  flat_map (fun clip =>
              match json_loads (features clip), rating clip with
              | Some feature_dict, Some stars => [(feature_dict, stars)]
              | _, _ => []
              end)
           (get_rated_clips db).

(** [get_statistics], the two counts that the trainer reads. *)
Definition total_clips (db : ClipDatabase) : nat := length db.
Definition rated_clips (db : ClipDatabase) : nat :=
  length (filter is_rated db).

Lemma update_rating_absent now clip_id stars (db : ClipDatabase) :
  (forall r, In r db -> id r <> clip_id) ->
  map (fun r => if (id r =? clip_id)%Z then set_rating r stars now else r) db
  = db /\
  filter (fun r => (id r =? clip_id)%Z) db = [].
Proof.
  induction db as [|r db IH]; simpl; intro H; [now split|].
  assert (E : (id r =? clip_id)%Z = false).
  { apply Z.eqb_neq. apply H. now left. }
  rewrite E. destruct IH as [IH1 IH2].
  - intros r' Hr'. apply H. now right.
  - now rewrite IH1, IH2.
Qed.

Lemma update_rating_present clip_id (db : ClipDatabase) :
  (exists r, In r db /\ id r = clip_id) ->
  (0 < length (filter (fun r => (id r =? clip_id)%Z) db))%nat.
Proof.
  intros (r & Hr & E). induction db as [|r' db IH]; simpl; [contradiction|].
  destruct (id r' =? clip_id)%Z eqn:E'; simpl; [lia|].
  destruct Hr as [->|Hr]; [|now apply IH].
  apply Z.eqb_neq in E'. contradiction.
Qed.

Lemma update_rating_rows now clip_id stars (db : ClipDatabase) :
  Forall2 (fun r r' =>
             if (id r =? clip_id)%Z then r' = set_rating r stars now
             else r' = r)
          db
          (map (fun r => if (id r =? clip_id)%Z
                         then set_rating r stars now else r) db).
Proof.
  induction db as [|r db IH]; simpl; constructor; [|exact IH].
  now destruct (id r =? clip_id)%Z.
Qed.

(** C10: a rating outside 1..5 is refused and the table is left as it is;
    a rating in 1..5 for a clip id that is in the table returns [True],
    and the table keeps its rows, in place: the rows with that id get the
    rating and the time as [rating] and [rated_at] and keep their other
    columns, and every other row is unchanged; for a clip id that is not
    in the table it returns [False] and changes nothing. *)
Theorem update_rating_contract
        (now : string) (clip_id stars : Z) (db : ClipDatabase) :
  (~ (1 <= stars <= 5)%Z ->
   update_rating now clip_id stars db = (false, db)) /\
  ((1 <= stars <= 5)%Z ->
   (exists r, In r db /\ id r = clip_id) ->
   fst (update_rating now clip_id stars db) = true /\
   Forall2 (fun r r' =>
              if (id r =? clip_id)%Z
              then r' = mkClip (id r) (filename r) (filepath r)
                               (start_time r) (end_time r) (duration r)
                               (score r) (clip_type r) (features r)
                               (Some stars) (created_at r) (Some now)
                               (source_url r)
              else r' = r)
           db (snd (update_rating now clip_id stars db))) /\
  ((1 <= stars <= 5)%Z ->
   (forall r, In r db -> id r <> clip_id) ->
   update_rating now clip_id stars db = (false, db)).
Proof.
  unfold update_rating. repeat split.
  - intro H.
    destruct ((1 <=? stars)%Z && (stars <=? 5)%Z) eqn:E; [|reflexivity].
    apply andb_true_iff in E as [E1 E2].
    apply Z.leb_le in E1. apply Z.leb_le in E2. lia.
  - assert (E : (1 <=? stars)%Z && (stars <=? 5)%Z = true).
    { apply andb_true_iff. split; apply Z.leb_le; lia. }
    rewrite E. simpl. apply Nat.ltb_lt. now apply update_rating_present.
  - assert (E : (1 <=? stars)%Z && (stars <=? 5)%Z = true).
    { apply andb_true_iff. split; apply Z.leb_le; lia. }
    rewrite E. simpl. apply update_rating_rows.
  - intros H1 H2.
    assert (E : (1 <=? stars)%Z && (stars <=? 5)%Z = true).
    { apply andb_true_iff. split; apply Z.leb_le; lia. }
    rewrite E. simpl.
    destruct (update_rating_absent now clip_id stars db H2) as [-> ->].
    reflexivity.
Qed.

(** A table of [n] rated audio clips, with ids [1] to [n]. *)
Fixpoint rated_table (n : nat) : ClipDatabase :=
  match n with
  | O => []
  | S k =>
      rated_table k ++
      [mkClip (Z.of_nat n) "clip.mp4" "/clips/clip.mp4" 0 30 30 0.5 audio
              (json_dumps [("rms_mean"%string, 0.5)]) (Some 4%Z)
              "2025-01-01"
              (Some "2025-01-02"%string) None]
  end.

End clip_manager.

(** ** Training from ratings (model_trainer.py) *)

Definition feature_keys : list string :=
  ["rms_mean"; "rms_std"; "zcr_mean"; "zcr_std";
   "spectral_centroid_mean"; "spectral_centroid_std";
   "spectral_rolloff_mean"; "spectral_rolloff_std";
   "tempo"; "beat_strength";
   "motion_mean"; "motion_std"; "edge_density";
   "color_variance"; "brightness_mean"]%string.

Definition audio_keys : list string :=
  ["rms_mean"; "zcr_mean"; "spectral_centroid_mean"; "tempo"]%string.

(** [features.get(key)] *)
Fixpoint dict_get (key : string) (features : Features) : option Q :=
  match features with
  | [] => None
  | (k, v) :: rest => if String.eqb key k then Some v else dict_get key rest
  end.

Definition _extract_feature_vector (features : Features) : list Q :=
  map (fun key => match dict_get key features with
                  | Some v => v
                  | None => 0%Q
                  end)
      feature_keys.

Definition _is_audio_features (features : Features) : bool :=
  existsb (fun key => match dict_get key features with
                      | Some _ => true
                      | None => false
                      end)
          audio_keys.

(** [prepare_training_data]: the audio samples and the video samples. *)
Definition prepare_training_data (db : clip_manager.ClipDatabase)
  : TrainingData * TrainingData :=
  fold_left
    (fun acc sample =>
       let '(features, stars) := sample in
       let normalized_rating := ((inject_Z stars - 1) / 4)%Q in
       let feature_vector := _extract_feature_vector features in
       if _is_audio_features features then
         (mkTraining (td_features (fst acc) ++ [feature_vector])
                     (td_scores (fst acc) ++ [normalized_rating]),
          snd acc)
       else
         (fst acc,
          mkTraining (td_features (snd acc) ++ [feature_vector])
                     (td_scores (snd acc) ++ [normalized_rating])))
    (clip_manager.get_training_data db)
    (no_samples, no_samples).

Section RatingBasedTrainer.
Context {sk : Sklearn}.

(** [_load_or_create_model] *)
Definition _load_or_create_model (file : ModelFile) : ModelData :=
  match file with
  | Some data => data
  | None =>
      mkModelData
        (mkSaved GradientBoostingRegressor StandardScaler no_samples None)
        (mkSaved GradientBoostingRegressor StandardScaler no_samples None)
  end.

(** The body of one "Train ... model" branch of [train_from_ratings]:
    what it stores for the modality, or [None] when a call raises. *)
Definition fit_from_ratings (samples : TrainingData) : option SavedModality :=
  let X := td_features samples in
  let y := td_scores samples in
  match scaler_fit StandardScaler X with
  | None => None
  | Some audio_scaler =>
      match scaler_transform audio_scaler X with
      | None => None
      | Some X_scaled =>
          match regressor_fit GradientBoostingRegressor_d5 X_scaled y with
          | None => None
          | Some audio_model =>
              match np_shape1 X with
              | None => None
              | Some n => Some (mkSaved audio_model audio_scaler samples
                                        (Some n))
              end
          end
      end
  end.

(** One branch with its guard: [Some None] when there are too few
    samples, [None] when the fit raises. *)
Definition train_branch (min_samples : Z) (samples : TrainingData)
  : option (option SavedModality) :=
  if (min_samples <=? Z.of_nat (length (td_features samples)))%Z
  then option_map Some (fit_from_ratings samples)
  else Some None.

Definition or_keep (new : option SavedModality) (old : SavedModality)
  : SavedModality :=
  match new with Some s => s | None => old end.

Definition is_some {A} (o : option A) : bool :=
  match o with Some _ => true | None => false end.

Definition train_from_ratings_body (min_samples : Z)
           (db : clip_manager.ClipDatabase) (file : ModelFile)
  : option (bool * ModelFile) :=
  let training_data := prepare_training_data db in
  let model_data := _load_or_create_model file in
  match train_branch min_samples (fst training_data) with
  | None => None
  | Some a =>
      match train_branch min_samples (snd training_data) with
      | None => None
      | Some v =>
          let trained := is_some a || is_some v in
          if trained then
            Some (true,
                  Some (mkModelData (or_keep a (saved_audio model_data))
                                    (or_keep v (saved_video model_data))))
          else Some (false, file)
      end
  end.

(** [train_from_ratings]: [except Exception: return False]. *)
Definition train_from_ratings (min_samples : Z)
           (db : clip_manager.ClipDatabase) (file : ModelFile)
  : bool * ModelFile :=
  match train_from_ratings_body min_samples db file with
  | Some r => r
  | None => (false, file)
  end.

Record TrainingProgress : Type := mkProgress {
  progress_total_clips : nat;
  progress_rated_clips : nat;
  unrated_clips : nat;
  model_trained : bool;
  audio_training_samples : nat;
  video_training_samples : nat;
  ready_for_training : bool
}.

(** [get_training_progress] *)
Definition get_training_progress (db : clip_manager.ClipDatabase)
           (file : ModelFile) : TrainingProgress :=
  let total := clip_manager.total_clips db in
  let rated := clip_manager.rated_clips db in
  mkProgress total rated (total - rated)
    (is_some file)
    (match file with
     | Some data => length (td_features (saved_training (saved_audio data)))
     | None => 0
     end)
    (match file with
     | Some data => length (td_features (saved_training (saved_video data)))
     | None => 0
     end)
    (10 <=? rated)%nat.

(** The test of [auto_train_if_ready]:
    [progress['ready_for_training'] and progress['rated_clips'] % 5 == 0] *)
Definition auto_train_due (progress : TrainingProgress) : bool :=
  ready_for_training progress
  && Nat.eqb (progress_rated_clips progress mod 5) 0.

Definition auto_train_if_ready (min_samples : Z)
           (db : clip_manager.ClipDatabase) (file : ModelFile)
  : bool * ModelFile :=
  if auto_train_due (get_training_progress db file)
  then train_from_ratings min_samples db file
  else (false, file).

(** [manual_train_model] of the interface (gradio_interface.py). *)
Inductive ManualTraining : Type :=
| NeedMoreRatings
| TrainingCompleted
| TrainingFailed.

Definition manual_train_model (db : clip_manager.ClipDatabase)
           (file : ModelFile) : ManualTraining * ModelFile :=
  if negb (ready_for_training (get_training_progress db file))
  then (NeedMoreRatings, file)
  else
    let '(success, file') := train_from_ratings 10 db file in
    (if success then TrainingCompleted else TrainingFailed, file').

End RatingBasedTrainer.

(** *** Isolation of fit failures *)

Definition no_features : Features := [].

(** Ten audio samples without any feature, whose fit raises, and ten video
    samples of two features, whose fit succeeds. *)
Definition audio_degenerate : MLHighlightModel :=
  Nat.iter 10 (add_training_sample two_features 0.7 video)
    (Nat.iter 10 (add_training_sample no_features 0.7 audio)
       (load_model None)).

(** C6 (as stated, refuted): the audio fit raises, the video fit on its own
    succeeds and leaves the video model trained, and yet after [retrain]
    the video model is untrained and nothing was saved. *)
Lemma retrain_audio_failure_blocks_video :
  fst (retrain_modality audio audio_degenerate) = None /\
  (exists m', retrain_modality video audio_degenerate = (Some tt, m') /\
              Trained (video_slot m') 2) /\
  Untrained (video_slot (fst (retrain audio_degenerate None))) /\
  snd (retrain audio_degenerate None) = None.
Proof.
  split; [vm_compute; reflexivity|]. split.
  - eexists. split; [vm_compute; reflexivity|].
    vm_compute. repeat split. apply Nat.le_refl.
  - split; vm_compute; reflexivity.
Qed.

(** C6 (amended): a fit that raises ends the whole retrain, without
    raising to the caller.  In [retrain], when the audio fit raises the
    video model is left as it was and nothing is saved; when the video fit
    raises the audio model stays as its own retrain left it, the video
    scaler is not marked fitted and nothing is saved.  In
    [train_from_ratings], when either modality's fit raises the call
    returns [False] and the model file is left as it was. *)
Theorem fit_failure_ends_retrain {sk : Sklearn} :
  (forall m file m1,
      retrain_modality audio m = (None, m1) ->
      retrain m file = (m1, file) /\ video_slot m1 = video_slot m) /\
  (forall m file m1 m2,
      retrain_modality audio m = (Some tt, m1) ->
      retrain_modality video m1 = (None, m2) ->
      retrain m file = (m2, file) /\
      audio_slot m2 = audio_slot m1 /\
      scaler_fitted (video_slot m2) = scaler_fitted (video_slot m)) /\
  (forall min_samples db file,
      train_branch min_samples (fst (prepare_training_data db)) = None \/
      train_branch min_samples (snd (prepare_training_data db)) = None ->
      train_from_ratings min_samples db file = (false, file)).
Proof.
  repeat split.
  - now apply retrain_audio_raises.
  - pose proof (retrain_modality_frame audio m) as F.
    rewrite H in F. simpl in F. tauto.
  - eapply retrain_video_raises; eassumption.
  - pose proof (retrain_modality_frame video m1) as F.
    rewrite H0 in F. simpl in F. tauto.
  - destruct (retrain_modality_raises video m1 m2 H0) as (E & _).
    simpl in E. rewrite E.
    pose proof (retrain_modality_frame audio m) as F.
    rewrite H in F. simpl in F. now destruct F as [_ ->].
  - intros min_samples db file H.
    unfold train_from_ratings, train_from_ratings_body.
    destruct H as [H|H].
    + now rewrite H.
    + rewrite H. now destruct (train_branch _ (fst _)).
Qed.

(** *** The cadence of automatic training *)

(** C7 (as stated, refuted): with five rated clips no training is
    triggered, whatever the sample floor. *)
Lemma auto_train_not_at_five :
  clip_manager.rated_clips (clip_manager.rated_table 5) = 5%nat /\
  auto_train_due (get_training_progress (clip_manager.rated_table 5) None)
  = false /\
  forall min_samples,
    auto_train_if_ready min_samples (clip_manager.rated_table 5) None
    = (false, None).
Proof.
  split; [reflexivity|]. split; [reflexivity|]. intro. reflexivity.
Qed.

Example auto_train_at_ten :
  auto_train_due (get_training_progress (clip_manager.rated_table 10) None)
  = true.
Proof. reflexivity. Qed.

Example auto_train_not_at_eleven :
  auto_train_due (get_training_progress (clip_manager.rated_table 11) None)
  = false.
Proof. reflexivity. Qed.

Example auto_train_at_fifteen :
  auto_train_due (get_training_progress (clip_manager.rated_table 15) None)
  = true.
Proof. reflexivity. Qed.

Lemma train_branch_floor {sk : Sklearn} min_samples samples :
  (Z.of_nat (length (td_features samples)) < min_samples)%Z ->
  train_branch min_samples samples = Some None.
Proof.
  intro H. unfold train_branch.
  destruct (min_samples <=? _)%Z eqn:E; [|reflexivity].
  apply Z.leb_le in E. lia.
Qed.

(** C7 (amended): automatic training is triggered exactly when the
    number of rated clips is at least 10 and a multiple of 5 (at 10, 15,
    20, ... and not at 5, 6, 11 or 16); otherwise nothing is trained and the
    model file is untouched.  The manual trigger does not look at the
    cadence: it refuses below 10 rated clips and otherwise runs
    [train_from_ratings] with a floor of 10.  In [train_from_ratings] a
    modality with fewer samples than the floor is not trained: its part of
    the model file stays as it was, and when both are below the floor the
    call returns [False]. *)
Theorem rating_training_triggers {sk : Sklearn}
        (db : clip_manager.ClipDatabase) (file : ModelFile) :
  let n := clip_manager.rated_clips db in
  (auto_train_due (get_training_progress db file) = true
   <-> (10 <= n)%nat /\ (n mod 5 = 0)%nat) /\
  (forall min_samples,
      auto_train_if_ready min_samples db file
      = if auto_train_due (get_training_progress db file)
        then train_from_ratings min_samples db file
        else (false, file)) /\
  ((n < 10)%nat -> manual_train_model db file = (NeedMoreRatings, file)) /\
  ((10 <= n)%nat ->
   fst (manual_train_model db file) <> NeedMoreRatings /\
   snd (manual_train_model db file) = snd (train_from_ratings 10 db file) /\
   (fst (manual_train_model db file) = TrainingCompleted
    <-> fst (train_from_ratings 10 db file) = true)) /\
  (forall min_samples,
      let audio_samples := fst (prepare_training_data db) in
      let video_samples := snd (prepare_training_data db) in
      let below samples :=
        (Z.of_nat (length (td_features samples)) < min_samples)%Z in
      (below audio_samples -> below video_samples ->
       train_from_ratings min_samples db file = (false, file)) /\
      (below audio_samples ->
       forall data, snd (train_from_ratings min_samples db file) = Some data ->
                    saved_audio data
                    = saved_audio (_load_or_create_model file)) /\
      (below video_samples ->
       forall data, snd (train_from_ratings min_samples db file) = Some data ->
                    saved_video data
                    = saved_video (_load_or_create_model file))).
Proof.
  intro n.
  assert (R : ready_for_training (get_training_progress db file)
              = (10 <=? n)%nat) by reflexivity.
  assert (P : progress_rated_clips (get_training_progress db file) = n)
    by reflexivity.
  unfold auto_train_due, auto_train_if_ready, manual_train_model.
  rewrite R, P. repeat split.
  - apply andb_true_iff in H as [H _]. now apply Nat.leb_le in H.
  - apply andb_true_iff in H as [_ H]. now apply Nat.eqb_eq in H.
  - intros [H1 H2].
    apply andb_true_iff. split; [now apply Nat.leb_le | now apply Nat.eqb_eq].
  - intro H. destruct (10 <=? n)%nat eqn:E; [|reflexivity].
    apply Nat.leb_le in E. lia.
  - apply Nat.leb_le in H. rewrite H. simpl.
    destruct (train_from_ratings 10 db file) as [[|] f]; discriminate.
  - apply Nat.leb_le in H. rewrite H. simpl.
    now destruct (train_from_ratings 10 db file) as [[|] f].
  - apply Nat.leb_le in H. rewrite H. simpl.
    destruct (train_from_ratings 10 db file) as [[|] f]; simpl;
      [reflexivity | discriminate].
  - apply Nat.leb_le in H. rewrite H. simpl.
    destruct (train_from_ratings 10 db file) as [[|] f]; simpl;
      [reflexivity | discriminate].
  - intros Ha Hv. unfold train_from_ratings, train_from_ratings_body.
    now rewrite (train_branch_floor _ _ Ha), (train_branch_floor _ _ Hv).
  - intros Ha data. unfold train_from_ratings, train_from_ratings_body.
    rewrite (train_branch_floor _ _ Ha).
    destruct (train_branch min_samples (snd _)) as [[v|]|]; simpl.
    + intro E. injection E as <-. reflexivity.
    + destruct file; intro E; try discriminate; injection E as <-;
        reflexivity.
    + destruct file; intro E; try discriminate; injection E as <-;
        reflexivity.
  - intros Hv data. unfold train_from_ratings, train_from_ratings_body.
    rewrite (train_branch_floor _ _ Hv).
    destruct (train_branch min_samples (fst _)) as [[a|]|]; simpl.
    + intro E. injection E as <-. reflexivity.
    + destruct file; intro E; try discriminate; injection E as <-;
        reflexivity.
    + destruct file; intro E; try discriminate; injection E as <-;
        reflexivity.
Qed.

(** ** The processing pass ([KickClipGenerator.process_stream])

    Feature extraction and the heuristic scores are external; they are
    told a chunk by its index, which names its file.  [now k ty] is the
    clock reading when the highlight of modality [ty] of chunk [k] is
    built: the clock is read once for each highlight. *)

Class Analyzers : Type := {
  extract_audio_features : nat -> option Features;
  extract_video_features : nat -> option Features;
  detect_audio_highlights : Features -> Q;
  detect_video_highlights : Features -> Q;
  now : nat -> Modality -> string
}.

(** [if audio_features:] holds for a dictionary that is not empty. *)
Definition truthy (features : option Features) : option Features :=
  match features with
  | Some ((_ :: _) as f) => Some f
  | _ => None
  end.

Section Pipeline.
Context {sk : Sklearn} {an : Analyzers}.
(** [self.processor.chunk_duration], [self.processor.overlap] and
    [self.min_gap]. *)
Variables chunk_duration overlap min_gap : Q.
Variable download_ok : nat -> bool.

Record Pass : Type := mkPass {
  ml_model : MLHighlightModel;
  audio_highlights : list Highlight;
  video_highlights : list Highlight
}.

(** The audio half of the loop body. *)
Definition score_audio (chunk_info : ChunkInfo) (p : Pass) : Pass :=
  let start_time := chunk_start_time chunk_info in
  match truthy (extract_audio_features (chunk_index chunk_info)) with
  | Some audio_features =>
      let audio_score := detect_audio_highlights audio_features in
      let '(ml_audio_score, ml) :=
        predict_audio_score audio_features (ml_model p) in
      let combined_audio_score := combined_score audio_score ml_audio_score in
      let highlight :=
        mkHighlight start_time (start_time + chunk_duration)
                    combined_audio_score audio audio_features
                    (now (chunk_index chunk_info) audio) in
      mkPass (add_training_sample audio_features combined_audio_score audio ml)
             (audio_highlights p ++ [highlight])
             (video_highlights p)
  | None => p
  end.

(** The video half of the loop body. *)
Definition score_video (chunk_info : ChunkInfo) (p : Pass) : Pass :=
  let start_time := chunk_start_time chunk_info in
  match truthy (extract_video_features (chunk_index chunk_info)) with
  | Some video_features =>
      let video_score := detect_video_highlights video_features in
      let '(ml_video_score, ml) :=
        predict_video_score video_features (ml_model p) in
      let combined_video_score := combined_score video_score ml_video_score in
      let highlight :=
        mkHighlight start_time (start_time + chunk_duration)
                    combined_video_score video video_features
                    (now (chunk_index chunk_info) video) in
      mkPass (add_training_sample video_features combined_video_score video ml)
             (audio_highlights p)
             (video_highlights p ++ [highlight])
  | None => p
  end.

Definition score_chunk (p : Pass) (chunk_info : ChunkInfo) : Pass :=
  score_video chunk_info (score_audio chunk_info p).

(** [process_stream]: the candidates of every chunk, the selection for
    each modality and the retrain.  The generator is run inside the
    [try] block: when it raises, the handler returns two empty lists and
    the retrain is not reached.  Nothing else in the block raises. *)
Definition process_stream (fuel : nat) (info : option Q)
           (max_audio_clips max_video_clips : Z)
           (start_minute end_minute : option Q)
           (ml : MLHighlightModel) (file : ModelFile)
  : option (list Highlight * list Highlight * MLHighlightModel * ModelFile) :=
  let max_audio_clips := clamp_max_clips max_audio_clips in
  let max_video_clips := clamp_max_clips max_video_clips in
  match process_stream_chunks chunk_duration overlap download_ok fuel info
                              start_minute end_minute with
  | None => None
  | Some ZeroDivisionError => Some ([], [], ml, file)
  | Some (Chunks chunks) =>
      let p := fold_left score_chunk chunks (mkPass ml [] []) in
      let audio :=
        _filter_highlights min_gap (audio_highlights p) 10
                           (Some max_audio_clips) in
      let video :=
        _filter_highlights min_gap (video_highlights p) 10
                           (Some max_video_clips) in
      let '(ml', file') := retrain (ml_model p) file in
      Some (audio, video, ml', file')
  end.

Definition full_length (h : Highlight) : Prop :=
  end_time h = (start_time h + chunk_duration)%Q.

Lemma score_chunk_full_length p chunk_info :
  Forall full_length (audio_highlights p) ->
  Forall full_length (video_highlights p) ->
  Forall full_length (audio_highlights (score_chunk p chunk_info)) /\
  Forall full_length (video_highlights (score_chunk p chunk_info)).
Proof.
  intros Ha Hv. unfold score_chunk, score_video, score_audio.
  destruct (truthy (extract_audio_features _)) as [fa|];
    destruct (truthy (extract_video_features _)) as [fv|]; simpl.
  - destruct (predict_audio_score _ _) as [sa ma]. simpl.
    destruct (predict_video_score _ _) as [sv mv]. simpl.
    split; apply Forall_app; split; try assumption; now repeat constructor.
  - destruct (predict_audio_score _ _) as [sa ma]. simpl.
    split; [|assumption].
    apply Forall_app; split; try assumption; now repeat constructor.
  - destruct (predict_video_score _ _) as [sv mv]. simpl.
    split; [assumption|].
    apply Forall_app; split; try assumption; now repeat constructor.
  - now split.
Qed.

Lemma fold_score_chunk_full_length chunks : forall p,
  Forall full_length (audio_highlights p) ->
  Forall full_length (video_highlights p) ->
  Forall full_length (audio_highlights (fold_left score_chunk chunks p)) /\
  Forall full_length (video_highlights (fold_left score_chunk chunks p)).
Proof.
  induction chunks as [|c chunks IH]; simpl; intros p Ha Hv; [now split|].
  destruct (score_chunk_full_length p c Ha Hv) as [Ha' Hv'].
  now apply IH.
Qed.

End Pipeline.

Lemma select_loop_In min_gap top_n rest : forall filtered h,
  In h (select_loop min_gap top_n filtered rest) ->
  In h filtered \/ In h rest.
Proof.
  induction rest as [|r rest IH]; simpl; intros filtered h H; [now left|].
  assert (S : forall x,
             In x (if overlaps min_gap r filtered then filtered
                   else filtered ++ [r]) ->
             In x filtered \/ x = r).
  { intros x Hx. destruct (overlaps _ _ _); [now left|].
    apply in_app_or in Hx as [Hx|[Hx|[]]]; [now left | now right]. }
  destruct (_ <=? _)%Z.
  - destruct (S h H) as [?| ->]; [now left | right; now left].
  - destruct (IH _ _ H) as [H'|H']; [|right; now right].
    destruct (S h H') as [?| ->]; [now left | right; now left].
Qed.

Lemma _filter_highlights_In min_gap highlights top_n max_clips h :
  In h (_filter_highlights min_gap highlights top_n max_clips) ->
  In h highlights.
Proof.
  rewrite _filter_highlights_eq. intro H.
  apply sorted_by_In in H. apply select_loop_In in H as [[]|H].
  now apply sorted_by_In in H.
Qed.

(** Analyzers that find the same two audio features in every chunk and no
    video features, with a heuristic score of 2. *)
#[export] Instance toy_analyzers : Analyzers := {|
  extract_audio_features := fun _ => Some two_features;
  extract_video_features := fun _ => None;
  detect_audio_highlights := fun _ => 2%Q;
  detect_video_highlights := fun _ => 2%Q;
  now := fun _ _ => "2025-01-01T00:00:00"%string
|}.

(** C9: every highlight that [process_stream] returns ends a full chunk
    duration after its start, whatever the window it was built from (the
    pass itself ends, once the overlap is shorter than the chunk).  So on
    an 86 s stream with 45 s chunks and 3 s overlap, the last chunk is cut
    to end at 86 s while the highlight built from it ends at 129 s. *)
Theorem highlights_span_full_chunk :
  (forall (sk : Sklearn) (an : Analyzers) (L O min_gap : Q)
          (download_ok : nat -> bool) (info : option Q)
          (max_audio_clips max_video_clips : Z)
          (start_minute end_minute : option Q)
          (ml : MLHighlightModel) (file : ModelFile),
      (O < L)%Q ->
      exists n audio video ml' file',
        (forall fuel, (n < fuel)%nat ->
           process_stream L O min_gap download_ok fuel info
                          max_audio_clips max_video_clips
                          start_minute end_minute ml file
           = Some (audio, video, ml', file')) /\
        Forall (full_length L) (audio ++ video)) /\
  (exists c0 c1 last audio video ml' file' h,
      process_stream_chunks 45 3 (fun _ => true) 10 (Some 86) None None
      = Some (Chunks [c0; c1; last]) /\
      process_stream 45 3 10 (fun _ => true) 10 (Some 86) 25 25 None None
                     (load_model None) None
      = Some (audio, video, ml', file') /\
      In h audio /\
      start_time h = chunk_start_time last /\
      chunk_end_time last = 86%Q /\
      (end_time h == 129)%Q /\
      (chunk_end_time last < end_time h)%Q).
Proof.
  split.
  - intros sk an L O min_gap download_ok info ma mv sm em ml file HO.
    destruct (process_stream_chunks_terminates L O download_ok info sm em HO)
      as (n & [ws|] & Hws);
      [|exists n, [], [], ml, file; split; [|constructor];
        intros fuel Hf; unfold process_stream; now rewrite (Hws fuel Hf)].
    set (p := fold_left (score_chunk L) ws (mkPass ml [] [])).
    exists n,
      (_filter_highlights min_gap (audio_highlights p) 10
                          (Some (clamp_max_clips ma))),
      (_filter_highlights min_gap (video_highlights p) 10
                          (Some (clamp_max_clips mv))),
      (fst (retrain (ml_model p) file)), (snd (retrain (ml_model p) file)).
    split.
    + intros fuel Hf. unfold process_stream. rewrite (Hws fuel Hf).
      fold p. now destruct (retrain (ml_model p) file).
    + destruct (fold_score_chunk_full_length L ws (mkPass ml [] []))
        as [Ha Hv]; [constructor | constructor |].
      fold p in Ha, Hv. rewrite Forall_forall in Ha, Hv.
      apply Forall_forall. intros h Hh.
      apply in_app_or in Hh as [Hh|Hh];
        apply _filter_highlights_In in Hh; auto.
  - do 3 eexists. do 4 eexists.
    exists (mkHighlight 84 129 2 audio two_features "2025-01-01T00:00:00").
    split; [vm_compute; reflexivity|].
    split; [vm_compute; reflexivity|].
    split; [right; right; left; reflexivity|].
    repeat split.
Qed.

(** ** The statements above, applied to concrete inputs *)

Lemma combined_score_blend_witness :
  (0 < 1)%Q /\ (combined_score 2 1 == 0.6 * 2 + 0.4 * 1)%Q.
Proof.
  assert (H : (0 < 1)%Q) by reflexivity.
  split; [exact H|].
  exact (proj1 (proj1 combined_score_blend 2 1) H).
Defined.

Lemma fit_failure_ends_retrain_witness :
  let m1 := snd (retrain_modality audio audio_degenerate) in
  retrain_modality audio audio_degenerate = (None, m1) /\
  (retrain audio_degenerate None = (m1, None) /\
   video_slot m1 = video_slot audio_degenerate).
Proof.
  assert (H : retrain_modality audio audio_degenerate
              = (None, snd (retrain_modality audio audio_degenerate)))
    by (vm_compute; reflexivity).
  split; [exact H|].
  exact (proj1 fit_failure_ends_retrain audio_degenerate None _ H).
Defined.

Lemma rating_training_triggers_witness :
  let db := clip_manager.rated_table 10 in
  (10 <= clip_manager.rated_clips db)%nat /\
  (fst (manual_train_model db None) <> NeedMoreRatings /\
   snd (manual_train_model db None) = snd (train_from_ratings 10 db None) /\
   (fst (manual_train_model db None) = TrainingCompleted
    <-> fst (train_from_ratings 10 db None) = true)).
Proof.
  assert (H : (10 <= clip_manager.rated_clips (clip_manager.rated_table 10))%nat)
    by (vm_compute; apply Nat.le_refl).
  split; [exact H|].
  exact (proj1 (proj2 (proj2 (proj2
           (rating_training_triggers (clip_manager.rated_table 10) None)))) H).
Defined.

Lemma highlights_span_full_chunk_witness :
  (3 < 45)%Q /\
  exists n audio video ml' file',
    (forall fuel, (n < fuel)%nat ->
       process_stream 45 3 10 (fun _ => true) fuel (Some 86) 25 25 None None
                      (load_model None) None
       = Some (audio, video, ml', file')) /\
    Forall (full_length 45) (audio ++ video).
Proof.
  assert (H : (3 < 45)%Q) by reflexivity.
  split; [exact H|].
  exact (proj1 highlights_span_full_chunk toy_sklearn toy_analyzers
           45 3 10 (fun _ => true) (Some 86) 25%Z 25%Z None None
           (load_model None) None H).
Defined.

Lemma update_rating_contract_witness :
  let db := clip_manager.rated_table 3 in
  (1 <= 5 <= 5)%Z /\
  (exists r, In r db /\ clip_manager.id r = 2%Z) /\
  (fst (clip_manager.update_rating "2025-02-01" 2 5 db) = true /\
   Forall2 (fun r r' =>
              if (clip_manager.id r =? 2)%Z
              then r' = clip_manager.mkClip
                          (clip_manager.id r) (clip_manager.filename r)
                          (clip_manager.filepath r)
                          (clip_manager.start_time r)
                          (clip_manager.end_time r)
                          (clip_manager.duration r) (clip_manager.score r)
                          (clip_manager.clip_type r)
                          (clip_manager.features r)
                          (Some 5%Z) (clip_manager.created_at r)
                          (Some "2025-02-01"%string)
                          (clip_manager.source_url r)
              else r' = r)
           db (snd (clip_manager.update_rating "2025-02-01" 2 5 db))).
Proof.
  assert (H1 : (1 <= 5 <= 5)%Z) by (split; discriminate).
  assert (H2 : exists r, In r (clip_manager.rated_table 3)
                         /\ clip_manager.id r = 2%Z).
  { eexists. split; [right; left; reflexivity | reflexivity]. }
  split; [exact H1|]. split; [exact H2|].
  exact (proj1 (proj2 (clip_manager.update_rating_contract
                         "2025-02-01" 2 5 (clip_manager.rated_table 3)))
               H1 H2).
Defined.

(** ** Further properties of the model's life cycle *)

Definition other (ty : Modality) : Modality :=
  match ty with audio => video | video => audio end.

(** X1: when the features are not in the cache, a trained modality that is
    given a vector of another length than it was trained on answers [0.0]
    and is reset: a new ensemble and scaler, not fitted, no samples and no
    expected length; the other modality is left as it was. *)
Theorem predict_mismatch_resets_on_miss {sk : Sklearn}
        (ty : Modality) (features : Features) (m : MLHighlightModel)
        (n : nat) :
  cache_lookup (cache_key features) (cache m) = None ->
  Trained (slot ty m) n ->
  length (_dict_to_vector features) <> n ->
  fst (predict_score ty features m) = 0%Q /\
  slot ty (snd (predict_score ty features m)) = fresh_modality /\
  slot (other ty) (snd (predict_score ty features m)) = slot (other ty) m.
Proof.
  intros Hmiss (Hfit & Hlen & Hexp) Hne.
  assert (S : sample_starved (slot ty m) = false).
  { unfold sample_starved. rewrite Hfit. simpl.
    apply Nat.ltb_ge. exact Hlen. }
  assert (M : mismatch (slot ty m) (_dict_to_vector features) = true).
  { unfold mismatch. rewrite Hexp. apply negb_true_iff.
    now apply Nat.eqb_neq. }
  destruct ty; simpl in *.
  - rewrite (predict_audio_mismatch features m Hmiss S M). now simpl.
  - rewrite (predict_video_mismatch features m Hmiss S M). now simpl.
Qed.

Lemma predict_mismatch_resets_on_miss_witness :
  let m := trained_on_two (load_model None) in
  cache_lookup (cache_key three_features) (cache m) = None /\
  Trained (slot audio m) 2 /\
  length (_dict_to_vector three_features) <> 2%nat /\
  (fst (predict_score audio three_features m) = 0%Q /\
   slot audio (snd (predict_score audio three_features m)) = fresh_modality /\
   slot (other audio) (snd (predict_score audio three_features m))
   = slot (other audio) m).
Proof.
  assert (H1 : cache_lookup (cache_key three_features)
                 (cache (trained_on_two (load_model None))) = None)
    by (vm_compute; reflexivity).
  assert (H2 : Trained (slot audio (trained_on_two (load_model None))) 2)
    by (vm_compute; repeat split; apply Nat.le_refl).
  assert (H3 : length (_dict_to_vector three_features) <> 2%nat)
    by (vm_compute; discriminate).
  split; [exact H1|]. split; [exact H2|]. split; [exact H3|].
  exact (predict_mismatch_resets_on_miss audio three_features
           (trained_on_two (load_model None)) 2 H1 H2 H3).
Defined.

(** X2: as long as the cache holds only values that predictions stored
    (none is negative), a prediction is never negative and the cache stays
    so; and when the features are not in the cache, a modality that is not
    fitted or holds fewer than ten samples answers exactly [0.0] and keeps
    both modalities as they were. *)
Theorem predict_nonneg_zero_when_starved {sk : Sklearn}
        (ty : Modality) (features : Features) (m : MLHighlightModel) :
  cache_nonneg (cache m) ->
  (0 <= fst (predict_score ty features m))%Q /\
  cache_nonneg (cache (snd (predict_score ty features m))) /\
  (cache_lookup (cache_key features) (cache m) = None ->
   sample_starved (slot ty m) = true ->
   fst (predict_score ty features m) = 0%Q /\
   audio_slot (snd (predict_score ty features m)) = audio_slot m /\
   video_slot (snd (predict_score ty features m)) = video_slot m).
Proof.
  intro C. destruct ty; simpl.
  - destruct (predict_audio_nonneg features m C) as [H1 H2].
    repeat split; try assumption;
      now rewrite (predict_audio_starved features m).
  - destruct (predict_video_nonneg features m C) as [H1 H2].
    rewrite H2. repeat split; try assumption;
      now rewrite (predict_video_starved features m).
Qed.

Lemma predict_nonneg_zero_when_starved_witness :
  let m := load_model None in
  cache_nonneg (cache m) /\
  ((0 <= fst (predict_score audio two_features m))%Q /\
   cache_nonneg (cache (snd (predict_score audio two_features m))) /\
   (cache_lookup (cache_key two_features) (cache m) = None ->
    sample_starved (slot audio m) = true ->
    fst (predict_score audio two_features m) = 0%Q /\
    audio_slot (snd (predict_score audio two_features m)) = audio_slot m /\
    video_slot (snd (predict_score audio two_features m)) = video_slot m)).
Proof.
  assert (H : cache_nonneg (cache (load_model None))) by constructor.
  split; [exact H|].
  exact (predict_nonneg_zero_when_starved audio two_features
           (load_model None) H).
Defined.

Lemma retrain_modality_skips {sk : Sklearn} (ty : Modality)
      (m : MLHighlightModel) :
  (length (td_features (training_data (slot ty m))) < 10)%nat ->
  retrain_modality ty m = (Some tt, m).
Proof.
  intro H. unfold retrain_modality, bind, get, ret.
  apply Nat.leb_gt in H. now rewrite H.
Qed.

Lemma retrain_modality_fits {sk : Sklearn} (ty : Modality)
      (m : MLHighlightModel) n sc X_scaled r :
  let s := slot ty m in
  let X := td_features (training_data s) in
  (10 <= length X)%nat ->
  np_shape1 X = Some n ->
  scaler_fit (scaler s) X = Some sc ->
  scaler_transform sc X = Some X_scaled ->
  regressor_fit (model s) X_scaled (td_scores (training_data s)) = Some r ->
  retrain_modality ty m
  = (Some tt,
     set_slot ty (mkModality r sc true (training_data s) (Some n)) m).
Proof.
  intros s X H Hn Hsc Hxs Hr.
  unfold retrain_modality, bind, get, modify, lift, ret.
  fold s. fold X. apply Nat.leb_le in H. rewrite H, Hn. simpl.
  rewrite Hsc. simpl. rewrite Hxs. simpl. rewrite Hr. simpl.
  now destruct ty.
Qed.

(** The model that [retrain] leaves: that of the video block, unless the
    audio block raised. *)
Lemma retrain_model {sk : Sklearn} (m : MLHighlightModel)
      (file : ModelFile) :
  fst (retrain m file)
  = match fst (retrain_modality audio m) with
    | Some _ => snd (retrain_modality video (snd (retrain_modality audio m)))
    | None => snd (retrain_modality audio m)
    end.
Proof.
  unfold retrain, try_except, retrain_body, bind, on_model, modify. simpl.
  destruct (retrain_modality audio m) as [[[]|] m1]; simpl; [|reflexivity].
  now destruct (retrain_modality video m1) as [[[]|] m2].
Qed.

(** X3: [retrain] leaves a modality with fewer than ten samples exactly as
    it is, nine included, whatever happens to the other modality.  A
    modality with ten or more samples whose fits succeed is trained on the
    samples' width, with the fitted scaler and ensemble; for video this
    needs the audio block, which runs first in the same [try], not to
    raise. *)
Theorem retrain_threshold {sk : Sklearn} (ty : Modality)
        (m : MLHighlightModel) (file : ModelFile) :
  let s := slot ty m in
  let X := td_features (training_data s) in
  ((length X < 10)%nat -> slot ty (fst (retrain m file)) = s) /\
  (forall n sc X_scaled r,
      (10 <= length X)%nat ->
      np_shape1 X = Some n ->
      scaler_fit (scaler s) X = Some sc ->
      scaler_transform sc X = Some X_scaled ->
      regressor_fit (model s) X_scaled (td_scores (training_data s))
      = Some r ->
      (ty = video -> fst (retrain_modality audio m) = Some tt) ->
      slot ty (fst (retrain m file))
      = mkModality r sc true (training_data s) (Some n) /\
      Trained (slot ty (fst (retrain m file))) n).
Proof.
  intros s X.
  pose proof (retrain_modality_frame audio m) as Fa.
  pose proof (retrain_modality_frame video (snd (retrain_modality audio m)))
    as Fv.
  simpl in Fa, Fv. destruct Fa as [_ Fa]. destruct Fv as [_ Fv].
  rewrite retrain_model. split.
  - intro H. destruct ty; subst s X; simpl in *.
    + rewrite (retrain_modality_skips audio m H) in *. simpl in *.
      exact Fv.
    + destruct (fst (retrain_modality audio m)); [|exact Fa].
      rewrite retrain_modality_skips; [exact Fa|].
      simpl. now rewrite Fa.
  - intros n sc Xs r H Hn Hsc Hxs Hr Ha.
    assert (G : slot ty
                  match fst (retrain_modality audio m) with
                  | Some _ =>
                      snd (retrain_modality video
                             (snd (retrain_modality audio m)))
                  | None => snd (retrain_modality audio m)
                  end
                = mkModality r sc true (training_data s) (Some n)).
    { destruct ty; subst s X; simpl in *.
      - rewrite (retrain_modality_fits audio m n sc Xs r H Hn Hsc Hxs Hr)
          in *.
        simpl in *. exact Fv.
      - rewrite (Ha eq_refl).
        rewrite (retrain_modality_fits video _ n sc Xs r); simpl;
          rewrite ?Fa; try assumption.
        reflexivity. }
    split; [exact G|]. rewrite G. repeat split. exact H.
Qed.

Lemma retrain_threshold_witness :
  let m := Nat.iter 9 (add_training_sample two_features 0.7 audio)
             (load_model None) in
  (length (td_features (training_data (slot audio m))) < 10)%nat /\
  slot audio (fst (retrain m None)) = slot audio m /\
  Trained (slot audio
             (fst (retrain
                     (Nat.iter 10 (add_training_sample two_features 0.7 audio)
                               (load_model None))
                     None))) 2.
Proof.
  assert (H : (length (td_features (training_data
                 (slot audio
                    (Nat.iter 9 (add_training_sample two_features 0.7 audio)
                              (load_model None))))) < 10)%nat)
    by (vm_compute; apply Nat.le_refl).
  split; [exact H|]. split.
  - exact (proj1 (retrain_threshold audio
                    (Nat.iter 9 (add_training_sample two_features 0.7 audio)
                              (load_model None)) None) H).
  - set (m10 := Nat.iter 10 (add_training_sample two_features 0.7 audio)
                        (load_model None)).
    set (X := td_features (training_data (slot audio m10))).
    assert (H10 : (10 <= length X)%nat) by (vm_compute; apply Nat.le_refl).
    assert (Hn : np_shape1 X = Some 2%nat) by (vm_compute; reflexivity).
    assert (Hsc : scaler_fit (scaler (slot audio m10)) X = Some 2%nat)
      by (vm_compute; reflexivity).
    assert (Hxs : scaler_transform 2%nat X = Some X)
      by (vm_compute; reflexivity).
    assert (Hr : regressor_fit (model (slot audio m10)) X
                   (td_scores (training_data (slot audio m10)))
                 = Some (Some 0.7%Q)) by (vm_compute; reflexivity).
    assert (Ha : audio = video ->
                 fst (retrain_modality audio m10) = Some tt)
      by discriminate.
    exact (proj2 (proj2 (retrain_threshold audio m10 None)
                    2%nat 2%nat X (Some 0.7%Q) H10 Hn Hsc Hxs Hr Ha)).
Defined.

(** ** More of the clip store (clip_manager.py)

    [add_clip] needs what SQLite keeps beside the rows: the largest id an
    [AUTOINCREMENT] key has handed out, in [sqlite_sequence]. *)

Module clip_store.
Import clip_manager.

Record ClipTable : Type := mkTable {
  rows : ClipDatabase;
  sequence : Z
}.

Definition empty_table : ClipTable := mkTable [] 0.

Definition max_id (db : ClipDatabase) : Z :=
  fold_right (fun r acc => Z.max (id r) acc) 0%Z db.

Definition with_id (clip_id : Z) (c : ClipRecord) : ClipRecord :=
  mkClip clip_id (filename c) (filepath c) (start_time c) (end_time c)
         (duration c) (score c) (clip_type c) (features c)
         (rating c) (created_at c) (rated_at c) (source_url c).

(** [SELECT id FROM clips WHERE filepath = ?] *)
Definition find_by_filepath (path : string) (db : ClipDatabase)
  : option ClipRecord :=
  find (fun r => String.eqb (filepath r) path) db.

(** [ClipDatabase.add_clip]: the [INSERT] fails on a file path that is
    already there ([UNIQUE(filepath)]) and the id of that row is returned;
    otherwise the row gets the next id. The [id] of [clip] is not read. *)
Definition add_clip (clip : ClipRecord) (t : ClipTable) : Z * ClipTable :=
  match find_by_filepath (filepath clip) (rows t) with
  | Some existing => (id existing, t)
  | None =>
      let clip_id := (Z.max (sequence t) (max_id (rows t)) + 1)%Z in
      (clip_id, mkTable (rows t ++ [with_id clip_id clip]) clip_id)
  end.

(** [ClipDatabase.get_clip] *)
Definition get_clip (clip_id : Z) (db : ClipDatabase) : option ClipRecord :=
  find (fun r => (id r =? clip_id)%Z) db.

(** [ClipDatabase.delete_clip]; removing the file is left to the file
    system. *)
Definition delete_clip (clip_id : Z) (t : ClipTable) : bool * ClipTable :=
  match get_clip clip_id (rows t) with
  | None => (false, t)
  | Some _ =>
      (true, mkTable (filter (fun r => negb (id r =? clip_id)%Z) (rows t))
                     (sequence t))
  end.

(** [ClipManager.register_clip]; [name] and [absolute] are the file name
    and the absolute path of [filepath], [created] the clock reading. *)
Definition register_clip (name absolute : string) (start_time end_time : Q)
           (score : Q) (clip_type : Modality) (features : Features)
           (source_url : option string) (created : string) (t : ClipTable)
  : Z * ClipTable :=
  add_clip (mkClip 0 name absolute start_time end_time
                   (end_time - start_time) score clip_type
                   (json_dumps features) None created None source_url) t.

(** [ClipManager.rate_clip] on a table. *)
Definition rate_clip (now : string) (clip_id stars : Z) (t : ClipTable)
  : bool * ClipTable :=
  let '(ok, db) := update_rating now clip_id stars (rows t) in
  (ok, mkTable db (sequence t)).

(** The table's constraints: the primary key, [UNIQUE(filepath)], and ids
    that the sequence has handed out. *)
Definition table_ok (t : ClipTable) : Prop :=
  NoDup (map id (rows t)) /\
  NoDup (map filepath (rows t)) /\
  Forall (fun r => (1 <= id r <= sequence t)%Z) (rows t).

Lemma max_id_ge (db : ClipDatabase) r : In r db -> (id r <= max_id db)%Z.
Proof.
  induction db as [|r' db IH]; simpl; [contradiction|].
  intros [->|H]; [lia|]. specialize (IH H). lia.
Qed.

Lemma max_id_nonneg (db : ClipDatabase) : (0 <= max_id db)%Z.
Proof. induction db as [|r db IH]; simpl; lia. Qed.

Lemma find_by_filepath_none path (db : ClipDatabase) :
  find_by_filepath path db = None -> ~ In path (map filepath db).
Proof.
  unfold find_by_filepath. induction db as [|r db IH]; simpl; [tauto|].
  destruct (String.eqb (filepath r) path) eqn:E; [discriminate|].
  intros H [H'|H']; [|now apply IH].
  apply String.eqb_neq in E. contradiction.
Qed.

Lemma get_clip_id clip_id (db : ClipDatabase) r :
  get_clip clip_id db = Some r -> In r db /\ id r = clip_id.
Proof.
  unfold get_clip. intro H. apply find_some in H as [H1 H2].
  split; [exact H1 | now apply Z.eqb_eq].
Qed.

Lemma get_clip_none clip_id (db : ClipDatabase) :
  get_clip clip_id db = None <-> (forall r, In r db -> id r <> clip_id).
Proof.
  unfold get_clip. split.
  - intros H r Hr E. apply (find_none _ _ H) in Hr.
    apply Z.eqb_neq in Hr. contradiction.
  - intro H. induction db as [|r db IH]; simpl; [reflexivity|].
    destruct (id r =? clip_id)%Z eqn:E.
    + apply Z.eqb_eq in E. exfalso. apply (H r); [now left | exact E].
    + apply IH. intros r' Hr'. apply H. now right.
Qed.

Lemma get_clip_app clip_id (db : ClipDatabase) r :
  get_clip clip_id (db ++ [r])
  = match get_clip clip_id db with
    | Some x => Some x
    | None => if (id r =? clip_id)%Z then Some r else None
    end.
Proof.
  unfold get_clip. induction db as [|x db IH]; simpl; [reflexivity|].
  now destruct (id x =? clip_id)%Z.
Qed.

Lemma filter_length_perm (p : ClipRecord -> bool) (l l' : ClipDatabase) :
  Permutation l l' -> length (filter p l) = length (filter p l').
Proof.
  induction 1 as [|x l l' _ IH|x y l|l l' l'' _ IH1 _ IH2]; simpl.
  - reflexivity.
  - destruct (p x); simpl; now rewrite IH.
  - destruct (p x), (p y); reflexivity.
  - now rewrite IH1.
Qed.

End clip_store.

Module clip_facts.
Import clip_manager clip_store.

(** X4: adding a clip keeps the table's constraints and the clip can then
    be fetched under the id that was returned.  A file path that is new
    gets a fresh row at the end, under an id larger than every id in the
    table and than every id handed out before; a file path that is
    already there leaves the table as it is and returns the id of the row
    that holds it. *)
Theorem add_clip_get_clip (clip : ClipRecord) (t : ClipTable) :
  table_ok t ->
  let clip_id := fst (add_clip clip t) in
  let t' := snd (add_clip clip t) in
  table_ok t' /\
  (exists row, get_clip clip_id (rows t') = Some row /\
               filepath row = filepath clip) /\
  (find_by_filepath (filepath clip) (rows t) = None ->
   rows t' = rows t ++ [with_id clip_id clip] /\
   get_clip clip_id (rows t') = Some (with_id clip_id clip) /\
   (sequence t < clip_id)%Z /\
   Forall (fun r => (id r < clip_id)%Z) (rows t)) /\
  (forall existing,
      find_by_filepath (filepath clip) (rows t) = Some existing ->
      t' = t /\ clip_id = id existing).
Proof.
  intros (Hid & Hpath & Hseq). unfold add_clip.
  destruct (find_by_filepath (filepath clip) (rows t)) as [e|] eqn:F; simpl.
  - assert (He : In e (rows t) /\ filepath e = filepath clip).
    { unfold find_by_filepath in F. apply find_some in F as [F1 F2].
      split; [exact F1 | now apply String.eqb_eq]. }
    destruct He as [He1 He2].
    split; [now repeat split|]. split; [|split; [discriminate|]].
    + destruct (get_clip (id e) (rows t)) as [row|] eqn:G.
      * exists row. split; [reflexivity|].
        apply get_clip_id in G as [G1 G2].
        assert (row = e); [|now subst].
        clear - Hid G1 G2 He1. induction (rows t) as [|x l IH];
          [contradiction|].
        simpl in Hid. inversion Hid as [|? ? Hn Hd]; subst.
        destruct G1 as [->|G1], He1 as [<-|He1]; try reflexivity.
        -- exfalso. apply Hn. rewrite G2. now apply in_map.
        -- exfalso. apply Hn. rewrite <- G2. now apply in_map.
        -- now apply IH.
      * exfalso. apply (proj1 (get_clip_none _ _) G e He1). reflexivity.
    + intros existing E. injection E as <-. now split.
  - set (i := (Z.max (sequence t) (max_id (rows t)) + 1)%Z).
    assert (Hlt : Forall (fun r => (id r < i)%Z) (rows t)).
    { apply Forall_forall. intros r Hr. apply max_id_ge in Hr.
      unfold i. lia. }
    assert (Hfresh : ~ In i (map id (rows t))).
    { intro H. apply in_map_iff in H as (r & E & Hr).
      rewrite Forall_forall in Hlt. specialize (Hlt r Hr). lia. }
    assert (G : get_clip i (rows t ++ [with_id i clip])
                = Some (with_id i clip)).
    { rewrite get_clip_app.
      destruct (get_clip i (rows t)) as [x|] eqn:E.
      - apply get_clip_id in E as [E1 E2]. exfalso. apply Hfresh.
        rewrite <- E2. now apply in_map.
      - simpl. now rewrite Z.eqb_refl. }
    split; [|split; [|split; [|discriminate]]].
    + repeat split; simpl.
      * rewrite map_app. simpl. apply NoDup_app_remove_l with (l := []).
        simpl. apply Permutation_NoDup with (l := i :: map id (rows t)).
        -- apply Permutation_cons_append.
        -- now constructor.
      * rewrite map_app. simpl.
        apply Permutation_NoDup
          with (l := filepath clip :: map filepath (rows t)).
        -- apply Permutation_cons_append.
        -- constructor; [now apply find_by_filepath_none | exact Hpath].
      * apply Forall_app. split.
        -- eapply Forall_impl; [|exact Hseq]. simpl. intros r Hr.
           unfold i. lia.
        -- constructor; [|constructor]. simpl.
           pose proof (max_id_nonneg (rows t)). unfold i.
           assert (0 <= sequence t \/ sequence t < 0)%Z as [?|?] by lia; lia.
    + exists (with_id i clip). now split.
    + intros _. repeat split; [exact G | unfold i; lia | exact Hlt].
Qed.

Lemma add_clip_get_clip_witness :
  let clip := mkClip 0 "a.mp4" "/clips/a.mp4" 0 30 30 0.5 audio
                     (json_dumps []) None "2025-01-01" None None in
  table_ok empty_table /\
  (table_ok (snd (add_clip clip empty_table)) /\
   (exists row,
       get_clip (fst (add_clip clip empty_table))
                (rows (snd (add_clip clip empty_table))) = Some row /\
       filepath row = filepath clip)).
Proof.
  assert (H : table_ok empty_table) by (repeat split; constructor).
  split; [exact H|].
  pose proof (add_clip_get_clip
                (mkClip 0 "a.mp4" "/clips/a.mp4" 0 30 30 0.5 audio
                        (json_dumps []) None "2025-01-01" None None)
                empty_table H) as T.
  exact (conj (proj1 T) (proj1 (proj2 T))).
Defined.

Definition rate_row (now : string) (clip_id stars : Z) (r : ClipRecord)
  : ClipRecord :=
  if (id r =? clip_id)%Z then set_rating r stars now else r.

Lemma get_clip_rate_row now clip_id stars j (db : ClipDatabase) :
  get_clip j (map (rate_row now clip_id stars) db)
  = option_map (rate_row now clip_id stars) (get_clip j db).
Proof.
  unfold get_clip. induction db as [|x db IH]; simpl; [reflexivity|].
  assert (E : id (rate_row now clip_id stars x) = id x).
  { unfold rate_row. now destruct (id x =? clip_id)%Z. }
  rewrite E. now destruct (id x =? j)%Z.
Qed.

Lemma rated_after_rating now clip_id stars (db : ClipDatabase) r :
  NoDup (map id db) ->
  get_clip clip_id db = Some r ->
  rated_clips (map (rate_row now clip_id stars) db)
  = (rated_clips db + if is_rated r then 0 else 1)%nat.
Proof.
  unfold rated_clips, get_clip.
  induction db as [|x db IH]; simpl; [discriminate|].
  intros Hnd. inversion Hnd as [|? ? Hn Hd]; subst.
  unfold rate_row at 1. destruct (id x =? clip_id)%Z eqn:E.
  - intro H. injection H as <-. simpl.
    assert (A : forall y, In y db -> id y <> clip_id).
    { intros y Hy Ey. apply Z.eqb_eq in E. apply Hn. rewrite E, <- Ey.
      now apply in_map. }
    destruct (update_rating_absent now clip_id stars db A) as [M _].
    unfold rate_row. rewrite M.
    destruct (is_rated x); simpl; lia.
  - intro H. specialize (IH Hd H).
    destruct (is_rated x); simpl; rewrite IH; lia.
Qed.

(** X5: rating a clip that is in the table, with 1 to 5 stars, returns
    [True]; the clip then reads back with the new rating and time and its
    other columns untouched, every other clip reads back as before, and
    the table keeps its ids and its size.  The count of rated clips goes
    up by one when the clip was not rated before and stays the same when
    it was: a second rating replaces the first. *)
Theorem rating_reads_back
        (now : string) (clip_id stars : Z) (db : ClipDatabase)
        (r : ClipRecord) :
  NoDup (map id db) ->
  (1 <= stars <= 5)%Z ->
  get_clip clip_id db = Some r ->
  let db' := snd (update_rating now clip_id stars db) in
  fst (update_rating now clip_id stars db) = true /\
  get_clip clip_id db'
  = Some (mkClip (id r) (filename r) (filepath r) (start_time r)
                 (end_time r) (duration r) (score r) (clip_type r)
                 (features r) (Some stars) (created_at r) (Some now)
                 (source_url r)) /\
  (forall j, j <> clip_id -> get_clip j db' = get_clip j db) /\
  map id db' = map id db /\
  total_clips db' = total_clips db /\
  rated_clips db'
  = (rated_clips db + if is_rated r then 0 else 1)%nat.
Proof.
  intros Hnd Hs Hr.
  assert (G : (1 <=? stars)%Z && (stars <=? 5)%Z = true).
  { apply andb_true_iff. split; apply Z.leb_le; lia. }
  unfold update_rating. rewrite G. simpl.
  fold (rate_row now clip_id stars).
  destruct (get_clip_id _ _ _ Hr) as [Hin Hid].
  repeat split.
  - apply Nat.ltb_lt. apply update_rating_present. now exists r.
  - rewrite get_clip_rate_row, Hr. simpl. unfold rate_row.
    assert (E : (id r =? clip_id)%Z = true) by now apply Z.eqb_eq.
    rewrite E. reflexivity.
  - intros j Hj. rewrite get_clip_rate_row.
    destruct (get_clip j db) as [x|] eqn:E; [|reflexivity].
    apply get_clip_id in E as [_ E]. simpl. unfold rate_row.
    assert (N : (id x =? clip_id)%Z = false) by (apply Z.eqb_neq; lia).
    now rewrite N.
  - rewrite map_map. apply map_ext. intro x. unfold rate_row.
    now destruct (id x =? clip_id)%Z.
  - unfold total_clips. apply length_map.
  - now apply rated_after_rating.
Qed.

Lemma rating_reads_back_witness :
  let db := rated_table 3 in
  let r := mkClip 2 "clip.mp4" "/clips/clip.mp4" 0 30 30 0.5 audio
                  (json_dumps [("rms_mean"%string, 0.5)]) (Some 4%Z)
                  "2025-01-01" (Some "2025-01-02"%string) None in
  NoDup (map id db) /\ (1 <= 5 <= 5)%Z /\ get_clip 2 db = Some r /\
  (fst (update_rating "2025-02-01" 2 5 db) = true /\
   get_clip 2 (snd (update_rating "2025-02-01" 2 5 db))
   = Some (mkClip 2 "clip.mp4" "/clips/clip.mp4" 0 30 30 0.5 audio
                  (json_dumps [("rms_mean"%string, 0.5)]) (Some 5%Z)
                  "2025-01-01" (Some "2025-02-01"%string) None)).
Proof.
  assert (H1 : NoDup (map id (rated_table 3))).
  { simpl. repeat constructor; simpl; intuition discriminate. }
  assert (H2 : (1 <= 5 <= 5)%Z) by (split; discriminate).
  assert (H3 : get_clip 2 (rated_table 3)
               = Some (mkClip 2 "clip.mp4" "/clips/clip.mp4" 0 30 30 0.5
                         audio (json_dumps [("rms_mean"%string, 0.5)])
                         (Some 4%Z) "2025-01-01"
                         (Some "2025-01-02"%string) None))
    by reflexivity.
  split; [exact H1|]. split; [exact H2|]. split; [exact H3|].
  pose proof (rating_reads_back "2025-02-01" 2 5 (rated_table 3) _
                H1 H2 H3) as T.
  exact (conj (proj1 T) (proj1 (proj2 T))).
Defined.

Lemma filter_keeps_unique {K : Type} (column : ClipRecord -> K)
      (keep : ClipRecord -> bool) (db : ClipDatabase) :
  NoDup (map column db) -> NoDup (map column (filter keep db)).
Proof.
  intro Hnd. induction db as [|x db IH]; simpl in *; [exact Hnd|].
  apply NoDup_cons_iff in Hnd as [Hfresh Hrest].
  destruct (keep x); simpl; [|exact (IH Hrest)].
  apply NoDup_cons; [|exact (IH Hrest)].
  rewrite in_map_iff. intros (y & Ey & Hy).
  apply filter_In in Hy as [Hy _].
  apply Hfresh. rewrite <- Ey. exact (in_map column db y Hy).
Qed.

Lemma get_clip_filter clip_id j (db : ClipDatabase) :
  get_clip j (filter (fun r => negb (id r =? clip_id)%Z) db)
  = if (j =? clip_id)%Z then None else get_clip j db.
Proof.
  unfold get_clip. induction db as [|x db IH]; simpl.
  - now destruct (j =? clip_id)%Z.
  - destruct (id x =? clip_id)%Z eqn:E; simpl.
    + rewrite IH. destruct (j =? clip_id)%Z eqn:J; [reflexivity|].
      apply Z.eqb_eq in E. apply Z.eqb_neq in J.
      assert (N : (id x =? j)%Z = false) by (apply Z.eqb_neq; lia).
      now rewrite N.
    + destruct (id x =? j)%Z eqn:X; [|exact IH].
      apply Z.eqb_eq in X. apply Z.eqb_neq in E.
      assert (N : (j =? clip_id)%Z = false) by (apply Z.eqb_neq; lia).
      now rewrite N.
Qed.

Lemma length_filter_deleted clip_id (db : ClipDatabase) :
  NoDup (map id db) ->
  (exists r, In r db /\ id r = clip_id) ->
  S (length (filter (fun r => negb (id r =? clip_id)%Z) db)) = length db.
Proof.
  induction db as [|x db IH]; simpl; intros Hnd (r & Hr & E);
    [contradiction|].
  inversion Hnd as [|? ? Hn Hd]; subst.
  destruct (id x =? id r)%Z eqn:X; simpl.
  - f_equal. apply Z.eqb_eq in X.
    assert (A : forall y, In y db -> negb (id y =? id r)%Z = true).
    { intros y Hy. apply negb_true_iff, Z.eqb_neq. intro Ey.
      apply Hn. rewrite X, <- Ey. now apply in_map. }
    clear - A. induction db as [|y db IH]; simpl; [reflexivity|].
    rewrite (A y) by now left. simpl. f_equal. apply IH.
    intros z Hz. apply A. now right.
  - f_equal. apply IH; [exact Hd|]. exists r. split; [|reflexivity].
    destruct Hr as [->|Hr]; [|exact Hr].
    rewrite Z.eqb_refl in X. discriminate.
Qed.

(** X6: deleting a clip id that is not in the table returns [False] and
    changes nothing.  Deleting one that is there returns [True]: the clip
    can no longer be fetched, every other clip reads back as before, the
    table has one row less and keeps its constraints, and a clip added
    afterwards under a new file path never gets the deleted id again. *)
Theorem delete_clip_contract (clip_id : Z) (t : ClipTable) :
  table_ok t ->
  let t' := snd (delete_clip clip_id t) in
  (get_clip clip_id (rows t) = None -> delete_clip clip_id t = (false, t)) /\
  (forall row,
      get_clip clip_id (rows t) = Some row ->
      fst (delete_clip clip_id t) = true /\
      get_clip clip_id (rows t') = None /\
      (forall j, j <> clip_id -> get_clip j (rows t') = get_clip j (rows t)) /\
      S (total_clips (rows t')) = total_clips (rows t) /\
      table_ok t' /\
      (forall clip,
          find_by_filepath (filepath clip) (rows t') = None ->
          (clip_id < fst (add_clip clip t'))%Z)).
Proof.
  intros (Hid & Hpath & Hseq). unfold delete_clip. split.
  - intro H. now rewrite H.
  - intros row H. rewrite H. simpl.
    destruct (get_clip_id _ _ _ H) as [Hin E].
    split; [reflexivity|]. split.
    { rewrite get_clip_filter. now rewrite Z.eqb_refl. }
    split.
    { intros j Hj. rewrite get_clip_filter.
      assert (N : (j =? clip_id)%Z = false) by now apply Z.eqb_neq.
      now rewrite N. }
    split.
    { unfold total_clips. apply length_filter_deleted; [exact Hid|].
      now exists row. }
    split.
    { repeat split; simpl.
      - now apply filter_keeps_unique.
      - now apply filter_keeps_unique.
      - apply Forall_forall. intros r Hr. apply filter_In in Hr as [Hr _].
        rewrite Forall_forall in Hseq. now apply Hseq. }
    intros clip F. unfold add_clip. simpl. rewrite F. simpl.
    rewrite Forall_forall in Hseq. specialize (Hseq row Hin). lia.
Qed.

Lemma delete_clip_contract_witness :
  let t := snd (add_clip (mkClip 0 "a.mp4" "/clips/a.mp4" 0 30 30 0.5 audio
                                 (json_dumps []) None "2025-01-01" None
                                 None)
                         empty_table) in
  table_ok t /\
  delete_clip 7 t = (false, t) /\
  fst (delete_clip 1 t) = true /\
  get_clip 1 (rows (snd (delete_clip 1 t))) = None /\
  fst (add_clip (mkClip 0 "b.mp4" "/clips/b.mp4" 0 30 30 0.5 audio
                        (json_dumps []) None "2025-01-02" None None)
                (snd (delete_clip 1 t))) = 2%Z.
Proof.
  assert (H : table_ok
                (snd (add_clip (mkClip 0 "a.mp4" "/clips/a.mp4" 0 30 30 0.5
                                       audio (json_dumps []) None
                                       "2025-01-01" None None)
                               empty_table))).
  { repeat split; simpl; repeat constructor; simpl; try tauto;
      discriminate. }
  split; [exact H|].
  destruct (delete_clip_contract 7 _ H) as [Absent _].
  destruct (delete_clip_contract 1 _ H) as [_ Present].
  split; [exact (Absent eq_refl)|].
  destruct (Present _ eq_refl) as (Ok & Gone & _).
  split; [exact Ok|]. split; [exact Gone | reflexivity].
Defined.

End clip_facts.

(** ** Training from ratings: the shape of the training data *)

Module trainer_facts.
Import clip_manager.

(** One sample of [get_training_data] as [prepare_training_data] reads it. *)
Definition normalized_rating (stars : Z) : Q := ((inject_Z stars - 1) / 4)%Q.

Definition audio_samples (samples : list (Features * Z))
  : list (Features * Z) :=
  filter (fun s => _is_audio_features (fst s)) samples.

Definition video_samples (samples : list (Features * Z))
  : list (Features * Z) :=
  filter (fun s => negb (_is_audio_features (fst s))) samples.

Definition as_training (samples : list (Features * Z)) : TrainingData :=
  mkTraining (map (fun s => _extract_feature_vector (fst s)) samples)
             (map (fun s => normalized_rating (snd s)) samples).

Lemma prepare_training_data_eq (db : ClipDatabase) :
  prepare_training_data db
  = (as_training (audio_samples (get_training_data db)),
     as_training (video_samples (get_training_data db))).
Proof.
  unfold prepare_training_data.
  match goal with
  | |- fold_left ?F _ _ = _ => set (step := F)
  end.
  assert (G : forall samples acc,
             fold_left step samples acc
             = (mkTraining
                  (td_features (fst acc)
                   ++ td_features (as_training (audio_samples samples)))
                  (td_scores (fst acc)
                   ++ td_scores (as_training (audio_samples samples))),
                mkTraining
                  (td_features (snd acc)
                   ++ td_features (as_training (video_samples samples)))
                  (td_scores (snd acc)
                   ++ td_scores (as_training (video_samples samples))))).
  { induction samples as [|[f stars] samples IH]; intros [[af asc] [vf vsc]].
    - simpl. now rewrite !app_nil_r.
    - simpl fold_left. rewrite IH. unfold step. simpl.
      destruct (_is_audio_features f); simpl;
        now rewrite <- ?app_assoc. }
  now rewrite G.
Qed.

Lemma _extract_feature_vector_length (features : Features) :
  length (_extract_feature_vector features) = 15%nat.
Proof. unfold _extract_feature_vector. now rewrite length_map. Qed.

(** A clip whose features text [json.loads] reads. *)
Definition features_load (clip : ClipRecord) : bool :=
  match json_loads (features clip) with
  | Some _ => true
  | None => false
  end.

Lemma get_training_data_In (db : ClipDatabase) f stars :
  In (f, stars) (get_training_data db) ->
  exists r, In r db /\ rating r = Some stars /\
            json_loads (features r) = Some f.
Proof.
  unfold get_training_data, get_rated_clips. intro H.
  apply in_flat_map in H as (r & Hr & Hs).
  apply sorted_by_In in Hr. apply filter_In in Hr as [Hr _].
  exists r. destruct (json_loads (features r)) as [d|];
    [|contradiction].
  destruct (rating r) as [s|]; simpl in Hs; [|contradiction].
  destruct Hs as [E|[]]. injection E as <- <-. now split.
Qed.

Lemma get_training_data_length (db : ClipDatabase) :
  length (get_training_data db)
  = length (filter (fun r => is_rated r && features_load r) db).
Proof.
  unfold get_training_data, get_rated_clips.
  assert (E : length (filter (fun r => is_rated r && features_load r) db)
              = length (filter features_load
                          (sorted_by
                             (fun a b => String.leb (created_at b)
                                                    (created_at a))
                             (filter is_rated db)))).
  { rewrite (clip_store.filter_length_perm features_load _
               (filter is_rated db))
      by (symmetry; apply sorted_by_perm).
    induction db as [|r db IH]; simpl; [reflexivity|].
    destruct (is_rated r); simpl; [|exact IH].
    destruct (features_load r); simpl; now rewrite IH. }
  rewrite E. clear E.
  assert (R : forall r,
             In r (sorted_by
                     (fun a b => String.leb (created_at b) (created_at a))
                     (filter is_rated db)) -> is_rated r = true).
  { intros r Hr. apply sorted_by_In in Hr. now apply filter_In in Hr. }
  induction (sorted_by _ (filter is_rated db)) as [|r l IH];
    [reflexivity|].
  simpl. rewrite length_app, IH by (intros; apply R; now right).
  specialize (R r (or_introl eq_refl)). unfold is_rated in R.
  unfold features_load.
  destruct (json_loads (features r)); destruct (rating r);
    try discriminate; reflexivity.
Qed.

Lemma loadable_le_rated (db : ClipDatabase) :
  (length (filter (fun r => is_rated r && features_load r) db)
   <= rated_clips db)%nat.
Proof.
  unfold rated_clips. induction db as [|r db IH]; simpl; [lia|].
  destruct (is_rated r); simpl; [|exact IH].
  destruct (features_load r); simpl; lia.
Qed.

Lemma loadable_all_rated (db : ClipDatabase) :
  (forall r, In r db -> is_rated r = true -> features_load r = true) ->
  length (filter (fun r => is_rated r && features_load r) db)
  = rated_clips db.
Proof.
  unfold rated_clips. induction db as [|r db IH]; simpl; intro H;
    [reflexivity|].
  assert (IH' := IH (fun x Hx => H x (or_intror Hx))).
  destruct (is_rated r) eqn:R; simpl; [|exact IH'].
  rewrite (H r (or_introl eq_refl) R). simpl. now rewrite IH'.
Qed.

Lemma split_samples_length (samples : list (Features * Z)) :
  (length (audio_samples samples) + length (video_samples samples)
   = length samples)%nat.
Proof.
  unfold audio_samples, video_samples.
  induction samples as [|[f s] samples IH]; simpl; [reflexivity|].
  destruct (_is_audio_features f); simpl; lia.
Qed.

(** Ratings as [update_rating] stores them: one to five stars. *)
Definition ratings_valid (db : ClipDatabase) : Prop :=
  Forall (fun r => match rating r with
                   | Some stars => (1 <= stars <= 5)%Z
                   | None => True
                   end) db.

Lemma normalized_rating_unit (stars : Z) :
  (1 <= stars <= 5)%Z ->
  (0 <= normalized_rating stars /\ normalized_rating stars <= 1)%Q.
Proof.
  intros [Lo Hi]. unfold normalized_rating.
  assert (L : (inject_Z 1 <= inject_Z stars)%Q) by now rewrite <- Zle_Qle.
  assert (U : (inject_Z stars <= inject_Z 5)%Q) by now rewrite <- Zle_Qle.
  change (inject_Z 1) with 1%Q in L. change (inject_Z 5) with 5%Q in U.
  split.
  - apply Qle_shift_div_l; [reflexivity | lra].
  - apply Qle_shift_div_r; [reflexivity | lra].
Qed.

(** X7: whatever the table holds, [prepare_training_data] returns for each
    modality as many targets as feature vectors.  Every rated clip whose
    features text loads goes to exactly one of the two modalities and a
    rated clip whose text does not load is skipped, so the samples are no
    more than the rated clips, and as many when every rated clip's text
    loads, as do the texts that [register_clip] writes.  Every feature
    vector has the fifteen columns of [feature_keys], so a feature matrix
    that is not empty has [shape[1] == 15]. *)
Theorem prepare_training_data_shape (db : ClipDatabase) :
  let audio_data := fst (prepare_training_data db) in
  let video_data := snd (prepare_training_data db) in
  length (td_scores audio_data) = length (td_features audio_data) /\
  length (td_scores video_data) = length (td_features video_data) /\
  (length (td_features audio_data) + length (td_features video_data)
   = length (filter (fun r => is_rated r && features_load r) db))%nat /\
  (length (td_features audio_data) + length (td_features video_data)
   <= rated_clips db)%nat /\
  ((forall r, In r db -> is_rated r = true -> features_load r = true) ->
   (length (td_features audio_data) + length (td_features video_data)
    = rated_clips db)%nat) /\
  Forall (fun v => length v = 15%nat)
         (td_features audio_data ++ td_features video_data) /\
  (td_features audio_data <> [] ->
   np_shape1 (td_features audio_data) = Some 15%nat) /\
  (td_features video_data <> [] ->
   np_shape1 (td_features video_data) = Some 15%nat).
Proof.
  rewrite prepare_training_data_eq. simpl.
  assert (W : forall samples : list (Features * Z),
             Forall (fun v => length v = 15%nat)
                    (map (fun s => _extract_feature_vector (fst s)) samples)).
  { intro samples. apply Forall_forall. intros v Hv.
    apply in_map_iff in Hv as (s & <- & _).
    apply _extract_feature_vector_length. }
  assert (N : forall rows : list (list Q),
             Forall (fun v => length v = 15%nat) rows -> rows <> [] ->
             np_shape1 rows = Some 15%nat).
  { intros [|r rows] F Hne; [congruence|]. simpl.
    inversion F as [|? ? Hr Hrest]; subst. rewrite Hr.
    replace (forallb _ rows) with true; [reflexivity|].
    symmetry. apply forallb_forall. intros r' Hr'.
    rewrite Forall_forall in Hrest. rewrite (Hrest r' Hr').
    reflexivity. }
  assert (C : (length (map (fun s => _extract_feature_vector (fst s))
                           (audio_samples (get_training_data db)))
               + length (map (fun s => _extract_feature_vector (fst s))
                             (video_samples (get_training_data db)))
               = length (filter (fun r => is_rated r && features_load r)
                                db))%nat).
  { rewrite !length_map, split_samples_length.
    apply get_training_data_length. }
  split; [now rewrite !length_map|]. split; [now rewrite !length_map|].
  split; [exact C|].
  split; [rewrite C; apply loadable_le_rated|].
  split; [intro A; rewrite C; now apply loadable_all_rated|].
  split; [apply Forall_app; split; apply W|].
  split; intro Hne; apply N; [apply W | exact Hne | apply W | exact Hne].
Qed.

(** A rated clip whose features text is not JSON gives no sample. *)
Example unreadable_features_skipped :
  let clip := mkClip 1 "clip.mp4" "/clips/clip.mp4" 0 30 30 0.5 audio
                     (not_json "{") (Some 4%Z) "2025-01-01"
                     (Some "2025-01-02"%string) None in
  rated_clips [clip] = 1%nat /\
  get_training_data [clip] = [] /\
  prepare_training_data [clip] = (no_samples, no_samples).
Proof. repeat split. Qed.

Lemma prepare_training_data_shape_witness :
  (forall r, In r (rated_table 3) -> is_rated r = true ->
             features_load r = true) /\
  (length (td_features (fst (prepare_training_data (rated_table 3))))
   + length (td_features (snd (prepare_training_data (rated_table 3))))
   = rated_clips (rated_table 3))%nat.
Proof.
  assert (A : forall r, In r (rated_table 3) -> is_rated r = true ->
                        features_load r = true).
  { intros r [<-|[<-|[<-|[]]]] _; reflexivity. }
  split; [exact A|].
  destruct (prepare_training_data_shape (rated_table 3))
    as (_ & _ & _ & _ & T & _).
  exact (T A).
Defined.

(** X8: a table whose ratings are all between one and five stars keeps
    that property under [update_rating], whatever rating is asked for,
    and every training target that [prepare_training_data] computes from
    it lies between 0 and 1. *)
Theorem rating_targets_in_unit_interval (db : ClipDatabase) :
  ratings_valid db ->
  (forall now clip_id stars,
      ratings_valid (snd (update_rating now clip_id stars db))) /\
  Forall (fun y => (0 <= y /\ y <= 1)%Q)
         (td_scores (fst (prepare_training_data db))
          ++ td_scores (snd (prepare_training_data db))).
Proof.
  intro V. split.
  - intros now clip_id stars. unfold update_rating.
    destruct ((1 <=? stars)%Z && (stars <=? 5)%Z) eqn:B; simpl;
      [|exact V].
    apply andb_true_iff in B as [B1 B2].
    apply Z.leb_le in B1. apply Z.leb_le in B2.
    unfold ratings_valid in *. rewrite Forall_forall in *.
    intros r' Hr'. apply in_map_iff in Hr' as (r & <- & Hr).
    destruct (id r =? clip_id)%Z; [simpl; lia | now apply V].
  - rewrite prepare_training_data_eq. simpl.
    assert (T : forall samples,
               (forall s, In s samples -> In s (get_training_data db)) ->
               Forall (fun y => (0 <= y /\ y <= 1)%Q)
                      (map (fun s => normalized_rating (snd s)) samples)).
    { intros samples Sub. apply Forall_forall. intros y Hy.
      apply in_map_iff in Hy as ([f stars] & <- & Hs).
      apply Sub, get_training_data_In in Hs as (r & Hr & E & _).
      unfold ratings_valid in V. rewrite Forall_forall in V.
      specialize (V r Hr). rewrite E in V.
      now apply normalized_rating_unit. }
    apply Forall_app. split; apply T; intros s Hs;
      now apply filter_In in Hs.
Qed.

Lemma rating_targets_in_unit_interval_witness :
  ratings_valid (rated_table 3) /\
  ratings_valid (snd (update_rating "2025-01-03" 2 9 (rated_table 3))) /\
  Forall (fun y => (0 <= y /\ y <= 1)%Q)
         (td_scores (fst (prepare_training_data (rated_table 3)))
          ++ td_scores (snd (prepare_training_data (rated_table 3)))).
Proof.
  assert (V : ratings_valid (rated_table 3))
    by (repeat constructor; simpl; lia).
  split; [exact V|].
  destruct (rating_targets_in_unit_interval (rated_table 3) V) as [K T].
  split; [apply K | exact T].
Defined.

(** The keys of the dictionary that [extract_audio_features] fills, in
    the order of its assignments, and the keys of the [aggregated]
    dictionary of [extract_video_features]. *)
Definition audio_feature_names : list string :=
  ["rms_mean"; "rms_std"; "rms_max";
   "spectral_centroid_mean"; "spectral_centroid_std";
   "zcr_mean"; "zcr_std"; "tempo"; "beat_strength"; "rolloff_mean";
   "mfcc_0_mean"; "mfcc_1_mean"; "mfcc_2_mean"; "mfcc_3_mean";
   "mfcc_4_mean"; "loudness_variance"; "high_freq_energy"]%string.

Definition video_feature_names : list string :=
  ["motion_mean"; "motion_std"; "motion_max";
   "brightness_mean"; "brightness_std"; "color_variance_mean";
   "edge_density_mean"; "edge_density_std"]%string.

(** [features.get(key, 0.0)] *)
Definition get_or_zero (key : string) (features : Features) : Q :=
  match dict_get key features with
  | Some v => v
  | None => 0%Q
  end.

(** X9: what the trainer reads of the analyzers' dictionaries, which are
    the features stored with a clip.  Of the seventeen audio features
    eight reach the training vector; the two spectral-rolloff columns are
    always zero, since the analyzer stores [rolloff_mean], and so are the
    five video columns.  Of the eight video features three reach it; the
    [edge_density] and [color_variance] columns are always zero, since the
    analyzer stores [edge_density_mean] and [color_variance_mean], and so
    are the ten audio columns.  An audio dictionary is recognised as
    audio and a video dictionary as video, and the vectors that the
    learned model takes from the same dictionaries have 17 and 8 entries,
    not 15. *)
Theorem trainer_reads_analyzer_features (features : Features) :
  (map fst features = audio_feature_names ->
   _is_audio_features features = true /\
   length (_dict_to_vector features) = 17%nat /\
   _extract_feature_vector features
   = [get_or_zero "rms_mean" features; get_or_zero "rms_std" features;
      get_or_zero "zcr_mean" features; get_or_zero "zcr_std" features;
      get_or_zero "spectral_centroid_mean" features;
      get_or_zero "spectral_centroid_std" features;
      0; 0;
      get_or_zero "tempo" features; get_or_zero "beat_strength" features;
      0; 0; 0; 0; 0]%Q) /\
  (map fst features = video_feature_names ->
   _is_audio_features features = false /\
   length (_dict_to_vector features) = 8%nat /\
   _extract_feature_vector features
   = [0; 0; 0; 0; 0; 0; 0; 0; 0; 0;
      get_or_zero "motion_mean" features;
      get_or_zero "motion_std" features;
      0; 0;
      get_or_zero "brightness_mean" features]%Q).
Proof.
  split; intro K.
  - do 17 (destruct features as [|[? ?] features]; [discriminate K|]).
    destruct features; [|discriminate K].
    injection K as -> -> -> -> -> -> -> -> -> -> -> -> -> -> -> -> ->.
    repeat split.
  - do 8 (destruct features as [|[? ?] features]; [discriminate K|]).
    destruct features; [|discriminate K].
    injection K as -> -> -> -> -> -> -> ->.
    repeat split.
Qed.

Lemma trainer_reads_analyzer_features_witness :
  let features :=
    [("motion_mean", 4); ("motion_std", 1); ("motion_max", 9);
     ("brightness_mean", 120); ("brightness_std", 3);
     ("color_variance_mean", 2500); ("edge_density_mean", 0.07);
     ("edge_density_std", 0.01)]%string%Q in
  map fst features = video_feature_names /\
  _is_audio_features features = false /\
  _extract_feature_vector features
  = [0; 0; 0; 0; 0; 0; 0; 0; 0; 0; 4; 1; 0; 0; 120]%Q.
Proof.
  split; [reflexivity|].
  destruct (proj2 (trainer_reads_analyzer_features
                     [("motion_mean", 4); ("motion_std", 1);
                      ("motion_max", 9); ("brightness_mean", 120);
                      ("brightness_std", 3); ("color_variance_mean", 2500);
                      ("edge_density_mean", 0.07);
                      ("edge_density_std", 0.01)]%string%Q) eq_refl)
    as (A & _ & V).
  split; [exact A | exact V].
Defined.

(** [training_data['audio']] or [training_data['video']] *)
Definition samples_for (ty : Modality) (data : TrainingData * TrainingData)
  : TrainingData :=
  match ty with audio => fst data | video => snd data end.

Definition saved_for {sk : Sklearn} (ty : Modality) (data : ModelData)
  : SavedModality :=
  match ty with audio => saved_audio data | video => saved_video data end.

Lemma prepare_training_data_width (ty : Modality) (db : ClipDatabase) n :
  np_shape1 (td_features (samples_for ty (prepare_training_data db)))
  = Some n ->
  n = 15%nat.
Proof.
  rewrite prepare_training_data_eq.
  assert (W : forall samples : list (Features * Z),
             np_shape1 (td_features (as_training samples)) = Some n ->
             n = 15%nat).
  { intros [|[f stars] samples]; unfold as_training;
      cbn [td_features map np_shape1 fst]; [discriminate|].
    rewrite _extract_feature_vector_length.
    destruct (forallb _ _); congruence. }
  destruct ty; apply W.
Qed.

Lemma fit_from_ratings_stores {sk : Sklearn} (samples : TrainingData) s :
  fit_from_ratings samples = Some s ->
  saved_training s = samples /\
  saved_feature_count s = np_shape1 (td_features samples).
Proof.
  unfold fit_from_ratings.
  destruct (scaler_fit _ _) as [sc|]; [|discriminate].
  destruct (scaler_transform _ _) as [X|]; [|discriminate].
  destruct (regressor_fit _ _ _) as [r|]; [|discriminate].
  destruct (np_shape1 _) as [n|]; [|discriminate].
  intro E. injection E as <-. now split.
Qed.

Lemma train_from_ratings_saved {sk : Sklearn} (ty : Modality)
      (db : ClipDatabase) (file : ModelFile) (data : ModelData) :
  train_from_ratings 10 db file = (true, Some data) ->
  (10 <= length (td_features (samples_for ty (prepare_training_data db))))%nat ->
  saved_training (saved_for ty data)
  = samples_for ty (prepare_training_data db) /\
  saved_feature_count (saved_for ty data) = Some 15%nat.
Proof.
  intros T Enough.
  assert (G : forall samples,
             (10 <= length (td_features samples))%nat ->
             train_branch 10 samples
             = option_map Some (fit_from_ratings samples)).
  { intros samples L. unfold train_branch.
    assert (B : (10 <=? Z.of_nat (length (td_features samples)))%Z = true)
      by (apply Z.leb_le; lia).
    now rewrite B. }
  assert (F : forall s,
             fit_from_ratings (samples_for ty (prepare_training_data db))
             = Some s ->
             saved_training s = samples_for ty (prepare_training_data db) /\
             saved_feature_count s = Some 15%nat).
  { intros s Fit. destruct (fit_from_ratings_stores _ _ Fit) as [E1 E2].
    split; [exact E1|]. rewrite E2.
    destruct (np_shape1 _) as [n|] eqn:Sh.
    - now rewrite (prepare_training_data_width ty db n Sh).
    - unfold fit_from_ratings in Fit. rewrite Sh in Fit.
      destruct (scaler_fit _ _); [|discriminate].
      destruct (scaler_transform _ _); [|discriminate].
      destruct (regressor_fit _ _ _); discriminate. }
  unfold train_from_ratings, train_from_ratings_body in T.
  destruct ty; simpl in Enough, F |- *.
  - rewrite (G _ Enough) in T.
    destruct (fit_from_ratings (fst (prepare_training_data db)))
      as [s|] eqn:Fit; simpl in T; [|discriminate T].
    destruct (train_branch 10 (snd (prepare_training_data db)))
      as [v|]; [|discriminate T].
    simpl in T. injection T as <-. simpl. now apply F.
  - destruct (train_branch 10 (fst (prepare_training_data db)))
      as [a|]; [|discriminate T].
    rewrite (G _ Enough) in T.
    destruct (fit_from_ratings (snd (prepare_training_data db)))
      as [s|] eqn:Fit; simpl in T; [|discriminate T].
    rewrite orb_true_r in T. injection T as <-. simpl. now apply F.
Qed.

(** X10: a model that [train_from_ratings] has trained for a modality is
    loaded as a trained model that expects fifteen features.  The first
    score it is asked for on a dictionary of another size, as the
    analyzers' dictionaries of 17 and 8 features are, is 0.0, and the
    modality is reset to a new, untrained model with no samples: what was
    learned from the ratings is dropped. *)
Theorem rating_trained_model_is_reset {sk : Sklearn} (ty : Modality)
        (db : ClipDatabase) (file : ModelFile) (data : ModelData)
        (features : Features) :
  train_from_ratings 10 db file = (true, Some data) ->
  (10 <= length (td_features (samples_for ty (prepare_training_data db))))%nat ->
  length features <> 15%nat ->
  let m := load_model (Some data) in
  Trained (slot ty m) 15 /\
  fst (predict_score ty features m) = 0%Q /\
  slot ty (snd (predict_score ty features m)) = fresh_modality.
Proof.
  intros T Enough Size.
  destruct (train_from_ratings_saved ty db file data T Enough) as [Tr Fc].
  assert (L : (10 <=? length (td_features (saved_training
                                             (saved_for ty data))))%nat
              = true) by (rewrite Tr; now apply Nat.leb_le).
  assert (M : negb (Nat.eqb (length (_dict_to_vector features)) 15) = true).
  { unfold _dict_to_vector. rewrite length_map.
    now apply negb_true_iff, Nat.eqb_neq. }
  destruct ty; simpl in *.
  - split.
    { repeat split; simpl; [exact L | now rewrite Tr | exact Fc]. }
    rewrite predict_audio_mismatch; simpl.
    + now split.
    + reflexivity.
    + unfold sample_starved. simpl. rewrite L. simpl.
      apply Nat.ltb_ge. now rewrite Tr.
    + unfold mismatch. simpl. now rewrite Fc.
  - split.
    { repeat split; simpl; [exact L | now rewrite Tr | exact Fc]. }
    rewrite predict_video_mismatch; simpl.
    + now split.
    + reflexivity.
    + unfold sample_starved. simpl. rewrite L. simpl.
      apply Nat.ltb_ge. now rewrite Tr.
    + unfold mismatch. simpl. now rewrite Fc.
Qed.

Lemma rating_trained_model_is_reset_witness :
  exists data,
    train_from_ratings 10 (rated_table 10) None = (true, Some data) /\
    fst (predict_score audio two_features (load_model (Some data))) = 0%Q /\
    slot audio (snd (predict_score audio two_features
                                   (load_model (Some data))))
    = fresh_modality.
Proof.
  destruct (train_from_ratings 10 (rated_table 10) None)
    as [ok [data|]] eqn:T; [|vm_compute in T; discriminate T].
  assert (Ok : ok = true) by (vm_compute in T; congruence).
  subst ok. exists data. split; [reflexivity|].
  assert (Enough : (10 <= length (td_features
                                    (samples_for audio
                                       (prepare_training_data
                                          (rated_table 10)))))%nat)
    by (vm_compute; apply Nat.le_refl).
  assert (Size : length two_features <> 15%nat) by discriminate.
  exact (proj2 (rating_trained_model_is_reset
                  audio (rated_table 10) None data two_features
                  T Enough Size)).
Defined.

End trainer_facts.

(** ** What every operation keeps true of the learned model *)

Module model_facts.
Section Invariant.
Context {sk : Sklearn}.

(** The samples of a modality are aligned when there is one score for
    each feature vector; a scaler counts as fitted only on ten samples or
    more. *)
Definition slot_ok (s : ModalityModel) : Prop :=
  length (td_scores (training_data s))
  = length (td_features (training_data s)) /\
  (scaler_fitted s = true ->
   (10 <= length (td_features (training_data s)))%nat).

Definition model_ok (m : MLHighlightModel) : Prop :=
  slot_ok (audio_slot m) /\ slot_ok (video_slot m).

Lemma fresh_modality_ok : slot_ok fresh_modality.
Proof. split; [reflexivity | discriminate]. Qed.

Lemma set_cache_ok c m : model_ok m -> model_ok (set_cache c m).
Proof. intro H. exact H. Qed.

Lemma _reset_model_ok ty m : model_ok m -> model_ok (_reset_model ty m).
Proof.
  intros [Ha Hv]. destruct ty; split; simpl;
    assumption || apply fresh_modality_ok.
Qed.

Lemma predict_score_ok ty features m :
  model_ok m -> model_ok (snd (predict_score ty features m)).
Proof.
  intro H. destruct ty; simpl.
  - unfold predict_audio_score, try_except, predict_audio_score_body,
      bind, get, modify, ret, lift.
    destruct (cache_lookup _ _); simpl; [exact H|].
    destruct (sample_starved _); simpl; [exact H|].
    destruct (mismatch _ _); simpl;
      [exact (_reset_model_ok audio m H)|].
    destruct (ensemble_score _ _); simpl; exact H.
  - unfold predict_video_score, try_except, predict_video_score_body,
      bind, get, modify, ret, lift.
    destruct (cache_lookup _ _); simpl; [exact H|].
    destruct (sample_starved _); simpl; [exact H|].
    destruct (mismatch _ _); simpl; [exact (_reset_model_ok video m H)|].
    destruct (ensemble_score _ _); simpl; exact H.
Qed.

Lemma add_training_sample_ok features score ty m :
  model_ok m -> model_ok (add_training_sample features score ty m).
Proof.
  intros [[Aa Fa] [Av Fv]]. unfold add_training_sample.
  destruct ty; split; split; simpl; try assumption;
    rewrite ?length_app; simpl; try lia.
  - intro F. specialize (Fa F). lia.
  - intro F. specialize (Fv F). lia.
Qed.

(** One modality's retrain keeps the invariant at every point where it
    may stop; when it runs to its end, the scaler is fitted exactly when
    there are ten samples or more. *)
Lemma retrain_modality_ok ty m :
  model_ok m ->
  model_ok (snd (retrain_modality ty m)) /\
  training_data (slot ty (snd (retrain_modality ty m)))
  = training_data (slot ty m) /\
  (fst (retrain_modality ty m) = Some tt ->
   scaler_fitted (slot ty (snd (retrain_modality ty m)))
   = (10 <=? length (td_features (training_data (slot ty m))))%nat).
Proof.
  intros [[Aa Fa] [Av Fv]].
  unfold retrain_modality, bind, get, modify, lift, ret.
  destruct (Nat.leb 10 _) eqn:E; simpl.
  - apply Nat.leb_le in E.
    destruct (np_shape1 _); simpl;
      [|destruct ty; repeat split; simpl; try assumption; discriminate].
    destruct (scaler_fit _ _); simpl;
      [|destruct ty; repeat split; simpl; try assumption; discriminate].
    destruct (scaler_transform _ _); simpl;
      [|destruct ty; repeat split; simpl; try assumption; discriminate].
    destruct (regressor_fit _ _ _); simpl;
      destruct ty; repeat split; simpl; try assumption; try discriminate;
      intros _; assumption.
  - apply Nat.leb_gt in E.
    destruct ty; repeat split; simpl in *; try assumption; intros _.
    + destruct (scaler_fitted (audio_slot m)); [|reflexivity].
      specialize (Fa eq_refl). lia.
    + destruct (scaler_fitted (video_slot m)); [|reflexivity].
      specialize (Fv eq_refl). lia.
Qed.

Lemma loaded_saved_modality (s : ModalityModel) :
  scaler_fitted s
  = (10 <=? length (td_features (training_data s)))%nat ->
  loaded_modality (saved_of s) = s.
Proof.
  destruct s as [r sc fitted td n]. unfold loaded_modality, saved_of.
  simpl. intro F. now rewrite <- F.
Qed.

Lemma retrain_outcome m file :
  (exists m1,
      retrain_modality audio m = (None, m1) /\
      retrain_body (m, file) = (None, (m1, file))) \/
  (exists m1 m2,
      retrain_modality audio m = (Some tt, m1) /\
      retrain_modality video m1 = (None, m2) /\
      retrain_body (m, file) = (None, (m2, file))) \/
  (exists m1 m2,
      retrain_modality audio m = (Some tt, m1) /\
      retrain_modality video m1 = (Some tt, m2) /\
      retrain_body (m, file) = (Some tt, (m2, save_model m2))).
Proof.
  unfold retrain_body, bind, on_model, modify. simpl.
  destruct (retrain_modality audio m) as [[[]|] m1] eqn:E1; simpl.
  - destruct (retrain_modality video m1) as [[[]|] m2] eqn:E2; simpl.
    + right. right. now exists m1, m2.
    + right. left. now exists m1, m2.
  - left. now exists m1.
Qed.

(** X11: a model whose samples are aligned (one score for each feature
    vector) and whose scalers count as fitted only on ten samples or
    more stays so under every operation of [MLHighlightModel]: a
    prediction for either modality, a new training sample, a retrain
    whether or not it raises, and a save followed by a load.  For such a
    model the sample count in the guard of the predictions never
    decides: the guard holds exactly when the scaler is not fitted. *)
Theorem model_invariant_preserved (m : MLHighlightModel) :
  model_ok m ->
  (forall ty features, model_ok (snd (predict_score ty features m))) /\
  (forall features score ty,
      model_ok (add_training_sample features score ty m)) /\
  (forall file, model_ok (fst (retrain m file))) /\
  model_ok (load_model (save_model m)) /\
  (forall ty,
      sample_starved (slot ty m) = negb (scaler_fitted (slot ty m))).
Proof.
  intro H. split; [|split; [|split; [|split]]].
  - intros ty features. now apply predict_score_ok.
  - intros features score ty. now apply add_training_sample_ok.
  - intro file. unfold retrain, try_except.
    destruct (retrain_outcome m file)
      as [(m1 & E1 & ->)|[(m1 & m2 & E1 & E2 & ->)
                         |(m1 & m2 & E1 & E2 & ->)]]; simpl.
    + pose proof (retrain_modality_ok audio m H) as K.
      rewrite E1 in K. apply K.
    + pose proof (retrain_modality_ok audio m H) as K.
      rewrite E1 in K. destruct K as [K _].
      pose proof (retrain_modality_ok video m1 K) as K2.
      rewrite E2 in K2. apply K2.
    + pose proof (retrain_modality_ok audio m H) as K.
      rewrite E1 in K. destruct K as [K _].
      pose proof (retrain_modality_ok video m1 K) as K2.
      rewrite E2 in K2. apply K2.
  - destruct H as [[Aa _] [Av _]]. split; split; simpl;
      try assumption; intro F; exact (proj1 (Nat.leb_le 10 _) F).
  - intro ty. unfold sample_starved.
    assert (S : slot_ok (slot ty m)) by (destruct ty; apply H).
    destruct S as [_ F].
    destruct (scaler_fitted (slot ty m)); [|reflexivity].
    simpl. apply Nat.ltb_ge. now apply F.
Qed.

(** X12: a retrain of such a model either raises, and then the model
    file is left as it was, or runs to its end, and then the file holds
    the model as it is in memory: loading it gives back both modalities
    unchanged (model, scaler, fitted flag, samples and expected feature
    count) with an empty prediction cache. *)
Theorem retrain_save_load_round_trip (m : MLHighlightModel)
        (file : ModelFile) :
  model_ok m ->
  let m' := fst (retrain m file) in
  let file' := snd (retrain m file) in
  (fst (retrain_body (m, file)) = None -> file' = file) /\
  (fst (retrain_body (m, file)) = Some tt ->
   file' = save_model m' /\
   audio_slot (load_model file') = audio_slot m' /\
   video_slot (load_model file') = video_slot m' /\
   cache (load_model file') = []).
Proof.
  intro H. unfold retrain, try_except.
  destruct (retrain_outcome m file)
    as [(m1 & E1 & ->)|[(m1 & m2 & E1 & E2 & ->)
                       |(m1 & m2 & E1 & E2 & ->)]]; simpl.
  - split; [reflexivity | discriminate].
  - split; [reflexivity | discriminate].
  - split; [discriminate|]. intros _.
    pose proof (retrain_modality_ok audio m H) as K.
    rewrite E1 in K. simpl in K. destruct K as (K & Ta & Fa).
    pose proof (retrain_modality_ok video m1 K) as K2.
    rewrite E2 in K2. simpl in K2. destruct K2 as (K2 & Tv & Fv).
    pose proof (retrain_modality_frame video m1) as Fr.
    rewrite E2 in Fr. simpl in Fr. destruct Fr as [_ Fr].
    split; [reflexivity|]. split; [|split; [|reflexivity]].
    + apply loaded_saved_modality. rewrite Fr, Ta. now apply Fa.
    + apply loaded_saved_modality. rewrite Tv. now apply Fv.
Qed.

End Invariant.

Lemma model_invariant_preserved_witness :
  model_ok (load_model None) /\
  model_ok (trained_on_two (load_model None)) /\
  sample_starved (slot audio (trained_on_two (load_model None))) = false.
Proof.
  assert (H0 : model_ok (load_model None))
    by (split; apply fresh_modality_ok).
  assert (H : model_ok (trained_on_two (load_model None))).
  { unfold model_ok, slot_ok. vm_compute.
    repeat split; try discriminate; intros _; apply le_n. }
  split; [exact H0|]. split; [exact H|].
  destruct (model_invariant_preserved (trained_on_two (load_model None)) H)
    as (_ & _ & _ & _ & S).
  rewrite (S audio). reflexivity.
Defined.

Lemma retrain_save_load_round_trip_witness :
  let m := Nat.iter 10 (add_training_sample two_features 0.7 audio)
                    (load_model None) in
  model_ok m /\
  fst (retrain_body (m, None)) = Some tt /\
  audio_slot (load_model (snd (retrain m None)))
  = audio_slot (fst (retrain m None)).
Proof.
  assert (H : model_ok
                (Nat.iter 10 (add_training_sample two_features 0.7 audio)
                          (load_model None))).
  { vm_compute. repeat split; discriminate. }
  assert (R : fst (retrain_body
                     (Nat.iter 10 (add_training_sample two_features 0.7 audio)
                               (load_model None), None)) = Some tt)
    by (vm_compute; reflexivity).
  split; [exact H|]. split; [exact R|].
  exact (proj1 (proj2 (proj2 (retrain_save_load_round_trip _ None H) R))).
Defined.
End model_facts.

(** ** The pass over a stream: what [process_stream] hands back *)

Module pipeline_facts.
Section Pass.
Context {sk : Sklearn} {an : Analyzers}.
Variables chunk_duration overlap min_gap : Q.
Variable download_ok : nat -> bool.

(** The chunks that a run of the generator has yielded when it ends. *)
Definition yielded (g : Generated) : list ChunkInfo :=
  match g with
  | Chunks chunks => chunks
  | ZeroDivisionError => []
  end.

(** A candidate of modality [ty] built from one of [chunks]. *)
Definition from_chunk (chunks : list ChunkInfo) (ty : Modality)
           (h : Highlight) : Prop :=
  type h = ty /\
  exists c, In c chunks /\
            start_time h = chunk_start_time c /\
            timestamp h = now (chunk_index c) ty.

Lemma score_chunk_from_chunk chunks p c :
  In c chunks ->
  Forall (from_chunk chunks audio) (audio_highlights p) ->
  Forall (from_chunk chunks video) (video_highlights p) ->
  Forall (from_chunk chunks audio)
         (audio_highlights (score_chunk chunk_duration p c)) /\
  Forall (from_chunk chunks video)
         (video_highlights (score_chunk chunk_duration p c)).
Proof.
  intros Hc Ha Hv. unfold score_chunk, score_video, score_audio.
  assert (New : forall ty e s f,
             from_chunk chunks ty
               (mkHighlight (chunk_start_time c) e s ty f
                            (now (chunk_index c) ty))).
  { intros ty e s f. split; [reflexivity|]. exists c. now repeat split. }
  destruct (truthy (extract_audio_features _)) as [fa|];
    destruct (truthy (extract_video_features _)) as [fv|]; simpl.
  - destruct (predict_audio_score _ _) as [sa ma]. simpl.
    destruct (predict_video_score _ _) as [sv mv]. simpl.
    split; apply Forall_app; split; try assumption;
      constructor; [apply New | constructor | apply New | constructor].
  - destruct (predict_audio_score _ _) as [sa ma]. simpl.
    split; [|assumption].
    apply Forall_app; split; try assumption.
    constructor; [apply New | constructor].
  - destruct (predict_video_score _ _) as [sv mv]. simpl.
    split; [assumption|].
    apply Forall_app; split; try assumption.
    constructor; [apply New | constructor].
  - now split.
Qed.

Lemma fold_score_chunk_from_chunk chunks : forall cs p,
  (forall c, In c cs -> In c chunks) ->
  Forall (from_chunk chunks audio) (audio_highlights p) ->
  Forall (from_chunk chunks video) (video_highlights p) ->
  Forall (from_chunk chunks audio)
         (audio_highlights (fold_left (score_chunk chunk_duration) cs p)) /\
  Forall (from_chunk chunks video)
         (video_highlights (fold_left (score_chunk chunk_duration) cs p)).
Proof.
  induction cs as [|c cs IH]; simpl; intros p Sub Ha Hv; [now split|].
  destruct (score_chunk_from_chunk chunks p c (Sub c (or_introl eq_refl))
                                   Ha Hv) as [Ha' Hv'].
  apply IH; [|assumption|assumption].
  intros c' Hc'. apply Sub. now right.
Qed.

Lemma selection_cap highlights (max_clips : Z) :
  (length (_filter_highlights min_gap highlights 10
                              (Some (clamp_max_clips max_clips)))
   <= 10)%nat /\
  (Z.of_nat (length (_filter_highlights min_gap highlights 10
                                        (Some (clamp_max_clips max_clips))))
   <= Z.max 1 max_clips)%Z.
Proof.
  pose proof (_filter_highlights_length min_gap highlights 10
                (Some (clamp_max_clips max_clips))) as H.
  set (n := length _) in *. clearbody n.
  unfold effective_top_n, clamp_max_clips, config.MAX_CLIPS_PER_TYPE in H.
  split; lia.
Qed.

(** X13: whatever limits the caller asks for, [process_stream] returns at
    most ten highlights of each kind (the limit of 25 in its signature is
    never reached), and no more than the caller's limit once that is at
    least one.  Every highlight it returns has the kind of its list and
    was built from a chunk that the scheduler yielded: it starts where
    that chunk starts and carries the time stamp taken for the highlight
    of its kind of that chunk. *)
Theorem process_stream_caps
        (fuel : nat) (info : option Q) (max_audio_clips max_video_clips : Z)
        (start_minute end_minute : option Q)
        (ml : MLHighlightModel) (file : ModelFile)
        (audio_list video_list : list Highlight)
        (ml' : MLHighlightModel) (file' : ModelFile) :
  process_stream chunk_duration overlap min_gap download_ok fuel info
                 max_audio_clips max_video_clips start_minute end_minute
                 ml file
  = Some (audio_list, video_list, ml', file') ->
  (length audio_list <= 10)%nat /\
  (length video_list <= 10)%nat /\
  (Z.of_nat (length audio_list) <= Z.max 1 max_audio_clips)%Z /\
  (Z.of_nat (length video_list) <= Z.max 1 max_video_clips)%Z /\
  exists g,
    process_stream_chunks chunk_duration overlap download_ok fuel info
                          start_minute end_minute = Some g /\
    Forall (from_chunk (yielded g) audio) audio_list /\
    Forall (from_chunk (yielded g) video) video_list.
Proof.
  unfold process_stream.
  destruct (process_stream_chunks _ _ _ _ _ _ _) as [[chunks|]|];
    [| |discriminate].
  2:{ intro E. injection E as <- <- _ _. simpl.
      repeat (split; [lia|]).
      exists ZeroDivisionError. repeat split; constructor. }
  set (p := fold_left (score_chunk chunk_duration) chunks (mkPass ml [] [])).
  destruct (retrain (ml_model p) file) as [m1 f1].
  intro E. injection E as <- <- _ _.
  destruct (selection_cap (audio_highlights p) max_audio_clips) as [A1 A2].
  destruct (selection_cap (video_highlights p) max_video_clips) as [V1 V2].
  repeat (split; [assumption|]).
  exists (Chunks chunks). split; [reflexivity|]. simpl.
  destruct (fold_score_chunk_from_chunk chunks chunks (mkPass ml [] []))
    as [Ha Hv]; [auto | constructor | constructor |].
  fold p in Ha, Hv. rewrite Forall_forall in Ha, Hv.
  split; apply Forall_forall; intros h Hh;
    apply _filter_highlights_In in Hh; auto.
Qed.

Definition score_nonneg (h : Highlight) : Prop := (0 <= score h)%Q.

Definition pass_ok (p : Pass) : Prop :=
  model_facts.model_ok (ml_model p) /\
  cache_nonneg (cache (ml_model p)) /\
  Forall score_nonneg (audio_highlights p) /\
  Forall score_nonneg (video_highlights p).

Lemma combined_score_nonneg (h m : Q) :
  (0 <= h)%Q -> (0 <= m)%Q -> (0 <= combined_score h m)%Q.
Proof.
  intros Hh Hm. unfold combined_score. destruct (Qltb 0 m); lra.
Qed.

Lemma add_training_sample_cache features s ty m :
  cache (add_training_sample features s ty m) = cache m.
Proof. now destruct ty. Qed.

Lemma retrain_cache m file : cache (fst (retrain m file)) = cache m.
Proof.
  unfold retrain, try_except.
  destruct (model_facts.retrain_outcome m file)
    as [(m1 & E1 & ->)|[(m1 & m2 & E1 & E2 & ->)
                       |(m1 & m2 & E1 & E2 & ->)]]; simpl.
  - pose proof (retrain_modality_frame audio m) as F.
    rewrite E1 in F. apply F.
  - pose proof (retrain_modality_frame audio m) as F.
    rewrite E1 in F. destruct F as [<- _].
    pose proof (retrain_modality_frame video m1) as F.
    rewrite E2 in F. apply F.
  - pose proof (retrain_modality_frame audio m) as F.
    rewrite E1 in F. destruct F as [<- _].
    pose proof (retrain_modality_frame video m1) as F.
    rewrite E2 in F. apply F.
Qed.

Section Heuristics.
Hypothesis audio_heuristic_nonneg :
  forall f, (0 <= detect_audio_highlights f)%Q.
Hypothesis video_heuristic_nonneg :
  forall f, (0 <= detect_video_highlights f)%Q.

Lemma score_audio_ok c p :
  pass_ok p -> pass_ok (score_audio chunk_duration c p).
Proof.
  intros (M & C & A & V). unfold score_audio.
  destruct (truthy (extract_audio_features _)) as [fa|];
    [|exact (conj M (conj C (conj A V)))].
  destruct (predict_audio_nonneg fa (ml_model p) C) as [S C'].
  pose proof (model_facts.predict_score_ok audio fa (ml_model p) M) as M'.
  simpl in M'.
  destruct (predict_audio_score fa (ml_model p)) as [s m1].
  unfold pass_ok.
  cbn [ml_model audio_highlights video_highlights fst snd] in *.
  split; [now apply model_facts.add_training_sample_ok|].
  split; [now rewrite add_training_sample_cache|].
  split; [|exact V].
  apply Forall_app. split; [exact A|].
  constructor; [|constructor].
  apply combined_score_nonneg; [apply audio_heuristic_nonneg | exact S].
Qed.

Lemma score_video_ok c p :
  pass_ok p -> pass_ok (score_video chunk_duration c p).
Proof.
  intros (M & C & A & V). unfold score_video.
  destruct (truthy (extract_video_features _)) as [fv|];
    [|exact (conj M (conj C (conj A V)))].
  destruct (predict_video_nonneg fv (ml_model p) C) as [S C'].
  pose proof (model_facts.predict_score_ok video fv (ml_model p) M) as M'.
  simpl in M'.
  destruct (predict_video_score fv (ml_model p)) as [s m1].
  unfold pass_ok.
  cbn [ml_model audio_highlights video_highlights fst snd] in *.
  split; [now apply model_facts.add_training_sample_ok|].
  split; [now rewrite add_training_sample_cache, C'|].
  split; [exact A|].
  apply Forall_app. split; [exact V|].
  constructor; [|constructor].
  apply combined_score_nonneg; [apply video_heuristic_nonneg | exact S].
Qed.

Lemma fold_score_chunk_ok chunks : forall p,
  pass_ok p -> pass_ok (fold_left (score_chunk chunk_duration) chunks p).
Proof.
  induction chunks as [|c chunks IH]; simpl; intros p H; [exact H|].
  apply IH. unfold score_chunk. now apply score_video_ok, score_audio_ok.
Qed.


End Heuristics.
End Pass.

Lemma process_stream_caps_witness :
  exists audio_list video_list ml' file',
    process_stream 45 3 10 (fun _ => true) 10 (Some 86) 25 25 None None
                   (load_model None) None
    = Some (audio_list, video_list, ml', file') /\
    (length audio_list <= 10)%nat /\
    (Z.of_nat (length audio_list) <= Z.max 1 25)%Z.
Proof.
  destruct (process_stream 45 3 10 (fun _ => true) 10 (Some 86) 25 25
                           None None (load_model None) None)
    as [[[[audio_list video_list] ml'] file']|] eqn:E;
    [|vm_compute in E; discriminate E].
  exists audio_list, video_list, ml', file'.
  split; [reflexivity|].
  destruct (process_stream_caps 45 3 10 (fun _ => true) 10 (Some 86) 25 25
                                None None (load_model None) None
                                audio_list video_list ml' file' E)
    as (A & _ & B & _).
  split; [exact A | exact B].
Defined.

End pipeline_facts.

(** ** The retrying HTTP session ([RetrySession]) *)

Module RetrySession.

(** What one [session.get] does: a response with status 403, a response
    that [raise_for_status] accepts, or a [RequestException] (raised by
    the request or by [raise_for_status]). *)
Inductive Reply : Type :=
| Status403
| Success (response : string)
| Failure (error : string).

(** The session as [get] changes it: the [User-Agent] header, the waits
    passed to [time.sleep] in order, and the requests sent. *)
Record Session : Type := mkSession {
  user_agent : string;
  slept : list Z;
  requests : nat
}.

Inductive Outcome : Type :=
| Returned (response : string)
| Raised (error : string)
| MaxRetriesExceeded
| ValueError.

Definition user_agents : list string :=
  ["Mozilla/5.0 (Windows NT 10.0; Win64; x64) AppleWebKit/537.36";
   "Mozilla/5.0 (Macintosh; Intel Mac OS X 10_15_7) AppleWebKit/537.36";
   "Mozilla/5.0 (X11; Linux x86_64) AppleWebKit/537.36"]%string.

Section Get.
(** The server: its reply to the request of a given attempt, sent with a
    given [User-Agent]. *)
Variable server : nat -> string -> Reply.
Variables max_retries backoff_factor : Z.

Definition sleep (wait_time : Z) (s : Session) : Session :=
  mkSession (user_agent s) (slept s ++ [wait_time]) (requests s).

Definition sent (s : Session) : Session :=
  mkSession (user_agent s) (slept s) (S (requests s)).

Definition rotate (attempt : nat) (s : Session) : Session :=
  mkSession (nth (attempt mod length user_agents) user_agents EmptyString)
            (slept s) (requests s).

(** The loop of [get] from [attempt] on, with [remaining] iterations of
    [range(self.max_retries)] left.  [time.sleep] raises [ValueError] on
    a negative wait, which no handler of [get] catches. *)
Fixpoint attempts (remaining attempt : nat) (s : Session)
  : Outcome * Session :=
  match remaining with
  | O => (MaxRetriesExceeded, s)
  | S remaining' =>
      let wait_time := (backoff_factor ^ Z.of_nat attempt)%Z in
      match server attempt (user_agent s) with
      | Status403 =>
          if (wait_time <? 0)%Z then (ValueError, sent s)
          else attempts remaining' (S attempt)
                        (rotate attempt (sleep wait_time (sent s)))
      | Success response => (Returned response, sent s)
      | Failure error =>
          if (Z.of_nat attempt =? max_retries - 1)%Z
          then (Raised error, sent s)
          else if (wait_time <? 0)%Z then (ValueError, sent s)
               else attempts remaining' (S attempt)
                             (sleep wait_time (sent s))
      end
  end.

Definition get (s : Session) : Outcome * Session :=
  attempts (Z.to_nat max_retries) 0 s.

(** The [User-Agent] of the request of attempt [attempt + i], when that of
    attempt [attempt] is [agent]: it changes after each 403. *)
Fixpoint agent_from (attempt : nat) (agent : string) (i : nat) : string :=
  match i with
  | O => agent
  | S i' =>
      agent_from (S attempt)
                 (match server attempt agent with
                  | Status403 =>
                      nth (attempt mod length user_agents) user_agents
                          EmptyString
                  | _ => agent
                  end)
                 i'
  end.

(** An answer after which [get] tries again. *)
Definition retried (reply : Reply) : Prop :=
  match reply with
  | Status403 | Failure _ => True
  | Success _ => False
  end.

(** The waits before attempts [from], ..., [from + n - 1] are retried. *)
Definition waits (from n : nat) : list Z :=
  map (fun attempt => (backoff_factor ^ Z.of_nat attempt)%Z) (seq from n).

Lemma waits_cons from n :
  waits from (S n) = (backoff_factor ^ Z.of_nat from)%Z :: waits (S from) n.
Proof. reflexivity. Qed.

Lemma attempts_spec (remaining : nat) : forall attempt s,
  (0 <= backoff_factor)%Z ->
  Z.of_nat (attempt + remaining) = Z.max 0 max_retries ->
  exists k,
    slept (snd (attempts remaining attempt s))
    = slept s ++ waits attempt k /\
    user_agent (snd (attempts remaining attempt s))
    = agent_from attempt (user_agent s) k /\
    (forall i, (i < k)%nat ->
       retried (server (attempt + i)
                       (agent_from attempt (user_agent s) i))) /\
    match fst (attempts remaining attempt s) with
    | Returned response =>
        (k < remaining)%nat /\
        requests (snd (attempts remaining attempt s))
        = (requests s + k + 1)%nat /\
        server (attempt + k) (agent_from attempt (user_agent s) k)
        = Success response
    | Raised error =>
        (k + 1 = remaining)%nat /\
        requests (snd (attempts remaining attempt s))
        = (requests s + remaining)%nat /\
        server (attempt + k) (agent_from attempt (user_agent s) k)
        = Failure error
    | MaxRetriesExceeded =>
        k = remaining /\
        requests (snd (attempts remaining attempt s))
        = (requests s + remaining)%nat /\
        (remaining = 0%nat \/
         server (attempt + (remaining - 1))
                (agent_from attempt (user_agent s) (remaining - 1))
         = Status403)
    | ValueError => False
    end.
Proof.
  induction remaining as [|remaining IH]; intros attempt s B Hn.
  - exists 0%nat. simpl. rewrite app_nil_r.
    repeat split; try lia.
  - assert (W : (backoff_factor ^ Z.of_nat attempt <? 0)%Z = false).
    { apply Z.ltb_ge. apply Z.pow_nonneg. exact B. }
    simpl. rewrite W.
    destruct (server attempt (user_agent s)) as [|response|error] eqn:R.
    + destruct (IH (S attempt)
                   (rotate attempt
                      (sleep (backoff_factor ^ Z.of_nat attempt) (sent s)))
                   B)
        as (k & Sl & Ua & Re & Out); [lia|].
      exists (S k). simpl agent_from. rewrite R.
      simpl user_agent in Ua, Re, Out.
      split; [rewrite Sl, waits_cons; simpl; now rewrite <- app_assoc|].
      split; [exact Ua|]. split.
      { intros [|i] Hi.
        - rewrite Nat.add_0_r. simpl. now rewrite R.
        - simpl agent_from. rewrite R.
          replace (attempt + S i)%nat with (S attempt + i)%nat by lia.
          apply Re. lia. }
      destruct (attempts remaining (S attempt) _) as [[response|error| |] s'];
        simpl in *;
        replace (attempt + S k)%nat with (S (attempt + k)) by lia.
      * destruct Out as (K & Rq & Sv). repeat split; try lia. exact Sv.
      * destruct Out as (K & Rq & Sv). repeat split; try lia. exact Sv.
      * destruct Out as (K & Rq & Sv). repeat split; try lia. right.
        rewrite Nat.sub_0_r. destruct remaining as [|r'].
        -- rewrite Nat.add_0_r. simpl. exact R.
        -- destruct Sv as [Sv|Sv]; [discriminate Sv|].
           simpl agent_from. rewrite R. simpl in Sv.
           rewrite Nat.sub_0_r in Sv.
           now replace (attempt + S r')%nat with (S (attempt + r')) by lia.
      * exact Out.
    + exists 0%nat. simpl.
      repeat split; rewrite ?app_nil_r, ?Nat.add_0_r; try lia;
        try reflexivity; exact R.
    + destruct (Z.of_nat attempt =? max_retries - 1)%Z eqn:Last.
      * apply Z.eqb_eq in Last.
        exists 0%nat. simpl.
        repeat split; rewrite ?app_nil_r, ?Nat.add_0_r; try lia;
          try reflexivity; exact R.
      * apply Z.eqb_neq in Last.
        destruct (IH (S attempt)
                     (sleep (backoff_factor ^ Z.of_nat attempt) (sent s)) B)
          as (k & Sl & Ua & Re & Out); [lia|].
        exists (S k). simpl agent_from. rewrite R.
        simpl user_agent in Ua, Re, Out.
        split; [rewrite Sl, waits_cons; simpl; now rewrite <- app_assoc|].
        split; [exact Ua|]. split.
        { intros [|i] Hi.
          - rewrite Nat.add_0_r. simpl. now rewrite R.
          - simpl agent_from. rewrite R.
            replace (attempt + S i)%nat with (S attempt + i)%nat by lia.
            apply Re. lia. }
        destruct (attempts remaining (S attempt) _)
          as [[response|error'| |] s'];
          simpl in *;
          replace (attempt + S k)%nat with (S (attempt + k)) by lia.
        -- destruct Out as (K & Rq & Sv). repeat split; try lia. exact Sv.
        -- destruct Out as (K & Rq & Sv). repeat split; try lia. exact Sv.
        -- destruct Out as (K & Rq & Sv). repeat split; try lia. right.
           rewrite Nat.sub_0_r. destruct remaining as [|r']; [lia|].
           destruct Sv as [Sv|Sv]; [discriminate Sv|].
           simpl agent_from. rewrite R. simpl in Sv.
           rewrite Nat.sub_0_r in Sv.
           now replace (attempt + S r')%nat with (S (attempt + r')) by lia.
        -- exact Out.
Qed.

Definition total_wait (waited : list Z) : Z := fold_right Z.add 0%Z waited.

Lemma total_wait_app (l1 l2 : list Z) :
  total_wait (l1 ++ l2) = (total_wait l1 + total_wait l2)%Z.
Proof.
  unfold total_wait. induction l1 as [|x l1 IH]; simpl; [reflexivity|].
  rewrite IH. lia.
Qed.

Lemma total_wait_waits (k : nat) : forall from,
  (2 <= backoff_factor)%Z ->
  (total_wait (waits from k) + backoff_factor ^ Z.of_nat from
   <= backoff_factor ^ Z.of_nat (from + k))%Z.
Proof.
  induction k as [|k IH]; intros from B.
  - rewrite Nat.add_0_r. simpl. lia.
  - rewrite waits_cons. specialize (IH (S from) B).
    replace (from + S k)%nat with (S from + k)%nat by lia.
    assert (P : (0 < backoff_factor ^ Z.of_nat from)%Z)
      by (apply Z.pow_pos_nonneg; lia).
    assert (E : (backoff_factor ^ Z.of_nat (S from)
                 = backoff_factor * backoff_factor ^ Z.of_nat from)%Z).
    { rewrite Nat2Z.inj_succ. apply Z.pow_succ_r. lia. }
    change (total_wait (?x :: ?l)) with (x + total_wait l)%Z.
    nia.
Qed.


End Get.

(** A server that answers 403 to every request. *)
Definition always_403 (attempt : nat) (agent : string) : Reply := Status403.


End RetrySession.

(** ** The scheduler: what the yielded windows cover *)

Module scheduler_facts.

Lemma chunks_loop_result (L O : Q) (download_ok : nat -> bool)
      (fuel : nat) (e s : Q) (ws : list ChunkInfo) :
  (O < L)%Q ->
  chunks_loop L O download_ok fuel e s 0 = Some ws ->
  yields L O download_ok e s 0 ws.
Proof.
  intros HO Hws.
  assert (Hstep : (0 < step L O)%Q) by (unfold step; lra).
  destruct (chunks_loop_yields L O download_ok Hstep (steps_bound L O s e)
              e s 0%nat (steps_bound_enough L O Hstep s e))
    as (ws' & Hws' & Y).
  set (big := Nat.max fuel (S (steps_bound L O s e))).
  pose proof (chunks_loop_fuel L O download_ok _ big _ _ _ _ Hws
                               (Nat.le_max_l _ _)) as E1.
  pose proof (chunks_loop_fuel L O download_ok _ big _ _ _ _ Hws'
                               (Nat.le_max_r _ _)) as E2.
  rewrite E1 in E2. injection E2 as ->. exact Y.
Qed.

Lemma window_of_instant (step s t : Q) :
  (0 < step)%Q -> (s <= t)%Q ->
  exists j : nat,
    (s + Qnat j * step <= t)%Q /\ (t < s + (Qnat j + 1) * step)%Q.
Proof.
  intros Hstep Hst.
  set (x := ((t - s) / step)%Q).
  assert (E : (t - s == x * step)%Q) by (unfold x; field; lra).
  assert (X0 : (0 <= x)%Q).
  { unfold x. apply Qle_shift_div_l; [exact Hstep | lra]. }
  assert (F0 : (0 <= Qfloor x)%Z).
  { change 0%Z with (Qfloor 0). now apply Qfloor_resp_le. }
  exists (Z.to_nat (Qfloor x)).
  assert (N : Qnat (Z.to_nat (Qfloor x)) = inject_Z (Qfloor x)).
  { unfold Qnat. now rewrite Z2Nat.id. }
  rewrite N.
  pose proof (Qfloor_le x) as Lo. pose proof (Qlt_floor x) as Hi.
  rewrite inject_Z_plus in Hi. change (inject_Z 1) with 1%Q in Hi.
  split.
  - assert (inject_Z (Qfloor x) * step <= x * step)%Q
      by (apply Qmult_le_compat_r; [exact Lo | lra]).
    lra.
  - assert (x * step < (inject_Z (Qfloor x) + 1) * step)%Q
      by (apply Qmult_lt_compat_r; [exact Hstep | exact Hi]).
    lra.
Qed.

(** X16: when every download succeeds and the overlap is not negative
    and shorter than the chunk, the windows that [process_stream_chunks]
    yields leave no gap: every instant from the start bound up to the end
    bound lies in one of them.  (A negative overlap, or a download that
    fails, leaves a stretch of the stream unseen.) *)
Theorem chunks_cover_range
        (L O : Q) (download_ok : nat -> bool) (fuel : nat)
        (duration : Q) (start_minute end_minute : option Q)
        (s e : Q) (ws : list ChunkInfo) :
  (0 <= O)%Q -> (O < L)%Q ->
  (forall i, download_ok i = true) ->
  time_range duration start_minute end_minute = Some (s, e) ->
  process_stream_chunks L O download_ok fuel (Some duration)
                        start_minute end_minute = Some (Chunks ws) ->
  forall t, (s <= t)%Q -> (t < e)%Q ->
    exists c, In c ws /\
              (chunk_start_time c <= t)%Q /\ (t < chunk_end_time c)%Q.
Proof.
  intros O0 HO Dl Range Run t Hs He.
  unfold process_stream_chunks in Run. rewrite Range in Run.
  destruct (Qeq_bool L 0); [discriminate Run|].
  destruct (chunks_loop L O download_ok fuel e s 0) as [ws'|] eqn:Loop;
    [|discriminate Run].
  injection Run as ->.
  destruct (chunks_loop_result L O download_ok fuel e s ws HO Loop)
    as (F & C & _).
  assert (Hstep : (0 < step L O)%Q) by (unfold step; lra).
  destruct (window_of_instant (step L O) s t Hstep Hs) as (j & Lo & Hi).
  destruct (C j) as (c & Ic & Ec); [lra | apply Dl |].
  exists c. split; [exact Ic|].
  rewrite Forall_forall in F.
  destruct (F c Ic) as (_ & _ & St & _ & Len).
  simpl in Ec. rewrite Ec, Nat.sub_0_r in St.
  unfold step in *.
  destruct (Q.min_spec L (e - chunk_start_time c)) as [[? M]|[? M]];
    rewrite M in Len; split; lra.
Qed.

Lemma chunks_cover_range_witness :
  exists c,
    In c [mkChunk 0 45 0; mkChunk 42 86 1; mkChunk 84 86 2] /\
    (chunk_start_time c <= 85)%Q /\ (85 < chunk_end_time c)%Q.
Proof.
  assert (O0 : (0 <= 3)%Q) by discriminate.
  assert (HO : (3 < 45)%Q) by reflexivity.
  assert (S : (0 <= 85)%Q) by discriminate.
  assert (E : (85 < 86)%Q) by reflexivity.
  exact (chunks_cover_range 45 3 (fun _ => true) 10 86 None None 0 86
           [mkChunk 0 45 0; mkChunk 42 86 1; mkChunk 84 86 2]
           O0 HO (fun _ => eq_refl) eq_refl eq_refl 85 S E).
Defined.

End scheduler_facts.

(** ** Listing clips: review queue and clean-up (clip_manager.py) *)

Module clip_review.
Import clip_manager clip_store.

(** [ORDER BY created_at DESC]: the text of [a] is not before that of [b].
    Rows with the same text keep their table order. *)
Definition newest_first (a b : ClipRecord) : bool :=
  String.leb (created_at b) (created_at a).

(** [LIMIT ?] takes the first rows, and all of them when the number is
    negative. *)
Definition sql_limit {A} (n : Z) (l : list A) : list A :=
  if (n <? 0)%Z then l else firstn (Z.to_nat n) l.

(** [l[:n]] *)
Definition slice_to {A} (n : Z) (l : list A) : list A :=
  if (n <? 0)%Z then firstn (length l - Z.to_nat (- n)) l
  else firstn (Z.to_nat n) l.

(** [ClipDatabase.get_all_clips]; [if limit:] skips a limit of zero. *)
Definition get_all_clips (limit : option Z) (clip_type : option Modality)
           (rated_only : bool) (db : ClipDatabase) : list ClipRecord :=
  let of_type :=
    match clip_type with
    | Some audio =>
        filter (fun r => match clip_manager.clip_type r with
                         | audio => true | video => false end) db
    | Some video =>
        filter (fun r => match clip_manager.clip_type r with
                         | audio => false | video => true end) db
    | None => db
    end in
  let rated := if rated_only then filter is_rated of_type else of_type in
  let ordered := sorted_by newest_first rated in
  match limit with
  | Some n => if (n =? 0)%Z then ordered else sql_limit n ordered
  | None => ordered
  end.

(** [ClipManager.get_clips_for_review] *)
Definition get_clips_for_review (limit : Z) (db : ClipDatabase)
  : list ClipRecord :=
  let all_clips := get_all_clips (Some (limit * 2)%Z) None false db in
  let unrated := filter (fun clip => negb (is_rated clip)) all_clips in
  slice_to limit unrated.

(** [ClipManager.cleanup_missing_files]; [file_exists] is
    [Path(...).exists()]. *)
Definition cleanup_missing_files (file_exists : string -> bool)
           (t : ClipTable) : nat * ClipTable :=
  fold_left
    (fun acc clip =>
       if negb (file_exists (filepath clip))
       then (S (fst acc), snd (delete_clip (id clip) (snd acc)))
       else acc)
    (get_all_clips None None false (rows t))
    (0%nat, t).

Lemma get_rated_clips_get_all_clips (db : ClipDatabase) :
  get_rated_clips db = get_all_clips None None true db.
Proof. reflexivity. Qed.

Lemma compare_le_trans : forall a b c : string,
  String.compare a b <> Gt -> String.compare b c <> Gt ->
  String.compare a c <> Gt.
Proof.
  induction a as [|x a IH]; intros [|y b] [|z c]; simpl; try congruence.
  unfold Ascii.compare.
  destruct (N.compare_spec (Ascii.N_of_ascii x) (Ascii.N_of_ascii y))
    as [Exy|Lxy|Gxy];
    destruct (N.compare_spec (Ascii.N_of_ascii y) (Ascii.N_of_ascii z))
    as [Eyz|Lyz|Gyz];
    destruct (N.compare_spec (Ascii.N_of_ascii x) (Ascii.N_of_ascii z))
    as [Exz|Lxz|Gxz];
    intros Hab Hbc; try congruence; try (exfalso; lia);
    eapply IH; eassumption.
Qed.

Lemma leb_trans (a b c : string) :
  String.leb a b = true -> String.leb b c = true -> String.leb a c = true.
Proof.
  unfold String.leb. intros H1 H2.
  assert (G : String.compare a c <> Gt).
  { apply compare_le_trans with b.
    - destruct (String.compare a b); congruence.
    - destruct (String.compare b c); congruence. }
  destruct (String.compare a c); congruence.
Qed.

Lemma newest_first_total : total newest_first.
Proof.
  intros a b H. unfold newest_first in *.
  destruct (String.leb_total (created_at b) (created_at a)) as [E|E];
    congruence.
Qed.

Lemma newest_first_transitive : transitive newest_first.
Proof.
  intros a b c H1 H2. unfold newest_first in *.
  exact (leb_trans _ _ _ H2 H1).
Qed.

Lemma filter_split_length (p : ClipRecord -> bool) (l : ClipDatabase) :
  (length (filter (fun r => negb (p r)) l) + length (filter p l)
   = length l)%nat.
Proof.
  induction l as [|x l IH]; simpl; [reflexivity|].
  destruct (p x); simpl; lia.
Qed.

Lemma unique_id_row (db : ClipDatabase) (a b : ClipRecord) :
  NoDup (map id db) -> In a db -> In b db -> id a = id b -> a = b.
Proof.
  induction db as [|x db IH]; simpl; intros Hnd Ha Hb E; [contradiction|].
  inversion Hnd as [|? ? Hn Hd]; subst.
  destruct Ha as [->|Ha], Hb as [->|Hb].
  - reflexivity.
  - exfalso. apply Hn. rewrite E. now apply in_map.
  - exfalso. apply Hn. rewrite <- E. now apply in_map.
  - now apply IH.
Qed.

Lemma delete_clip_rows (clip_id : Z) (t : ClipTable) :
  rows (snd (delete_clip clip_id t))
  = filter (fun r => negb (id r =? clip_id)%Z) (rows t) /\
  sequence (snd (delete_clip clip_id t)) = sequence t.
Proof.
  unfold delete_clip.
  destruct (get_clip clip_id (rows t)) as [row|] eqn:G; simpl;
    [now split|].
  split; [|reflexivity].
  pose proof (proj1 (get_clip_none clip_id (rows t)) G) as N. clear G.
  induction (rows t) as [|r db IH]; simpl; [reflexivity|].
  assert (E : (id r =? clip_id)%Z = false)
    by (apply Z.eqb_neq, N; now left).
  rewrite E. simpl. f_equal. apply IH. intros r' Hr'. apply N. now right.
Qed.

Section Cleanup.
Variable file_exists : string -> bool.

Definition missing (clip : ClipRecord) : bool :=
  negb (file_exists (filepath clip)).

Lemma cleanup_fold (clips : list ClipRecord) : forall removed t,
  let result :=
    fold_left
      (fun acc clip =>
         if negb (file_exists (filepath clip))
         then (S (fst acc), snd (delete_clip (id clip) (snd acc)))
         else acc)
      clips (removed, t) in
  fst result = (removed + length (filter missing clips))%nat /\
  rows (snd result)
  = filter (fun r => negb (existsb (fun clip => missing clip
                                               && (id clip =? id r)%Z)
                                   clips))
           (rows t) /\
  sequence (snd result) = sequence t.
Proof.
  induction clips as [|clip clips IH]; intros removed t; simpl.
  - repeat split; [lia|].
    induction (rows t) as [|r db IHdb]; simpl; [reflexivity|].
    now rewrite <- IHdb.
  - fold (missing clip). destruct (missing clip) eqn:M; simpl.
    + destruct (IH (S removed) (snd (delete_clip (id clip) t)))
        as (C & R & Q).
      destruct (delete_clip_rows (id clip) t) as [Dr Dq].
      split; [rewrite C; lia|]. split; [|now rewrite Q].
      rewrite R, Dr. clear.
      induction (rows t) as [|r db IHdb]; simpl; [reflexivity|].
      rewrite (Z.eqb_sym (id clip) (id r)).
      destruct (id r =? id clip)%Z; simpl; [exact IHdb|].
      destruct (existsb _ clips); simpl; [exact IHdb | now rewrite IHdb].
    + apply IH.
Qed.

Lemma cleanup_missing_files_rows (t : ClipTable) :
  NoDup (map id (rows t)) ->
  rows (snd (cleanup_missing_files file_exists t))
  = filter (fun r => file_exists (filepath r)) (rows t) /\
  (fst (cleanup_missing_files file_exists t)
   + length (filter (fun r => file_exists (filepath r)) (rows t))
   = length (rows t))%nat /\
  sequence (snd (cleanup_missing_files file_exists t)) = sequence t.
Proof.
  intro Hnd. unfold cleanup_missing_files, get_all_clips.
  destruct (cleanup_fold (sorted_by newest_first (rows t)) 0 t)
    as (C & R & Q).
  split; [|split; [|exact Q]].
  - rewrite R. apply filter_ext_in. intros r Hr.
    destruct (file_exists (filepath r)) eqn:E.
    + apply negb_true_iff.
      destruct (existsb _ _) eqn:X; [|reflexivity].
      apply existsb_exists in X as (c & Hc & P).
      apply andb_true_iff in P as [Mc Ic].
      apply Z.eqb_eq in Ic. apply sorted_by_In in Hc.
      rewrite (unique_id_row (rows t) c r Hnd Hc Hr Ic) in Mc.
      unfold missing in Mc. rewrite E in Mc. discriminate.
    + apply negb_false_iff. apply existsb_exists. exists r.
      split; [now apply sorted_by_In|].
      unfold missing. rewrite E, Z.eqb_refl. reflexivity.
  - rewrite C. simpl.
    rewrite (filter_length_perm missing _ (rows t))
      by (symmetry; apply sorted_by_perm).
    apply (filter_split_length (fun r => file_exists (filepath r))).
Qed.

(** X18: on a table with unique ids, [cleanup_missing_files] keeps
    exactly the rows whose file exists, in their order, and returns the
    number of rows it removed.  The table keeps its constraints and its
    id sequence, so the ids of the removed rows are not handed out
    again, and a second clean-up with the same files removes nothing. *)
Theorem cleanup_missing_files_contract (t : ClipTable) :
  table_ok t ->
  let removed := fst (cleanup_missing_files file_exists t) in
  let t' := snd (cleanup_missing_files file_exists t) in
  rows t' = filter (fun r => file_exists (filepath r)) (rows t) /\
  (removed + total_clips (rows t') = total_clips (rows t))%nat /\
  sequence t' = sequence t /\
  table_ok t' /\
  fst (cleanup_missing_files file_exists t') = 0%nat /\
  rows (snd (cleanup_missing_files file_exists t')) = rows t'.
Proof.
  intros (Hid & Hpath & Hseq).
  destruct (cleanup_missing_files_rows t Hid) as (R & C & Q).
  assert (Hid' : NoDup (map id (rows (snd (cleanup_missing_files
                                             file_exists t))))).
  { rewrite R. now apply clip_facts.filter_keeps_unique. }
  assert (Again : filter (fun r => file_exists (filepath r))
                         (rows (snd (cleanup_missing_files file_exists t)))
                  = rows (snd (cleanup_missing_files file_exists t))).
  { rewrite R. clear. induction (rows t) as [|r db IH]; simpl;
      [reflexivity|].
    destruct (file_exists (filepath r)) eqn:E; simpl; [|exact IH].
    now rewrite E, IH. }
  destruct (cleanup_missing_files_rows _ Hid') as (R' & C' & _).
  rewrite Again in R', C'.
  split; [exact R|]. split; [unfold total_clips; now rewrite R|].
  split; [exact Q|]. split; [|split; [lia | exact R']].
  repeat split.
  - exact Hid'.
  - rewrite R. now apply clip_facts.filter_keeps_unique.
  - rewrite R, Q. apply Forall_forall. intros r Hr.
    apply filter_In in Hr as [Hr _].
    rewrite Forall_forall in Hseq. now apply Hseq.
Qed.

End Cleanup.

(** Two clips, of which only the first still has its file. *)
Definition two_clips : ClipTable :=
  snd (register_clip "b.mp4" "/clips/b.mp4" 42 87 1.5 video [] None
                     "2025-01-02"
         (snd (register_clip "a.mp4" "/clips/a.mp4" 0 45 2 audio [] None
                             "2025-01-01" empty_table))).

Lemma cleanup_missing_files_contract_witness :
  table_ok two_clips /\
  fst (cleanup_missing_files (String.eqb "/clips/a.mp4") two_clips)
  = 1%nat /\
  map id (rows (snd (cleanup_missing_files (String.eqb "/clips/a.mp4")
                                           two_clips))) = [1%Z] /\
  sequence (snd (cleanup_missing_files (String.eqb "/clips/a.mp4")
                                       two_clips)) = 2%Z.
Proof.
  assert (H : table_ok two_clips).
  { unfold table_ok. simpl. repeat split.
    - repeat constructor; simpl; intuition discriminate.
    - repeat constructor; simpl; intuition discriminate.
    - repeat constructor; simpl; lia. }
  split; [exact H|]. split; [reflexivity|]. split; [reflexivity|].
  destruct (cleanup_missing_files_contract (String.eqb "/clips/a.mp4")
                                           two_clips H)
    as (_ & _ & Q & _).
  rewrite Q. reflexivity.
Defined.

Lemma firstn_incl (n : nat) (l : ClipDatabase) (c : ClipRecord) :
  In c (firstn n l) -> In c l.
Proof.
  intro H. rewrite <- (firstn_skipn n l). apply in_or_app. now left.
Qed.

Lemma slice_to_incl (n : Z) (l : ClipDatabase) (c : ClipRecord) :
  In c (slice_to n l) -> In c l.
Proof.
  unfold slice_to. destruct (n <? 0)%Z; apply firstn_incl.
Qed.

Lemma sql_limit_incl (n : Z) (l : ClipDatabase) (c : ClipRecord) :
  In c (sql_limit n l) -> In c l.
Proof.
  unfold sql_limit. destruct (n <? 0)%Z; [easy | apply firstn_incl].
Qed.

(** In a list ordered newest first, fewer than [n] rows are strictly
    newer than a row among the first [n]. *)
Lemma newer_before (c : ClipRecord) (l : ClipDatabase) : forall n,
  StronglySorted (holds newest_first) l ->
  In c (firstn n l) ->
  (length (filter (fun x => negb (newest_first c x)) l) < n)%nat.
Proof.
  induction l as [|y l IH]; intros [|n] S H; simpl in H; try contradiction.
  inversion S as [|? ? S' F]; subst. simpl.
  destruct H as [->|H].
  - assert (R : newest_first c c = true).
    { destruct (newest_first c c) eqn:E; [reflexivity|].
      pose proof (newest_first_total c c E) as E'. congruence. }
    rewrite R. simpl.
    replace (filter _ l) with (@nil ClipRecord); [simpl; lia|].
    symmetry. clear - F. induction F as [|x l Hx _ IH]; simpl;
      [reflexivity|].
    unfold holds in Hx. now rewrite Hx.
  - specialize (IH n S' H).
    destruct (negb (newest_first c y)); simpl; lia.
Qed.

(** X17: [get_clips_for_review] returns unrated clips of the table, at
    most [limit] of them.  It looks only at the [2 * limit] newest
    clips: a clip with [2 * limit] or more strictly newer clips in the
    table is never offered for review, rated or not as the newer ones
    may be.  When the table has no more than [2 * limit] clips, of which
    no more than [limit] are unrated, every unrated clip is offered. *)
Theorem get_clips_for_review_contract (limit : Z) (db : ClipDatabase) :
  (0 < limit)%Z ->
  (forall c, In c (get_clips_for_review limit db) ->
             In c db /\ rating c = None) /\
  (Z.of_nat (length (get_clips_for_review limit db)) <= limit)%Z /\
  (forall c,
      (2 * limit
       <= Z.of_nat (length (filter (fun x => negb (newest_first c x)) db)))%Z ->
      ~ In c (get_clips_for_review limit db)) /\
  ((Z.of_nat (total_clips db) <= 2 * limit)%Z ->
   (Z.of_nat (total_clips db) - Z.of_nat (rated_clips db) <= limit)%Z ->
   forall c, In c db -> rating c = None ->
             In c (get_clips_for_review limit db)).
Proof.
  intro L. unfold get_clips_for_review, get_all_clips.
  assert (Z2 : (limit * 2 =? 0)%Z = false) by (apply Z.eqb_neq; lia).
  assert (N2 : (limit * 2 <? 0)%Z = false) by (apply Z.ltb_ge; lia).
  assert (N1 : (limit <? 0)%Z = false) by (apply Z.ltb_ge; lia).
  rewrite Z2. unfold sql_limit, slice_to. rewrite N2, N1.
  set (ordered := sorted_by newest_first db).
  split; [|split; [|split]].
  - intros c H. apply firstn_incl in H.
    apply filter_In in H as [H U]. apply firstn_incl in H.
    apply sorted_by_In in H. split; [exact H|].
    unfold is_rated in U. now destruct (rating c).
  - pose proof (firstn_le_length (Z.to_nat limit)
                  (filter (fun clip => negb (is_rated clip))
                          (firstn (Z.to_nat (limit * 2)) ordered))) as B.
    lia.
  - intros c Many H. apply firstn_incl in H.
    apply filter_In in H as [H _].
    pose proof (newer_before c ordered (Z.to_nat (limit * 2))
                  (sorted_by_sorted newest_first db newest_first_total
                                    newest_first_transitive) H) as B.
    rewrite (filter_length_perm _ ordered db) in B
      by (symmetry; apply sorted_by_perm).
    lia.
  - intros Small Few c Hc U.
    assert (All : firstn (Z.to_nat (limit * 2)) ordered = ordered).
    { apply firstn_all2. unfold ordered. rewrite sorted_by_length.
      unfold total_clips in Small. lia. }
    rewrite All.
    assert (Fit : firstn (Z.to_nat limit)
                         (filter (fun clip => negb (is_rated clip)) ordered)
                  = filter (fun clip => negb (is_rated clip)) ordered).
    { apply firstn_all2.
      pose proof (filter_split_length is_rated ordered) as Sp.
      rewrite (filter_length_perm is_rated ordered db) in Sp
        by (symmetry; apply sorted_by_perm).
      unfold ordered in Sp at 2. rewrite sorted_by_length in Sp.
      unfold total_clips, rated_clips in Few. lia. }
    rewrite Fit. apply filter_In. split.
    + now apply sorted_by_In.
    + unfold is_rated. now rewrite U.
Qed.

Lemma get_clips_for_review_contract_witness :
  (0 < 1)%Z /\
  map id (get_clips_for_review 1 (rows two_clips)) = [2%Z] /\
  (Z.of_nat (length (get_clips_for_review 1 (rows two_clips))) <= 1)%Z.
Proof.
  assert (L : (0 < 1)%Z) by lia.
  split; [exact L|]. split; [reflexivity|].
  exact (proj1 (proj2 (get_clips_for_review_contract 1 (rows two_clips) L))).
Defined.

End clip_review.
